(** * BitChat Web: a shallow embedding of the peer session layer

    The development follows the JavaScript sources of the repository:
    - [js/crypto.js]             class CryptoService
    - [js/cross-tab.js]          class CrossTabService
    - the WebRTC transport       class BluetoothService
    - the chat logic             class ChatService
    - the signaling relay        the WebSocket server (rooms, joinRoom, ...)

    JavaScript strings are sequences of UTF-16 code units and byte arrays
    are sequences of octets; both are lists of [N].  A [Map] that is only
    looked up is a [gmap]; a [Map] that is iterated keeps its insertion
    order in an association list.  Methods that read or write [this], may
    throw, or are wrapped in [try]/[catch] live in a state-and-exception
    monad.  Objects of the platform that the program shares by reference
    (sockets, peer connections, data channels) live in a store and the
    program's tables hold references into it.  Output on the console is not
    modelled. *)

From Stdlib Require Import NArith ZArith List Lia Bool Ascii String.
From stdpp Require Import base option list gmap sorting pretty.

Local Open Scope N_scope.

Ltac Zify.zify_post_hook ::= Z.to_euclidean_division_equations.

(** ** JavaScript values *)

(** A string is the list of its UTF-16 code units, a [Uint8Array] the list
    of its octets. *)
Abbreviation jsstring := (list N).
Abbreviation bytes := (list N).

(** *** The Encoding Standard: [TextEncoder] and [TextDecoder]

    [TextEncoder.encode] converts its argument to scalar values (an unpaired
    surrogate becomes U+FFFD) and emits UTF-8.  [new TextDecoder()] is the
    UTF-8 decoder with [fatal = false] and [ignoreBOM = false]: malformed
    input yields U+FFFD and a leading U+FEFF is removed from the output.
    Shifts and masks of the standard are written as divisions and
    remainders by powers of two. *)

Module Encoding.

(** Leading and trailing surrogates. *)
Definition is_lead (u : N) : bool := (0xD800 <=? u) && (u <=? 0xDBFF).
Definition is_trail (u : N) : bool := (0xDC00 <=? u) && (u <=? 0xDFFF).

(** Conversion of a string to scalar values. *)
Fixpoint to_scalar_values (s : jsstring) : list N :=
  match s with
  | [] => []
  | u :: s' =>
      if is_lead u then
        match s' with
        | t :: s'' =>
            if is_trail t
            then (0x10000 + (u - 0xD800) * 0x400 + (t - 0xDC00))
                   :: to_scalar_values s''
            else 0xFFFD :: to_scalar_values s'
        | [] => [0xFFFD]
        end
      else if is_trail u then 0xFFFD :: to_scalar_values s'
      else u :: to_scalar_values s'
  end.

(** The UTF-8 encoder, one scalar value at a time. *)
Definition utf8_encode_cp (c : N) : list N :=
  if c <? 0x80 then [c]
  else if c <? 0x800 then [0xC0 + c / 64; 0x80 + c mod 64]
  else if c <? 0x10000 then
    [0xE0 + c / 4096; 0x80 + (c / 64) mod 64; 0x80 + c mod 64]
  else
    [0xF0 + c / 262144; 0x80 + (c / 4096) mod 64;
     0x80 + (c / 64) mod 64; 0x80 + c mod 64].

(** The UTF-8 decoder: its state, the handler of one byte with no pending
    sequence ([start]), the handler proper, and the run over the input with
    the end-of-queue step. A byte that breaks a sequence is reported and
    then processed again from the initial state. *)
Record Utf8Decoder := mkDecoder {
  code_point : N;
  bytes_seen : N;
  bytes_needed : N;
  lower_boundary : N;
  upper_boundary : N
}.

Definition initial : Utf8Decoder := mkDecoder 0 0 0 0x80 0xBF.

Definition start (b : N) : list N * Utf8Decoder :=
  if b <=? 0x7F then ([b], initial)
  else if (0xC2 <=? b) && (b <=? 0xDF) then
    ([], mkDecoder (b mod 32) 0 1 0x80 0xBF)
  else if (0xE0 <=? b) && (b <=? 0xEF) then
    ([], mkDecoder (b mod 16) 0 2
           (if b =? 0xE0 then 0xA0 else 0x80)
           (if b =? 0xED then 0x9F else 0xBF))
  else if (0xF0 <=? b) && (b <=? 0xF4) then
    ([], mkDecoder (b mod 8) 0 3
           (if b =? 0xF0 then 0x90 else 0x80)
           (if b =? 0xF4 then 0x8F else 0xBF))
  else ([0xFFFD], initial).

Definition handler (d : Utf8Decoder) (b : N) : list N * Utf8Decoder :=
  if bytes_needed d =? 0 then start b
  else if negb ((lower_boundary d <=? b) && (b <=? upper_boundary d)) then
    let '(out, d') := start b in (0xFFFD :: out, d')
  else
    let cp := code_point d * 64 + b mod 64 in
    if bytes_seen d + 1 =? bytes_needed d then ([cp], initial)
    else ([], mkDecoder cp (bytes_seen d + 1) (bytes_needed d) 0x80 0xBF).

Fixpoint run (d : Utf8Decoder) (bs : list N) : list N :=
  match bs with
  | [] => if bytes_needed d =? 0 then [] else [0xFFFD]
  | b :: bs' => let '(out, d') := handler d b in out ++ run d' bs'
  end.

Definition utf8_decode (bs : list N) : list N := run initial bs.

(** The UTF-16 code units of a code point. *)
Definition code_units_of (c : N) : list N :=
  if c <? 0x10000 then [c]
  else [0xD800 + (c - 0x10000) / 0x400; 0xDC00 + (c - 0x10000) mod 0x400].


Definition TextEncoder_encode (s : jsstring) : list N :=
  flat_map utf8_encode_cp (to_scalar_values s).



End Encoding.

(** The code units of a literal of this file (written in UTF-8). *)
Definition js (s : string) : jsstring :=
flat_map Encoding.code_units_of
  (Encoding.utf8_decode (map N_of_ascii (list_ascii_of_string s))).

(** [IsLessThan] on strings (ECMA-262): the first differing code unit
    decides, a proper prefix is smaller. *)
Fixpoint str_ltb (x y : jsstring) : bool :=
  match x, y with
  | _, [] => false
  | [], _ :: _ => true
  | a :: x', b :: y' =>
      if a <? b then true else if b <? a then false else str_ltb x' y'
  end.

(** [x] does not come after [y] in the order of [Array.prototype.sort]
    called without a comparator. *)
Definition str_le (x y : jsstring) : Prop := str_ltb y x = false.

Global Instance str_le_dec : RelDecision str_le.
Proof. intros x y. unfold str_le. apply _. Defined.

(** [Array.prototype.sort()] on an array of strings. *)
Definition Array_sort (l : list jsstring) : list jsstring :=
  merge_sort str_le l.

(** *** Exceptions and the method monad *)

Inductive Exn :=
| TypeError (message : jsstring)
| OperationError
| SecurityError
| Error (message : jsstring).

Definition Exn_message (e : Exn) : jsstring :=
  match e with
  | TypeError m | Error m => m
  | OperationError => js "The operation failed for an operation-specific reason"
  | SecurityError => js "The operation is insecure."
  end.

Inductive Completion (A : Type) :=
| Normal (a : A)
| Throw (e : Exn).
Arguments Normal {A} a.
Arguments Throw {A} e.

(** A method over the state [S] returning an [A]. *)
Definition Js (S A : Type) : Type := S → Completion A * S.

Global Instance Js_ret {S} : MRet (Js S) := λ A a s, (Normal a, s).

Global Instance Js_bind {S} : MBind (Js S) := λ A B k m s,
  match m s with
  | (Normal a, s') => k a s'
  | (Throw e, s') => (Throw e, s')
  end.

(** [let! x := m in k] runs [m] and then [k] on its result. *)
Definition bind {S A B} (m : Js S A) (k : A → Js S B) : Js S B := m ≫= k.
Notation "'let!' x := m 'in' k" := (bind m (λ x, k))
  (at level 10, x binder, m at level 100, k at level 200).

Definition throw {S A} (e : Exn) : Js S A := λ s, (Throw e, s).

(** [try { body } catch (error) { handler }] *)
Definition try_catch {S A} (body : Js S A) (handler : Exn → Js S A) : Js S A :=
  λ s, match body s with
       | (Normal a, s') => (Normal a, s')
       | (Throw e, s') => handler e s'
       end.

Definition gets {S A} (f : S → A) : Js S A := λ s, (Normal (f s), s).
Definition modify {S} (f : S → S) : Js S unit := λ s, (Normal (), f s).

(** [array.forEach(body)] *)
Fixpoint forEach {S A} (l : list A) (body : A → Js S unit) : Js S unit :=
  match l with
  | [] => mret ()
  | x :: l' => body x;; forEach l' body
  end.

(** Running a method of a component held in a field of the state. *)
Definition zoom {S T A} (get : S → T) (set : T → S → S) (m : Js T A) : Js S A :=
  λ s, let '(r, t') := m (get s) in (r, set t' s).

(** *** Insertion-ordered [Map]s *)

Module JsMap.
Section JsMap.
Context {V : Type}.

Definition t := list (jsstring * V).

Definition get (k : jsstring) (m : t) : option V :=
  snd <$> List.find (λ kv, bool_decide (kv.1 = k)) m.

Definition has (k : jsstring) (m : t) : bool :=
  bool_decide (is_Some (get k m)).

(** [set] keeps the position of a key that is present and appends a new
    key. *)
Fixpoint set (k : jsstring) (v : V) (m : t) : t :=
  match m with
  | [] => [(k, v)]
  | (k', v') :: m' =>
      if decide (k' = k) then (k, v) :: m' else (k', v') :: set k v m'
  end.

Definition delete (k : jsstring) (m : t) : t :=
  List.filter (λ kv, negb (bool_decide (kv.1 = k))) m.

Definition keys (m : t) : list jsstring := m.*1.
Definition values (m : t) : list V := m.*2.
Definition size (m : t) : nat := length m.

End JsMap.
Arguments t : clear implicits.
End JsMap.

(** *** [JSON.stringify] on flat objects *)

Module JSON.

Definition hex_digit (d : N) : N := if d <? 10 then 48 + d else 87 + d.

(** [UnicodeEscape]: a backslash, [u] and four lower-case hex digits. *)
Definition UnicodeEscape (u : N) : jsstring :=
  [92; 117; hex_digit (u / 4096 mod 16); hex_digit (u / 256 mod 16);
   hex_digit (u / 16 mod 16); hex_digit (u mod 16)].

Definition escape_unit (u : N) : jsstring :=
  if u =? 8 then [92; 98]
  else if u =? 9 then [92; 116]
  else if u =? 10 then [92; 110]
  else if u =? 12 then [92; 102]
  else if u =? 13 then [92; 114]
  else if u =? 34 then [92; 34]
  else if u =? 92 then [92; 92]
  else if u <? 32 then UnicodeEscape u
  else [u].

(** The body of [QuoteJSONString]: surrogate pairs are copied, unpaired
    surrogates are escaped. *)
Fixpoint quote_body (s : jsstring) : jsstring :=
  match s with
  | [] => []
  | u :: s' =>
      if Encoding.is_lead u then
        match s' with
        | t :: s'' =>
            if Encoding.is_trail t then u :: t :: quote_body s''
            else UnicodeEscape u ++ quote_body s'
        | [] => UnicodeEscape u
        end
      else if Encoding.is_trail u then UnicodeEscape u ++ quote_body s'
      else escape_unit u ++ quote_body s'
  end.

Definition QuoteJSONString (s : jsstring) : jsstring :=
  [34] ++ quote_body s ++ [34].

(** Two decimal digits, three decimal digits, four decimal digits. *)
Definition digits (width : nat) (n : N) : jsstring :=
  let s := js (pretty n) in
  replicate (width - length s) 48 ++ s.

(** [Date.prototype.toISOString] of a time value (milliseconds since the
    epoch); a year above 9999 is written with a sign and six digits. *)
Definition toISOString (ms : N) : jsstring :=
  let days := ms / 86400000 in
  let rem := ms mod 86400000 in
  let z := days + 719468 in
  let era := z / 146097 in
  let doe := z mod 146097 in
  let yoe := (doe - doe / 1460 + doe / 36524 - doe / 146096) / 365 in
  let doy := doe - (365 * yoe + yoe / 4 - yoe / 100) in
  let mp := (5 * doy + 2) / 153 in
  let d := doy - (153 * mp + 2) / 5 + 1 in
  let m := if mp <? 10 then mp + 3 else mp - 9 in
  let y := yoe + era * 400 + (if m <=? 2 then 1 else 0) in
  (if y <=? 9999 then digits 4 y else js "+" ++ digits 6 y) ++
  js "-" ++ digits 2 m ++ js "-" ++ digits 2 d ++ js "T" ++
  digits 2 (rem / 3600000) ++ js ":" ++ digits 2 (rem / 60000 mod 60) ++
  js ":" ++ digits 2 (rem / 1000 mod 60) ++ js "." ++
  digits 3 (rem mod 1000) ++ js "Z".

(** The values held by the fields of the message objects. *)
Inductive Value :=
| VString (s : jsstring)
| VNumber (n : N)
| VBoolean (b : bool)
| VDate (ms : N).

(** An object: its own properties in insertion order. *)
Abbreviation Object := (list (string * Value)).

(** [obj[k] = v]. *)
Fixpoint set_property (k : string) (v : Value) (o : Object) : Object :=
  match o with
  | [] => [(k, v)]
  | (k', v') :: o' =>
      if decide (k' = k) then (k, v) :: o' else (k', v') :: set_property k v o'
  end.

Definition get_property (k : string) (o : Object) : option Value :=
  snd <$> List.find (λ kv, bool_decide (kv.1 = k)) o.

Definition stringify_value (v : Value) : jsstring :=
  match v with
  | VString s => QuoteJSONString s
  | VNumber n => js (pretty n)
  | VBoolean true => js "true"
  | VBoolean false => js "false"
  | VDate ms => QuoteJSONString (toISOString ms)
  end.

Definition stringify_property (kv : string * Value) : jsstring :=
  QuoteJSONString (js kv.1) ++ js ":" ++ stringify_value kv.2.

Fixpoint join (sep : jsstring) (l : list jsstring) : jsstring :=
  match l with
  | [] => []
  | [x] => x
  | x :: l' => x ++ sep ++ join sep l'
  end.

Definition stringify (o : Object) : jsstring :=
  js "{" ++ join (js ",") (stringify_property <$> o) ++ js "}".

End JSON.

(** *** [btoa] and [atob]: forgiving-base64 of the Infra Standard *)

Module Base64.

(** The alphabet: [A]-[Z], [a]-[z], [0]-[9], [+] and [/]. *)
Definition base64_char (i : N) : N :=
  if i <? 26 then 65 + i
  else if i <? 52 then 71 + i
  else if i <? 62 then i - 4
  else if i =? 62 then 43
  else 47.

Definition base64_index (c : N) : option N :=
  if (65 <=? c) && (c <=? 90) then Some (c - 65)
  else if (97 <=? c) && (c <=? 122) then Some (c - 71)
  else if (48 <=? c) && (c <=? 57) then Some (c + 4)
  else if c =? 43 then Some 62
  else if c =? 47 then Some 63
  else None.

(** Three octets give four characters; one or two octets at the end are
    padded with [=]. *)
Fixpoint encode (l : bytes) : jsstring :=
  match l with
  | [] => []
  | [a] => [base64_char (a / 4); base64_char (a mod 4 * 16); 61; 61]
  | [a; b] =>
      [base64_char (a / 4); base64_char (a mod 4 * 16 + b / 16);
       base64_char (b mod 16 * 4); 61]
  | a :: b :: c :: l' =>
      base64_char (a / 4) :: base64_char (a mod 4 * 16 + b / 16) ::
      base64_char (b mod 16 * 4 + c / 64) :: base64_char (c mod 64) ::
      encode l'
  end.

(** Four characters give three octets; of two or three characters at the
    end the bits that fill no octet are discarded. *)
Fixpoint decode (l : list N) : bytes :=
  match l with
  | a :: b :: c :: d :: l' =>
      (a * 4 + b / 16) :: (b mod 16 * 16 + c / 4) :: (c mod 4 * 64 + d) ::
      decode l'
  | [a; b; c] => [a * 4 + b / 16; b mod 16 * 16 + c / 4]
  | [a; b] => [a * 4 + b / 16]
  | _ => []
  end.

Definition InvalidCharacterError : Exn := Error (js "InvalidCharacterError").

(** [btoa(data)]: throws when a code unit is above U+00FF. *)
Definition btoa (data : jsstring) : Completion jsstring :=
  if forallb (λ c, c <=? 255) data then Normal (encode data)
  else Throw InvalidCharacterError.

Definition is_ascii_whitespace (c : N) : bool :=
  (c =? 9) || (c =? 10) || (c =? 12) || (c =? 13) || (c =? 32).

(** One or two [=] at the end of a text whose length is a multiple of
    four are removed. *)
Definition strip_padding (data : jsstring) : jsstring :=
  if decide (length data mod 4 = 0)%nat then
    match reverse data with
    | x :: y :: r =>
        if x =? 61 then (if y =? 61 then reverse r else reverse (y :: r))
        else data
    | [x] => if x =? 61 then [] else data
    | [] => data
    end
  else data.

(** [atob(data)] *)
Definition atob (data : jsstring) : Completion jsstring :=
  let data := List.filter (λ c, negb (is_ascii_whitespace c)) data in
  let data := strip_padding data in
  if decide (length data mod 4 = 1)%nat then Throw InvalidCharacterError
  else
    match mapM base64_index data with
    | Some sextets => Normal (decode sextets)
    | None => Throw InvalidCharacterError
    end.

End Base64.

(** ** The browser around the services *)

(** Envelopes of the signaling protocol.  They travel as JSON text; the
    model keeps the parsed object.  [roomId] is absent from the envelopes
    the client builds for [offer], [answer] and [ice-candidate]. *)
Inductive SdpType := sdp_offer | sdp_answer.

Record SessionDescription := mkDescription {
  sd_type : SdpType;
  sdp : jsstring
}.

Inductive SignalingMessage :=
| msg_join (roomId peerId : jsstring)
| msg_leave (roomId : jsstring)
| msg_room_joined (roomId : jsstring) (peers : list jsstring)
| msg_peer_joined (peerId roomId : jsstring)
| msg_peer_left (peerId roomId : jsstring)
| msg_offer (roomId : option jsstring) (peerId targetPeer : jsstring)
    (data : SessionDescription)
| msg_answer (roomId : option jsstring) (peerId targetPeer : jsstring)
    (data : SessionDescription)
| msg_ice_candidate (roomId : option jsstring) (peerId targetPeer : jsstring)
    (data : jsstring).

(** [readyState] of a [WebSocket] and of an [RTCDataChannel]. *)
Inductive ReadyState := CONNECTING | OPEN | CLOSING | CLOSED.

Global Instance ReadyState_eq_dec : EqDecision ReadyState.
Proof. solve_decision. Defined.

(** [connectionState] of an [RTCPeerConnection]. *)
Inductive ConnectionState :=
| cs_new | cs_connecting | cs_connected | cs_disconnected | cs_failed
| cs_closed.

Global Instance ConnectionState_eq_dec : EqDecision ConnectionState.
Proof. solve_decision. Defined.

(** What a data channel carries: a string or a binary buffer. *)
Inductive ChannelData :=
| Text (s : jsstring)
| Binary (b : bytes).

(** The callbacks the transport hands to [setTimeout] and [setInterval]. *)
Inductive Callback :=
| cb_simulatePeerDiscovery
| cb_discovered (index : nat)
| cb_autoConnect (peerId : jsstring)
| cb_scan
| cb_probeTimeout (ws : nat).

Record Timer := mkTimer {
  timer_id : nat;
  due : N;
  callback : Callback;
  interval : option N
}.

(** A socket is either the probe of [checkSignalingConnectivity], with its
    timeout and whether its promise is settled, or the signaling socket
    with the handlers of [setupSignaling]. *)
Inductive SocketUse :=
| probe (timeout : nat) (settled : bool)
| signaling.

Record WebSocket := mkWebSocket {
  ws_url : jsstring;
  ws_readyState : ReadyState;
  ws_sent : list SignalingMessage;
  ws_use : SocketUse
}.

(** A peer connection; [pc_handlers] is the [peerId] captured by the
    handlers that [setupConnectionHandlers] installs. *)
Record RTCPeerConnection := mkPeerConnection {
  pc_connectionState : ConnectionState;
  pc_localDescription : option SessionDescription;
  pc_remoteDescription : option SessionDescription;
  pc_candidates : list jsstring;
  pc_handlers : option jsstring
}.

(** A data channel; [dc_sent] is what [send] accepted, oldest first;
    [dc_refuses] tells for which data [send] throws although the channel is
    open (data over the maximal message size, no buffer left);
    [dc_handlers] is the [peerId] captured by [setupDataChannel]. *)
Record RTCDataChannel := mkDataChannel {
  dc_label : jsstring;
  dc_connection : nat;
  dc_readyState : ReadyState;
  dc_sent : list ChannelData;
  dc_refuses : ChannelData → bool;
  dc_handlers : option jsstring
}.

(** An [async] method suspended at an [await] on a peer connection. *)
Inductive Suspended :=
| await_offer (pc : nat) (peerId : jsstring)
| await_answer_incoming (pc : nat) (peerId : jsstring)
    (offer : SessionDescription)
| await_answer (pc : nat) (peerId : jsstring) (offer : SessionDescription).

Record Window := mkWindow {
  now : N;
  location_host : jsstring;
  localStorage : gmap jsstring jsstring;
  entropy : nat → N;
  drawn : nat;
  timers : list Timer;
  nextTimer : nat;
  webSocketAllowed : bool;
  rtcAvailable : bool;
  socketObjects : list WebSocket;
  connectionObjects : list RTCPeerConnection;
  channelObjects : list RTCDataChannel;
  suspended : list (option Suspended)
}.

Module Window.

Definition set_now v (w : Window) : Window :=
  mkWindow v (location_host w) (localStorage w) (entropy w) (drawn w)
    (timers w) (nextTimer w) (webSocketAllowed w) (rtcAvailable w)
    (socketObjects w) (connectionObjects w) (channelObjects w) (suspended w).
Definition set_localStorage v (w : Window) : Window :=
  mkWindow (now w) (location_host w) v (entropy w) (drawn w)
    (timers w) (nextTimer w) (webSocketAllowed w) (rtcAvailable w)
    (socketObjects w) (connectionObjects w) (channelObjects w) (suspended w).
Definition set_drawn v (w : Window) : Window :=
  mkWindow (now w) (location_host w) (localStorage w) (entropy w) v
    (timers w) (nextTimer w) (webSocketAllowed w) (rtcAvailable w)
    (socketObjects w) (connectionObjects w) (channelObjects w) (suspended w).
Definition set_timers v n (w : Window) : Window :=
  mkWindow (now w) (location_host w) (localStorage w) (entropy w) (drawn w)
    v n (webSocketAllowed w) (rtcAvailable w)
    (socketObjects w) (connectionObjects w) (channelObjects w) (suspended w).
Definition set_socketObjects v (w : Window) : Window :=
  mkWindow (now w) (location_host w) (localStorage w) (entropy w) (drawn w)
    (timers w) (nextTimer w) (webSocketAllowed w) (rtcAvailable w)
    v (connectionObjects w) (channelObjects w) (suspended w).
Definition set_connectionObjects v (w : Window) : Window :=
  mkWindow (now w) (location_host w) (localStorage w) (entropy w) (drawn w)
    (timers w) (nextTimer w) (webSocketAllowed w) (rtcAvailable w)
    (socketObjects w) v (channelObjects w) (suspended w).
Definition set_channelObjects v (w : Window) : Window :=
  mkWindow (now w) (location_host w) (localStorage w) (entropy w) (drawn w)
    (timers w) (nextTimer w) (webSocketAllowed w) (rtcAvailable w)
    (socketObjects w) (connectionObjects w) v (suspended w).
Definition set_suspended v (w : Window) : Window :=
  mkWindow (now w) (location_host w) (localStorage w) (entropy w) (drawn w)
    (timers w) (nextTimer w) (webSocketAllowed w) (rtcAvailable w)
    (socketObjects w) (connectionObjects w) (channelObjects w) v.

Section Methods.
Context {T : Type}.

(** Reading and writing the browser half and the service half of the
    state. *)
Definition read {A} (f : Window → A) : Js (Window * T) A :=
  gets (λ s, f s.1).
Definition write (f : Window → Window) : Js (Window * T) unit :=
  modify (λ s, (f s.1, s.2)).
Definition this {A} (f : T → A) : Js (Window * T) A :=
  gets (λ s, f s.2).
Definition update (f : T → T) : Js (Window * T) unit :=
  modify (λ s, (s.1, f s.2)).

(** [Date.now()] and the time value of [new Date()]. *)
Definition Date_now : Js (Window * T) N := read now.

(** [crypto.getRandomValues(new Uint8Array(length))]. *)
Definition getRandomValues (length : nat) : Js (Window * T) bytes :=
  let! e := read entropy in
  let! d := read drawn in
  write (set_drawn (d + length)%nat);;
  mret ((λ i, e (d + i)%nat mod 256) <$> seq 0 length).

(** [Math.random().toString(36).substr(2, 9)]: nine digits in base 36. *)
Definition random_base36 : Js (Window * T) jsstring :=
  let! e := read entropy in
  let! d := read drawn in
  write (set_drawn (d + 9)%nat);;
  mret ((λ i, JSON.hex_digit (e (d + i)%nat mod 36)) <$> seq 0 9).

(** [Math.floor(Math.random() * bound)]. *)
Definition random_below (bound : N) : Js (Window * T) N :=
  let! e := read entropy in
  let! d := read drawn in
  write (set_drawn (d + 1)%nat);;
  mret (e d mod bound).

(** [setTimeout(callback, delay)] and [setInterval(callback, delay)]. *)
Definition setTimeout (cb : Callback) (delay : N) : Js (Window * T) nat :=
  let! t := read now in
  let! l := read timers in
  let! n := read nextTimer in
  write (set_timers (l ++ [mkTimer n (t + delay) cb None]) (S n));;
  mret n.

Definition setInterval (cb : Callback) (delay : N) : Js (Window * T) nat :=
  let! t := read now in
  let! l := read timers in
  let! n := read nextTimer in
  write (set_timers (l ++ [mkTimer n (t + delay) cb (Some delay)]) (S n));;
  mret n.

Definition clearTimeout (id : nat) : Js (Window * T) unit :=
  let! l := read timers in
  let! n := read nextTimer in
  write (set_timers (List.filter (λ t, negb (bool_decide (timer_id t = id))) l) n).

(** [new WebSocket(url)]. *)
Definition new_WebSocket (url : jsstring) (use : SocketUse) : Js (Window * T) nat :=
  let! allowed := read webSocketAllowed in
  if allowed : bool then
    let! l := read socketObjects in
    write (set_socketObjects (l ++ [mkWebSocket url CONNECTING [] use]));;
    mret (length l)
  else throw SecurityError.

Definition socket (ws : nat) : Js (Window * T) (option WebSocket) :=
  read (λ w, socketObjects w !! ws).

Definition alter_socket (f : WebSocket → WebSocket) (ws : nat) : Js (Window * T) unit :=
  write (λ w, set_socketObjects (alter f ws (socketObjects w)) w).

(** [ws.send(JSON.stringify(message))] on an open socket. *)
Definition ws_send (ws : nat) (m : SignalingMessage) : Js (Window * T) unit :=
  alter_socket (λ o, mkWebSocket (ws_url o) (ws_readyState o)
                       (ws_sent o ++ [m]) (ws_use o)) ws.

(** [ws.close()]. *)
Definition ws_close (ws : nat) : Js (Window * T) unit :=
  alter_socket (λ o, mkWebSocket (ws_url o)
                       (match ws_readyState o with
                        | CLOSED => CLOSED
                        | _ => CLOSING
                        end)
                       (ws_sent o) (ws_use o)) ws.

(** [new RTCPeerConnection(rtcConfig)]. *)
Definition new_RTCPeerConnection : Js (Window * T) nat :=
  let! available := read rtcAvailable in
  if available : bool then
    let! l := read connectionObjects in
    write (set_connectionObjects
             (l ++ [mkPeerConnection cs_new None None [] None]));;
    mret (length l)
  else throw (TypeError (js "RTCPeerConnection is not a constructor")).

Definition alter_connection (f : RTCPeerConnection → RTCPeerConnection)
    (pc : nat) : Js (Window * T) unit :=
  write (λ w, set_connectionObjects (alter f pc (connectionObjects w)) w).

(** [connection.close()]. *)
Definition pc_close (pc : nat) : Js (Window * T) unit :=
  alter_connection (λ o, mkPeerConnection cs_closed (pc_localDescription o)
                           (pc_remoteDescription o) (pc_candidates o)
                           (pc_handlers o)) pc.

(** A channel object comes from [connection.createDataChannel(label)] or
    with a [datachannel] event. *)
Definition new_DataChannel (pc : nat) (label : jsstring)
    (refuses : ChannelData → bool) : Js (Window * T) nat :=
  let! l := read channelObjects in
  write (set_channelObjects
           (l ++ [mkDataChannel label pc CONNECTING [] refuses None]));;
  mret (length l).

Definition channel (dc : nat) : Js (Window * T) (option RTCDataChannel) :=
  read (λ w, channelObjects w !! dc).

Definition alter_channel (f : RTCDataChannel → RTCDataChannel) (dc : nat) :
    Js (Window * T) unit :=
  write (λ w, set_channelObjects (alter f dc (channelObjects w)) w).

(** [dataChannel.send(data)]: throws unless the channel is open and takes
    the data. *)
Definition dc_send (dc : nat) (data : ChannelData) : Js (Window * T) unit :=
  let! o := channel dc in
  match o with
  | Some c =>
      if decide (dc_readyState c = OPEN) then
        if dc_refuses c data then throw OperationError
        else alter_channel (λ c, mkDataChannel (dc_label c) (dc_connection c)
                                   (dc_readyState c) (dc_sent c ++ [data])
                                   (dc_refuses c) (dc_handlers c)) dc
      else throw (Error (js "InvalidStateError"))
  | None => throw (TypeError (js "Cannot read properties of undefined"))
  end.

(** Suspending an [async] method at an [await]. *)
Definition suspend (k : Suspended) : Js (Window * T) unit :=
  write (λ w, set_suspended (suspended w ++ [Some k]) w).

End Methods.
End Window.

(** ** The WebRTC transport: class BluetoothService *)

Module BluetoothService.
Import Window.

(** An entry of [this.peers] and of [this.discoveredPeers]. *)
Record Peer := mkPeer {
  peer_id : jsstring;
  peer_name : jsstring;
  peer_connected : bool;
  connectedAt : N;
  peer_rssi : Z;
  lastSeen : N
}.

Record DiscoveredPeer := mkDiscoveredPeer {
  disc_id : jsstring;
  disc_name : jsstring;
  disc_rssi : Z;
  discovered : N;
  disc_connected : bool
}.

(** The optional methods of the delegate object and the calls made on
    them. *)
Inductive DelegateMethod :=
| has_onScanningStarted
| has_onScanningStopped
| has_onPeerDiscovered
| has_onPeerConnected
| has_onPeerDisconnected.

Inductive DelegateCall :=
| call_onScanningStarted
| call_onScanningStopped
| call_onPeerDiscovered (peerId name : jsstring) (rssi : Z)
| call_onPeerConnected (peerId name : jsstring)
| call_onPeerDisconnected (peerId : jsstring).

(** The fields of the service.  [connections], [dataChannels] and
    [signalingWs] hold references to objects of the browser.  [delegated]
    records the calls made on the delegate, oldest first. *)
Record t := mk {
  peers : JsMap.t Peer;
  discoveredPeers : gmap jsstring DiscoveredPeer;
  isScanning : bool;
  isAdvertising : bool;
  delegate : option (DelegateMethod → bool);
  connections : gmap jsstring nat;
  dataChannels : gmap jsstring nat;
  roomId : jsstring;
  signalingWs : option nat;
  myId : option jsstring;
  delegated : list DelegateCall
}.

Definition set_peers v (s : t) : t :=
  mk v (discoveredPeers s) (isScanning s) (isAdvertising s) (delegate s)
    (connections s) (dataChannels s) (roomId s) (signalingWs s) (myId s)
    (delegated s).
Definition set_discoveredPeers v (s : t) : t :=
  mk (peers s) v (isScanning s) (isAdvertising s) (delegate s)
    (connections s) (dataChannels s) (roomId s) (signalingWs s) (myId s)
    (delegated s).
Definition set_isScanning v (s : t) : t :=
  mk (peers s) (discoveredPeers s) v (isAdvertising s) (delegate s)
    (connections s) (dataChannels s) (roomId s) (signalingWs s) (myId s)
    (delegated s).
Definition set_isAdvertising v (s : t) : t :=
  mk (peers s) (discoveredPeers s) (isScanning s) v (delegate s)
    (connections s) (dataChannels s) (roomId s) (signalingWs s) (myId s)
    (delegated s).
Definition set_delegate v (s : t) : t :=
  mk (peers s) (discoveredPeers s) (isScanning s) (isAdvertising s) v
    (connections s) (dataChannels s) (roomId s) (signalingWs s) (myId s)
    (delegated s).
Definition set_connections v (s : t) : t :=
  mk (peers s) (discoveredPeers s) (isScanning s) (isAdvertising s)
    (delegate s) v (dataChannels s) (roomId s) (signalingWs s) (myId s)
    (delegated s).
Definition set_dataChannels v (s : t) : t :=
  mk (peers s) (discoveredPeers s) (isScanning s) (isAdvertising s)
    (delegate s) (connections s) v (roomId s) (signalingWs s) (myId s)
    (delegated s).
Definition set_signalingWs v (s : t) : t :=
  mk (peers s) (discoveredPeers s) (isScanning s) (isAdvertising s)
    (delegate s) (connections s) (dataChannels s) (roomId s) v (myId s)
    (delegated s).
Definition set_myId v (s : t) : t :=
  mk (peers s) (discoveredPeers s) (isScanning s) (isAdvertising s)
    (delegate s) (connections s) (dataChannels s) (roomId s) (signalingWs s)
    v (delegated s).
Definition set_delegated v (s : t) : t :=
  mk (peers s) (discoveredPeers s) (isScanning s) (isAdvertising s)
    (delegate s) (connections s) (dataChannels s) (roomId s) (signalingWs s)
    (myId s) v.

Abbreviation M := (Js (Window * t)).

(** [if (this.delegate && this.delegate.method) this.delegate.method(...)] *)
Definition notify (m : DelegateMethod) (call : DelegateCall) : M unit :=
  let! d := this delegate in
  match d with
  | Some responds =>
      if responds m then update (λ s, set_delegated (delegated s ++ [call]) s)
      else mret ()
  | None => mret ()
  end.

(** [generateRoomId()] *)
Definition generateRoomId : M jsstring :=
  let! r := random_base36 in
  mret (js "bitchat-" ++ r).

(** The fields set by the constructor, before it calls [init]. *)
Definition constructor : Js (Window * unit) t :=
  let! r := random_base36 in
  mret (mk [] ∅ false false None ∅ ∅ (js "bitchat-" ++ r) None None []).

(** [getMyId()]: an empty id is falsy, as [null] is. *)
Definition getMyId : M jsstring :=
  let! i := this myId in
  match i with
  | Some (c :: i) => mret (c :: i)
  | _ =>
      let! r := random_base36 in
      update (set_myId (Some (js "me-" ++ r)));;
      mret (js "me-" ++ r)
  end.

(** [getMyNickname()]: the empty string is falsy. *)
Definition getMyNickname : M jsstring :=
  let! ls := read localStorage in
  match ls !! js "bitchat-nickname" with
  | Some (c :: n) => mret (c :: n)
  | _ => mret (js "Anonyme")
  end.

(** [setMyNickname(nickname)] *)
Definition setMyNickname (nickname : jsstring) : M unit :=
  write (λ w, set_localStorage
                (<[js "bitchat-nickname" := nickname]> (localStorage w)) w).

(** The socket [this.signalingWs] when it is set and open. *)
Definition open_signaling : M (option nat) :=
  let! r := this signalingWs in
  match r with
  | Some ws =>
      let! o := socket ws in
      match o with
      | Some o =>
          if decide (ws_readyState o = OPEN) then mret (Some ws)
          else mret None
      | None => mret None
      end
  | None => mret None
  end.

(** [sendSignalingMessage(message)] *)
Definition sendSignalingMessage (message : SignalingMessage) : M unit :=
  let! o := open_signaling in
  match o with
  | Some ws => ws_send ws message
  | None => mret ()
  end.

(** [joinSignalingRoom()] *)
Definition joinSignalingRoom : M unit :=
  let! o := open_signaling in
  match o with
  | Some ws =>
      let! room := this roomId in
      let! me := getMyId in
      ws_send ws (msg_join room me)
  | None => mret ()
  end.

(** [sendToPeer(peerId, message)] *)
Definition sendToPeer (peerId : jsstring) (message : ChannelData) : M bool :=
  let! dataChannel := this (λ s, dataChannels s !! peerId) in
  match dataChannel with
  | Some dc =>
      let! o := channel dc in
      match o with
      | Some c =>
          if decide (dc_readyState c = OPEN) then
            try_catch (dc_send dc message;; mret true) (λ error, mret false)
          else mret false
      | None => mret false
      end
  | None => mret false
  end.

(** [broadcastMessage(message)]: the loop over [this.peers] with the
    counter [sentCount], and the method. *)
Fixpoint broadcast_loop (message : ChannelData) (l : list jsstring)
    (sentCount : nat) : M nat :=
  match l with
  | [] => mret sentCount
  | peerId :: l' =>
      let! sent := sendToPeer peerId message in
      broadcast_loop message l' (if sent : bool then S sentCount else sentCount)
  end.

Definition broadcastMessage (message : ChannelData) : M nat :=
  let! ps := this peers in
  broadcast_loop message (JsMap.keys ps) 0%nat.

(** [sendHandshake(peerId)] *)
Definition sendHandshake (peerId : jsstring) : M unit :=
  let! me := getMyId in
  let! nickname := getMyNickname in
  let! timestamp := Date_now in
  let handshake :=
    [("type", JSON.VString (js "handshake"));
     ("from", JSON.VString me);
     ("nickname", JSON.VString nickname);
     ("timestamp", JSON.VNumber timestamp)]%string in
  sendToPeer peerId (Text (JSON.stringify handshake));;
  mret ().

(** [peerId.slice(-4)] *)
Definition slice_last4 (s : jsstring) : jsstring := drop (length s - 4) s.

(** [onPeerConnected(peerId)]: an empty name and a zero [rssi] are falsy. *)
Definition onPeerConnected (peerId : jsstring) : M unit :=
  let! discoveredPeer := this (λ s, discoveredPeers s !! peerId) in
  let! t := Date_now in
  let name :=
    match disc_name <$> discoveredPeer with
    | Some (c :: n) => c :: n
    | _ => js "Peer-" ++ slice_last4 peerId
    end in
  let rssi :=
    match disc_rssi <$> discoveredPeer with
    | Some r => if decide (r = 0%Z) then (-50)%Z else r
    | None => (-50)%Z
    end in
  let peer := mkPeer peerId name true t rssi t in
  update (λ s, set_peers (JsMap.set peerId peer (peers s)) s);;
  notify has_onPeerConnected (call_onPeerConnected peerId name);;
  sendHandshake peerId.

(** [onPeerDisconnected(peerId)] *)
Definition onPeerDisconnected (peerId : jsstring) : M unit :=
  update (λ s, set_peers (JsMap.delete peerId (peers s)) s);;
  update (λ s, set_connections (delete peerId (connections s)) s);;
  update (λ s, set_dataChannels (delete peerId (dataChannels s)) s);;
  notify has_onPeerDisconnected (call_onPeerDisconnected peerId).

(** [setupConnectionHandlers(connection, peerId)] *)
Definition setupConnectionHandlers (connection : nat) (peerId : jsstring) : M unit :=
  alter_connection (λ o, mkPeerConnection (pc_connectionState o)
                           (pc_localDescription o) (pc_remoteDescription o)
                           (pc_candidates o) (Some peerId)) connection.

(** [setupDataChannel(dataChannel, peerId)] *)
Definition setupDataChannel (dataChannel : nat) (peerId : jsstring) : M unit :=
  alter_channel (λ c, mkDataChannel (dc_label c) (dc_connection c)
                        (dc_readyState c) (dc_sent c) (dc_refuses c)
                        (Some peerId)) dataChannel.

(** [initiateConnectionToPeer(peerId)], up to its first [await].
    [refuses] is the behaviour of the channel that [createDataChannel]
    returns. *)
Definition initiateConnectionToPeer (refuses : ChannelData → bool)
    (peerId : jsstring) : M unit :=
  let! existing := this (λ s, connections s !! peerId) in
  match existing with
  | Some _ => mret ()
  | None =>
      try_catch
        (let! connection := new_RTCPeerConnection in
         update (λ s, set_connections (<[peerId := connection]> (connections s)) s);;
         setupConnectionHandlers connection peerId;;
         let! dataChannel := new_DataChannel connection (js "bitchat") refuses in
         setupDataChannel dataChannel peerId;;
         suspend (await_offer connection peerId))
        (λ error,
           update (λ s, set_connections (delete peerId (connections s)) s))
  end.

(** The rest of [initiateConnectionToPeer]: [offer] is the description that
    [createOffer] and [setLocalDescription] settled on, [None] when one of
    them rejected. *)
Definition initiateConnectionToPeer_resume (connection : nat)
    (peerId : jsstring) (offer : option SessionDescription) : M unit :=
  match offer with
  | Some offer =>
      alter_connection (λ o, mkPeerConnection (pc_connectionState o)
                               (Some offer) (pc_remoteDescription o)
                               (pc_candidates o) (pc_handlers o)) connection;;
      let! me := getMyId in
      sendSignalingMessage (msg_offer None me peerId offer)
  | None =>
      update (λ s, set_connections (delete peerId (connections s)) s)
  end.

(** [connectToPeer(peerId)] *)
Definition connectToPeer (refuses : ChannelData → bool) (peerId : jsstring) : M unit :=
  initiateConnectionToPeer refuses peerId.

(** [handleIncomingOffer(peerId, offer)], up to its first [await]. *)
Definition handleIncomingOffer (peerId : jsstring) (offer : SessionDescription) : M unit :=
  try_catch
    (let! connection := new_RTCPeerConnection in
     update (λ s, set_connections (<[peerId := connection]> (connections s)) s);;
     setupConnectionHandlers connection peerId;;
     suspend (await_answer_incoming connection peerId offer))
    (λ error,
       update (λ s, set_connections (delete peerId (connections s)) s)).

(** The rest of [handleIncomingOffer] and of the [offer] case of
    [handleWebRTCSignaling]: [answer] is the description that
    [setRemoteDescription], [createAnswer] and [setLocalDescription]
    settled on.  Only [handleIncomingOffer] forgets the connection when one
    of them rejected. *)
Definition answer_resume (incoming : bool) (connection : nat)
    (peerId : jsstring) (offer : SessionDescription)
    (answer : option SessionDescription) : M unit :=
  match answer with
  | Some answer =>
      alter_connection (λ o, mkPeerConnection (pc_connectionState o)
                               (Some answer) (Some offer)
                               (pc_candidates o) (pc_handlers o)) connection;;
      let! me := getMyId in
      sendSignalingMessage (msg_answer None me peerId answer)
  | None =>
      if incoming then
        update (λ s, set_connections (delete peerId (connections s)) s)
      else mret ()
  end.

(** [handleWebRTCSignaling(peerId, message)], up to its first [await].  A
    rejected [setRemoteDescription] or [addIceCandidate] is only logged. *)
Definition handleWebRTCSignaling (peerId : jsstring) (message : SignalingMessage) : M unit :=
  let! connection := this (λ s, connections s !! peerId) in
  match connection with
  | None =>
      match message with
      | msg_offer _ _ _ data => handleIncomingOffer peerId data
      | _ => mret ()
      end
  | Some connection =>
      match message with
      | msg_offer _ _ _ data => suspend (await_answer connection peerId data)
      | msg_answer _ _ _ data =>
          alter_connection (λ o, mkPeerConnection (pc_connectionState o)
                                   (pc_localDescription o) (Some data)
                                   (pc_candidates o) (pc_handlers o))
            connection
      | msg_ice_candidate _ _ _ data =>
          alter_connection (λ o, mkPeerConnection (pc_connectionState o)
                                   (pc_localDescription o)
                                   (pc_remoteDescription o)
                                   (pc_candidates o ++ [data])
                                   (pc_handlers o))
            connection
      | _ => mret ()
      end
  end.

(** [handleSignalingMessage(message)]; [refuses] as in
    [initiateConnectionToPeer]. *)
Definition handleSignalingMessage (refuses : ChannelData → bool)
    (message : SignalingMessage) : M unit :=
  match message with
  | msg_room_joined _ ids =>
      forEach ids (λ id,
        let! me := getMyId in
        if decide (id ≠ me) then initiateConnectionToPeer refuses id
        else mret ())
  | msg_peer_joined peerId _ =>
      let! me := getMyId in
      if decide (peerId ≠ me) then initiateConnectionToPeer refuses peerId
      else mret ()
  | msg_peer_left peerId _ => onPeerDisconnected peerId
  | msg_offer _ peerId _ _
  | msg_answer _ peerId _ _
  | msg_ice_candidate _ peerId _ _ => handleWebRTCSignaling peerId message
  | _ => mret ()
  end.

(** [simulatePeerDiscovery()] and its two callbacks. *)
Definition simulatedPeers : list (jsstring * jsstring * Z) :=
  [(js "peer-001", js "Alice", (-45)%Z);
   (js "peer-002", js "Bob", (-67)%Z);
   (js "peer-003", js "Carol", (-89)%Z)].

Definition simulatePeerDiscovery : M unit :=
  forEach (seq 0 (length simulatedPeers)) (λ index,
    setTimeout (cb_discovered index) (N.of_nat index * 1000);; mret ()).

Definition simulated_discovered (index : nat) : M unit :=
  match simulatedPeers !! index with
  | Some (id, name, rssi) =>
      let! t := Date_now in
      update (λ s, set_discoveredPeers
                     (<[id := mkDiscoveredPeer id name rssi t false]>
                        (discoveredPeers s)) s);;
      notify has_onPeerDiscovered (call_onPeerDiscovered id name rssi);;
      let! r := random_below 1000 in
      setTimeout (cb_autoConnect id) (500 + r);;
      mret ()
  | None => mret ()
  end.

(** [startPeerDiscovery()] and the body of its interval. *)
Definition startPeerDiscovery : M unit :=
  setInterval cb_scan 10000;; mret ().

Definition scan_tick : M unit :=
  let! scanning := this isScanning in
  if scanning : bool then simulatePeerDiscovery else mret ().

(** [startScanning()]; the result is [None] for [undefined]. *)
Definition startScanning : M (option bool) :=
  let! scanning := this isScanning in
  if scanning : bool then mret None
  else
    update (set_isScanning true);;
    notify has_onScanningStarted call_onScanningStarted;;
    startPeerDiscovery;;
    mret (Some true).

(** [stopScanning()] *)
Definition stopScanning : M unit :=
  update (set_isScanning false);;
  notify has_onScanningStopped call_onScanningStopped.

(** [startAdvertising()] and [stopAdvertising()] *)
Definition startAdvertising : M (option bool) :=
  let! advertising := this isAdvertising in
  if advertising : bool then mret None
  else update (set_isAdvertising true);; mret (Some true).

Definition stopAdvertising : M unit := update (set_isAdvertising false).

(** [setDelegate(delegate)] *)
Definition setDelegate (d : DelegateMethod → bool) : M unit :=
  update (set_delegate (Some d)).

(** [getConnectedPeers()], [getPeerCount()], [isPeerConnected(peerId)] *)
Definition getConnectedPeers : M (list Peer) :=
  let! ps := this peers in mret (JsMap.values ps).

Definition getPeerCount : M nat := let! ps := this peers in mret (JsMap.size ps).

Definition isPeerConnected (peerId : jsstring) : M bool :=
  let! ps := this peers in mret (JsMap.has peerId ps).

(** [disconnectFromPeer(peerId)] *)
Definition disconnectFromPeer (peerId : jsstring) : M unit :=
  let! connection := this (λ s, connections s !! peerId) in
  match connection with
  | Some connection => pc_close connection
  | None => mret ()
  end;;
  onPeerDisconnected peerId.

(** [disconnectAll()] *)
Definition disconnectAll : M unit :=
  let! cs := this connections in
  forEach (map_to_list cs) (λ kv, pc_close kv.2);;
  update (set_peers []);;
  update (set_connections ∅);;
  update (set_dataChannels ∅).

(** [getConnectionStatus()] *)
Definition getConnectionStatus : M jsstring :=
  let! ps := this peers in
  let! scanning := this isScanning in
  if decide (JsMap.size ps = 0%nat) then mret (js "disconnected")
  else if scanning : bool then mret (js "connecting")
  else mret (js "connected").

(** The address of the relay. *)
Definition signaling_url : M jsstring :=
  let! host := read location_host in
  mret (js "ws://" ++ host ++ js "/signaling").

(** [setupSignaling()]; its four handlers follow. *)
Definition setupSignaling : M unit :=
  try_catch
    (let! wsUrl := signaling_url in
     let! ws := new_WebSocket wsUrl signaling in
     update (set_signalingWs (Some ws)))
    (λ error, setTimeout cb_simulatePeerDiscovery 2000;; mret ()).

Definition signaling_onopen : M unit := joinSignalingRoom.

Definition signaling_onmessage (refuses : ChannelData → bool)
    (message : SignalingMessage) : M unit :=
  try_catch (handleSignalingMessage refuses message) (λ error, mret ()).

Definition signaling_onclose : M unit :=
  setTimeout cb_simulatePeerDiscovery 1000;; mret ().

Definition signaling_onerror : M unit := mret ().

(** [initWithFallback()] after [checkSignalingConnectivity()] resolved. *)
Definition initWithFallback_resume (hasSignaling : bool) : M unit :=
  if hasSignaling then setupSignaling
  else setTimeout cb_simulatePeerDiscovery 2000;; mret ().

(** Settling the promise of [checkSignalingConnectivity()]: only the first
    [resolve] counts, and it resumes [initWithFallback]. *)
Definition resolve_probe (ws : nat) (value : bool) : M unit :=
  let! o := socket ws in
  match o with
  | Some (mkWebSocket _ _ _ (probe timeout false)) =>
      alter_socket (λ o, mkWebSocket (ws_url o) (ws_readyState o) (ws_sent o)
                           (probe timeout true)) ws;;
      initWithFallback_resume value
  | _ => mret ()
  end.

(** [checkSignalingConnectivity()], called by [initWithFallback()]. *)
Definition checkSignalingConnectivity : M unit :=
  let! wsUrl := signaling_url in
  let! allowed := read webSocketAllowed in
  if allowed : bool then
    let! n := read nextTimer in
    let! ws := new_WebSocket wsUrl (probe n false) in
    setTimeout (cb_probeTimeout ws) 3000;;
    mret ()
  else initWithFallback_resume false.

Definition initWithFallback : M unit := checkSignalingConnectivity.

Definition probe_timeout (ws : nat) : M unit :=
  ws_close ws;; resolve_probe ws false.

Definition probe_onopen (ws timeout : nat) : M unit :=
  clearTimeout timeout;; ws_close ws;; resolve_probe ws true.

Definition probe_onerror (ws timeout : nat) : M unit :=
  clearTimeout timeout;; resolve_probe ws false.

(** [init()]: the two set-up methods before [initWithFallback] only log. *)
Definition init : M unit := initWithFallback.

(** *** The event loop *)

(** What the browser reports to the service. *)
Inductive Event :=
| Elapse (ms : N)
| TimerFired (id : nat)
| SocketOpened (ws : nat)
| SocketFailed (ws : nat)
| SocketClosed (ws : nat)
| SocketMessage (ws : nat) (message : SignalingMessage)
| ConnectionStateChanged (pc : nat) (state : ConnectionState)
| IceCandidateFound (pc : nat) (candidate : jsstring)
| DataChannelReceived (pc : nat) (label : jsstring)
| ChannelOpened (dc : nat)
| ChannelClosed (dc : nat)
| Settled (k : nat) (result : option SessionDescription).

Definition run_callback (cb : Callback) : M unit :=
  match cb with
  | cb_simulatePeerDiscovery => simulatePeerDiscovery
  | cb_discovered index => simulated_discovered index
  | cb_autoConnect peerId => onPeerConnected peerId
  | cb_scan => scan_tick
  | cb_probeTimeout ws => probe_timeout ws
  end.

(** A timer that is due runs; a timeout is removed, an interval is set
    again. *)
Definition fire (id : nat) : M unit :=
  let! l := read timers in
  let! t := read now in
  match List.find (λ x, bool_decide (timer_id x = id)) l with
  | Some x =>
      if due x <=? t then
        let! n := read nextTimer in
        write (set_timers
                 (match interval x with
                  | Some d =>
                      (λ y, if decide (timer_id y = id)
                            then mkTimer id (t + d) (callback y) (interval y)
                            else y) <$> l
                  | None =>
                      List.filter (λ y, negb (bool_decide (timer_id y = id))) l
                  end) n);;
        run_callback (callback x)
      else mret ()
  | None => mret ()
  end.

(** [connection.onconnectionstatechange] *)
Definition onconnectionstatechange (peerId : jsstring) (state : ConnectionState) : M unit :=
  match state with
  | cs_connected => onPeerConnected peerId
  | cs_disconnected | cs_failed => onPeerDisconnected peerId
  | _ => mret ()
  end.

(** [connection.onicecandidate] *)
Definition onicecandidate (peerId candidate : jsstring) : M unit :=
  let! me := getMyId in
  sendSignalingMessage (msg_ice_candidate None me peerId candidate).

(** [dataChannel.onopen] and [dataChannel.onclose] *)
Definition channel_onopen (dataChannel : nat) (peerId : jsstring) : M unit :=
  update (λ s, set_dataChannels (<[peerId := dataChannel]> (dataChannels s)) s).

Definition channel_onclose (peerId : jsstring) : M unit :=
  update (λ s, set_dataChannels (delete peerId (dataChannels s)) s).

(** The handler of one event.  [refuses] is the behaviour of the channels
    created while handling it. *)
Definition handle (refuses : ChannelData → bool) (ev : Event) : M unit :=
  match ev with
  | Elapse ms => write (λ w, set_now (now w + ms) w)
  | TimerFired id => fire id
  | SocketOpened ws =>
      let! o := socket ws in
      match o with
      | Some o =>
          alter_socket (λ o, mkWebSocket (ws_url o) OPEN (ws_sent o) (ws_use o)) ws;;
          match ws_use o with
          | probe timeout _ => probe_onopen ws timeout
          | signaling => signaling_onopen
          end
      | None => mret ()
      end
  | SocketFailed ws =>
      let! o := socket ws in
      match ws_use <$> o with
      | Some (probe timeout _) => probe_onerror ws timeout
      | Some signaling => signaling_onerror
      | None => mret ()
      end
  | SocketClosed ws =>
      let! o := socket ws in
      match o with
      | Some o =>
          alter_socket (λ o, mkWebSocket (ws_url o) CLOSED (ws_sent o) (ws_use o)) ws;;
          match ws_use o with
          | probe _ _ => mret ()
          | signaling => signaling_onclose
          end
      | None => mret ()
      end
  | SocketMessage ws message =>
      let! o := socket ws in
      match ws_use <$> o with
      | Some signaling => signaling_onmessage refuses message
      | _ => mret ()
      end
  | ConnectionStateChanged pc state =>
      let! o := read (λ w, connectionObjects w !! pc) in
      match o with
      | Some o =>
          alter_connection (λ o, mkPeerConnection state (pc_localDescription o)
                                   (pc_remoteDescription o) (pc_candidates o)
                                   (pc_handlers o)) pc;;
          match pc_handlers o with
          | Some peerId => onconnectionstatechange peerId state
          | None => mret ()
          end
      | None => mret ()
      end
  | IceCandidateFound pc candidate =>
      let! o := read (λ w, connectionObjects w !! pc) in
      match o ≫= pc_handlers with
      | Some peerId => onicecandidate peerId candidate
      | None => mret ()
      end
  | DataChannelReceived pc label =>
      let! o := read (λ w, connectionObjects w !! pc) in
      match o ≫= pc_handlers with
      | Some peerId =>
          let! dataChannel := new_DataChannel pc label refuses in
          setupDataChannel dataChannel peerId
      | None => mret ()
      end
  | ChannelOpened dc =>
      let! o := channel dc in
      match o with
      | Some c =>
          alter_channel (λ c, mkDataChannel (dc_label c) (dc_connection c) OPEN
                                (dc_sent c) (dc_refuses c) (dc_handlers c)) dc;;
          match dc_handlers c with
          | Some peerId => channel_onopen dc peerId
          | None => mret ()
          end
      | None => mret ()
      end
  | ChannelClosed dc =>
      let! o := channel dc in
      match o with
      | Some c =>
          alter_channel (λ c, mkDataChannel (dc_label c) (dc_connection c)
                                CLOSED (dc_sent c) (dc_refuses c)
                                (dc_handlers c)) dc;;
          match dc_handlers c with
          | Some peerId => channel_onclose peerId
          | None => mret ()
          end
      | None => mret ()
      end
  | Settled k result =>
      let! l := read suspended in
      match l !! k with
      | Some (Some task) =>
          write (λ w, set_suspended (<[k := None]> (suspended w)) w);;
          match task with
          | await_offer pc peerId =>
              initiateConnectionToPeer_resume pc peerId result
          | await_answer_incoming pc peerId offer =>
              answer_resume true pc peerId offer result
          | await_answer pc peerId offer =>
              answer_resume false pc peerId offer result
          end
      | _ => mret ()
      end
  end.

(** One turn of the event loop: what a handler throws is reported on the
    console and the state it left stays. *)
Definition step (refuses : ChannelData → bool) (ev : Event)
    (s : Window * t) : Window * t :=
  (handle refuses ev s).2.

Definition run (refuses : ChannelData → bool) (evs : list Event)
    (s : Window * t) : Window * t :=
  foldl (λ s ev, step refuses ev s) s evs.

End BluetoothService.

(** ** Cryptography: class CryptoService (js/crypto.js) *)

(** AES-GCM as [crypto.subtle] offers it, for the keys the service derives
    (256 bits, usages [encrypt] and [decrypt]).  [subtle_decrypt] is [None]
    when the authentication of the ciphertext fails. *)
Class AesGcm := {
  CryptoKey : Type;
  subtle_encrypt : CryptoKey → bytes → bytes → bytes;
  subtle_decrypt : CryptoKey → bytes → bytes → option bytes
}.


Module CryptoService.
Import Window.
Section CryptoService.
Context `{AesGcm}.

(** The table of session keys; the ECDH and ECDSA key pairs of the service
    take no part in what follows. *)
Record t := mk {
  sessionKeys : gmap jsstring CryptoKey
}.

Abbreviation M := (Js (Window * t)).



(** [generateRandomBytes(length)] *)
Definition generateRandomBytes (length : nat) : M bytes :=
  getRandomValues length.

(** [b.toString(16)] for an octet and [s.padStart(targetLength, pad)]. *)
Definition toString16 (b : N) : jsstring :=
  (if b <? 16 then [] else [JSON.hex_digit (b / 16)]) ++
  [JSON.hex_digit (b mod 16)].

Definition padStart (targetLength : nat) (pad : N) (s : jsstring) : jsstring :=
  replicate (targetLength - length s) pad ++ s.

(** [generateMessageId()] *)
Definition generateMessageId : M jsstring :=
  let! randomBytes := generateRandomBytes 16 in
  mret (flat_map (λ b, padStart 2 48 (toString16 b)) randomBytes).

(** [generateSalt()] *)
Definition generateSalt : M bytes := generateRandomBytes 32.

(** [storeSessionKey(peerId, key)] and [getSessionKey(peerId)] *)
Definition storeSessionKey (peerId : jsstring) (key : CryptoKey) : M unit :=
  update (λ s, mk (<[peerId := key]> (sessionKeys s))).

Definition getSessionKey (peerId : jsstring) : M (option CryptoKey) :=
  this (λ s, sessionKeys s !! peerId).

(** [toBase64(data)]: [String.fromCharCode(...data)] passes every octet
    as one argument of the call, which throws a [RangeError] when the array
    has more elements than the engine takes as arguments, [max_arguments];
    otherwise it is the string whose code units are the octets. *)
Definition RangeError : Exn := Error (js "RangeError").

Definition toBase64 (max_arguments : nat) (data : bytes) : Completion jsstring :=
  if decide (length data ≤ max_arguments)%nat
  then Base64.btoa ((λ b, b mod 65536) <$> data)
  else Throw RangeError.

(** [fromBase64(base64)]: the octet at [i] is [binary.charCodeAt(i)]. *)
Definition fromBase64 (base64 : jsstring) : Completion bytes :=
  match Base64.atob base64 with
  | Normal binary => Normal ((λ c, c mod 256) <$> binary)
  | Throw e => Throw e
  end.

End CryptoService.
End CryptoService.

(** ** Tabs of one browser: class CrossTabService (js/cross-tab.js) *)

Module CrossTabService.

(** An entry of the table stored under [bitchat-tabs]. *)
Record TabInfo := mkTabInfo {
  id : jsstring;
  created : N;
  lastSeen : N;
  nickname : jsstring
}.

(** The table itself, a JSON object keyed by tab id.  [getActiveTabs]
    parses it from the storage on every call; the model keeps the parsed
    object. *)
Abbreviation Tabs := (gmap jsstring TabInfo).

Inductive Notification :=
| onBecameLeader
| onLostLeader.

Record t := mk {
  myTabId : jsstring;
  isLeader : bool
}.

(** [Object.keys(tabs)] *)
Definition Object_keys (tabs : Tabs) : list jsstring :=
  (map_to_list tabs).*1.

(** [registerTab()] and [unregisterTab()], on the table. *)
Definition registerTab (time : N) (nick : jsstring) (s : t) (tabs : Tabs) : Tabs :=
  <[myTabId s := mkTabInfo (myTabId s) time time nick]> tabs.

Definition unregisterTab (s : t) (tabs : Tabs) : Tabs :=
  delete (myTabId s) tabs.

(** [electLeader()]: the service afterwards and the notifications sent to
    the delegates. *)
Definition electLeader (tabs : Tabs) (s : t) : t * list Notification :=
  let tabIds := Array_sort (Object_keys tabs) in
  let wasLeader := isLeader s in
  let leader :=
    match tabIds with
    | [] => false
    | first :: _ => bool_decide (first = myTabId s)
    end in
  let s' := mk (myTabId s) leader in
  if leader && negb wasLeader then (s', [onBecameLeader])
  else if negb leader && wasLeader then (s', [onLostLeader])
  else (s', []).

(** [cleanupDeadTabs()]: entries not seen for more than 30 seconds go, and
    the leader is elected again when one went. *)
Definition cleanupDeadTabs (time : N) (tabs : Tabs) (s : t) :
    Tabs * (t * list Notification) :=
  let dead := filter (λ kv, 30000 < time - lastSeen kv.2) tabs in
  let alive := filter (λ kv, ¬ (30000 < time - lastSeen kv.2)) tabs in
  if decide (size dead = 0%nat) then (tabs, (s, []))
  else (alive, electLeader alive s).

(** [updateHeartbeat()], on the table. *)
Definition updateHeartbeat (time : N) (s : t) (tabs : Tabs) : Tabs :=
  match tabs !! myTabId s with
  | Some info =>
      <[myTabId s := mkTabInfo (id info) (created info) time (nickname info)]>
        tabs
  | None => tabs
  end.

(** The body of the interval that [init] sets: the heartbeat, then the
    cleanup; [time] and [time'] are what [Date.now()] returns in them. *)
Definition heartbeat (time time' : N) (tabs : Tabs) (s : t) :
    Tabs * (t * list Notification) :=
  cleanupDeadTabs time' (updateHeartbeat time s tabs) s.

(** [getTabCount()] and [isMultiTab()] *)
Definition getTabCount (tabs : Tabs) : nat := length (Object_keys tabs).

Definition isMultiTab (tabs : Tabs) : bool :=
  bool_decide (1 < getTabCount tabs)%nat.

(** The class has no method [sendMessage] and none called [setDelegate]:
    calling one on the service is a [TypeError]. *)
Definition not_a_function {S A} (method : string) : Js S A :=
  throw (TypeError (js "this.crossTabService." ++ js method ++
                    js " is not a function")).

End CrossTabService.

(** ** The signaling relay (the WebSocket server) *)

Module Relay.

(** A connection as the server sees it: the fields [roomId] and [peerId]
    that [joinRoom] sets on the socket, and what was sent on it. *)
Record Client := mkClient {
  readyState : ReadyState;
  roomId : option jsstring;
  peerId : option jsstring;
  outbox : list SignalingMessage
}.

(** [rooms] maps a room id to the set of its sockets, in insertion
    order. *)
Record t := mk {
  clients : list Client;
  rooms : JsMap.t (list nat)
}.

Definition send (ws : nat) (m : SignalingMessage) (s : t) : t :=
  mk (alter (λ c, mkClient (readyState c) (roomId c) (peerId c)
                    (outbox c ++ [m])) ws (clients s))
     (rooms s).

Definition is_open (s : t) (ws : nat) : bool :=
  match clients s !! ws with
  | Some c => bool_decide (readyState c = OPEN)
  | None => false
  end.

(** [set.add(ws)] *)
Definition Set_add (ws : nat) (room : list nat) : list nat :=
  if decide (ws ∈ room) then room else room ++ [ws].

(** A non-empty [peerId] of a socket. *)
Definition truthy_peerId (s : t) (ws : nat) : option jsstring :=
  match clients s !! ws ≫= peerId with
  | Some (c :: p) => Some (c :: p)
  | _ => None
  end.

(** [joinRoom(ws, roomId, peerId)] *)
Definition joinRoom (ws : nat) (room_id peer_id : jsstring) (s : t) : t :=
  let s := if JsMap.has room_id (rooms s) then s
           else mk (clients s) (JsMap.set room_id [] (rooms s)) in
  let room := default [] (JsMap.get room_id (rooms s)) in
  let s := foldl (λ s client,
                    if negb (bool_decide (client = ws)) && is_open s client
                    then send client (msg_peer_joined peer_id room_id) s
                    else s) s room in
  let room := Set_add ws room in
  let s := mk (alter (λ c, mkClient (readyState c) (Some room_id)
                             (Some peer_id) (outbox c)) ws (clients s))
              (JsMap.set room_id room (rooms s)) in
  let peerIds :=
    omap (truthy_peerId s)
      (List.filter (λ client, negb (bool_decide (client = ws))) room) in
  send ws (msg_room_joined room_id peerIds) s.

(** [leaveRoom(ws, roomId)] *)
Definition leaveRoom (ws : nat) (room_id : jsstring) (s : t) : t :=
  match JsMap.get room_id (rooms s) with
  | Some room =>
      let room := List.filter (λ client, negb (bool_decide (client = ws))) room in
      let left := default [] (clients s !! ws ≫= peerId) in
      let s := mk (clients s) (JsMap.set room_id room (rooms s)) in
      let s := foldl (λ s client,
                        if is_open s client
                        then send client (msg_peer_left left room_id) s
                        else s) s room in
      if decide (room = []) then mk (clients s) (JsMap.delete room_id (rooms s))
      else s
  | None => s
  end.

(** [relayMessage(ws, roomId, message)]; [roomId] is the field of the
    envelope, absent when the sender left it out.  The joins of this model
    carry a room id, so that the table keeps no room under [undefined]. *)
Definition relayMessage (ws : nat) (room_id : option jsstring)
    (message : SignalingMessage) (s : t) : t :=
  match room_id ≫= λ r, JsMap.get r (rooms s) with
  | Some room =>
      foldl (λ s client,
               if negb (bool_decide (client = ws)) && is_open s client
               then send client message s
               else s) s room
  | None => s
  end.

(** [handleSignalingMessage(ws, message)] *)
Definition handleSignalingMessage (ws : nat) (message : SignalingMessage) (s : t) : t :=
  match message with
  | msg_join room_id peer_id => joinRoom ws room_id peer_id s
  | msg_leave room_id => leaveRoom ws room_id s
  | msg_offer room_id _ _ _
  | msg_answer room_id _ _ _
  | msg_ice_candidate room_id _ _ _ => relayMessage ws room_id message s
  | _ => s
  end.

(** A new connection, and the handler of [close]. *)
Definition connection (s : t) : nat * t :=
  (length (clients s), mk (clients s ++ [mkClient OPEN None None []]) (rooms s)).

Definition on_close (ws : nat) (s : t) : t :=
  mk (alter (λ c, mkClient CLOSED (roomId c) (peerId c) (outbox c)) ws
        (clients s))
     (List.filter (λ kv, negb (bool_decide (kv.2 = [])))
        ((λ kv, (kv.1, List.filter (λ client, negb (bool_decide (client = ws)))
                         kv.2)) <$> rooms s)).

(** What the server is told: a new connection, a message that parses on
    a connection that is open, and the close of a connection. *)
Inductive Event :=
| Connected
| Message (ws : nat) (message : SignalingMessage)
| Closed (ws : nat).

Definition handle (ev : Event) (s : t) : t :=
  match ev with
  | Connected => (connection s).2
  | Message ws message =>
      if is_open s ws then handleSignalingMessage ws message s else s
  | Closed ws => on_close ws s
  end.

Definition run (evs : list Event) (s : t) : t :=
  foldl (λ s ev, handle ev s) s evs.

(** The server when it starts listening. *)
Definition started : t := mk [] [].

End Relay.

(** ** The chat logic: class ChatService *)

Module ChatService.
Import Window.
Section ChatService.
Context `{AesGcm}.

Record Channel := mkChannel {
  channel_name : jsstring;
  users : list jsstring;
  hasPassword : bool;
  owner : jsstring;
  channel_created : N;
  messageRetention : bool
}.

(** The calls made on the delegate (the user interface). *)
Inductive DelegateCall :=
| onMessageAdded (channel : jsstring) (message : JSON.Object)
| onPrivateMessageAdded (peer : jsstring) (message : JSON.Object)
| onMessagesCleared (channel : jsstring).

Record t := mk {
  bluetoothService : BluetoothService.t;
  cryptoService : CryptoService.t;
  crossTabService : CrossTabService.t;
  channels : gmap jsstring Channel;
  currentChannel : jsstring;
  messages : gmap jsstring (list JSON.Object);
  privateMessages : gmap jsstring (list JSON.Object);
  blockedPeers : list jsstring;
  channelPasswords : gmap jsstring jsstring;
  myNickname : jsstring;
  delegate : bool;
  delegated : list DelegateCall
}.

Definition set_bluetoothService v (s : t) : t :=
  mk v (cryptoService s) (crossTabService s) (channels s) (currentChannel s)
    (messages s) (privateMessages s) (blockedPeers s) (channelPasswords s)
    (myNickname s) (delegate s) (delegated s).
Definition set_cryptoService v (s : t) : t :=
  mk (bluetoothService s) v (crossTabService s) (channels s) (currentChannel s)
    (messages s) (privateMessages s) (blockedPeers s) (channelPasswords s)
    (myNickname s) (delegate s) (delegated s).
Definition set_messages v (s : t) : t :=
  mk (bluetoothService s) (cryptoService s) (crossTabService s) (channels s)
    (currentChannel s) v (privateMessages s) (blockedPeers s)
    (channelPasswords s) (myNickname s) (delegate s) (delegated s).
Definition set_privateMessages v (s : t) : t :=
  mk (bluetoothService s) (cryptoService s) (crossTabService s) (channels s)
    (currentChannel s) (messages s) v (blockedPeers s)
    (channelPasswords s) (myNickname s) (delegate s) (delegated s).
Definition set_delegated v (s : t) : t :=
  mk (bluetoothService s) (cryptoService s) (crossTabService s) (channels s)
    (currentChannel s) (messages s) (privateMessages s) (blockedPeers s)
    (channelPasswords s) (myNickname s) (delegate s) v.

Abbreviation M := (Js (Window * t)).

(** A method of [this.bluetoothService] and of [this.cryptoService]. *)
Definition bluetooth {A} (m : BluetoothService.M A) : M A :=
  λ s, let '(r, (w, b)) := m (s.1, bluetoothService s.2) in
       (r, (w, set_bluetoothService b s.2)).

Definition crypto {A} (m : Js (Window * CryptoService.t) A) : M A :=
  λ s, let '(r, (w, c)) := m (s.1, cryptoService s.2) in
       (r, (w, set_cryptoService c s.2)).

(** The delegate sets every method when it is there. *)
Definition notify (call : DelegateCall) : M unit :=
  let! d := this delegate in
  if d : bool then update (λ s, set_delegated (delegated s ++ [call]) s)
  else mret ().

(** [array.splice(0, count)] *)
Definition splice0 {A} (count : nat) (l : list A) : list A := drop count l.

(** [addMessage(channel, message)] *)
Definition addMessage (channel : jsstring) (message : JSON.Object) : M unit :=
  let! known := this (λ s, bool_decide (is_Some (messages s !! channel))) in
  (if known : bool then mret ()
   else update (λ s, set_messages (<[channel := []]> (messages s)) s));;
  update (λ s, set_messages
                 (alter (λ l, l ++ [message]) channel (messages s)) s);;
  let! channelMessages := this (λ s, default [] (messages s !! channel)) in
  (if decide (1000 < length channelMessages)%nat then
     update (λ s, set_messages
                    (alter (splice0 (length channelMessages - 1000)) channel
                       (messages s)) s)
   else mret ());;
  notify (onMessageAdded channel message).

(** [addSystemMessage(channel, content)] *)
Definition addSystemMessage (channel content : jsstring) : M unit :=
  let! messageId := crypto CryptoService.generateMessageId in
  let! time := Date_now in
  addMessage channel
    [("id", JSON.VString messageId);
     ("type", JSON.VString (js "system"));
     ("content", JSON.VString content);
     ("timestamp", JSON.VDate time);
     ("channel", JSON.VString channel)]%string.

(** [addPrivateMessage(peer, message)] *)
Definition addPrivateMessage (peer : jsstring) (message : JSON.Object) : M unit :=
  let! known := this (λ s, bool_decide (is_Some (privateMessages s !! peer))) in
  (if known : bool then mret ()
   else update (λ s, set_privateMessages (<[peer := []]> (privateMessages s)) s));;
  update (λ s, set_privateMessages
                 (alter (λ l, l ++ [message]) peer (privateMessages s)) s);;
  notify (onPrivateMessageAdded peer message).

(** [clearMessages(channel)] and [getMessages(channel)] *)
Definition clearMessages (channel : jsstring) : M unit :=
  update (λ s, set_messages (<[channel := []]> (messages s)) s);;
  notify (onMessagesCleared channel).

Definition getMessages (channel : jsstring) : M (list JSON.Object) :=
  this (λ s, default [] (messages s !! channel)).

(** The envelope that [sendChannelMessage] builds. *)
Definition chat_envelope (messageId channel from content : jsstring)
    (time : N) : JSON.Object :=
  [("id", JSON.VString messageId);
   ("type", JSON.VString (js "chat"));
   ("channel", JSON.VString channel);
   ("from", JSON.VString from);
   ("content", JSON.VString content);
   ("timestamp", JSON.VString (JSON.toISOString time))]%string.

(** The envelope that [sendPrivateMessage] builds. *)
Definition private_envelope (messageId from to content : jsstring)
    (time : N) : JSON.Object :=
  [("id", JSON.VString messageId);
   ("type", JSON.VString (js "private"));
   ("from", JSON.VString from);
   ("to", JSON.VString to);
   ("content", JSON.VString content);
   ("timestamp", JSON.VString (JSON.toISOString time))]%string.

(** [{ ...message, timestamp: timestamp, own: true }] *)
Definition local_copy (message : JSON.Object) (time : N) : JSON.Object :=
  JSON.set_property "own" (JSON.VBoolean true)
    (JSON.set_property "timestamp" (JSON.VDate time) message).

(** [sendChannelMessage(channel, content)] *)
Definition sendChannelMessage (channel content : jsstring) : M bool :=
  try_catch
    (let! messageId := crypto CryptoService.generateMessageId in
     let! timestamp := Date_now in
     let! from := this myNickname in
     let message := chat_envelope messageId channel from content timestamp in
     let localMessage := local_copy message timestamp in
     addMessage channel localMessage;;
     (CrossTabService.not_a_function "sendMessage" : M unit);;
     let messageJson := JSON.stringify message in
     let! sentCount :=
       bluetooth (BluetoothService.broadcastMessage (Text messageJson)) in
     mret true)
    (λ error, mret false).

(** [sendPrivateMessage(targetNickname, content)] *)
Definition sendPrivateMessage (targetNickname content : jsstring) : M bool :=
  try_catch
    (let! messageId := crypto CryptoService.generateMessageId in
     let! timestamp := Date_now in
     let! from := this myNickname in
     let message :=
       private_envelope messageId from targetNickname content timestamp in
     addPrivateMessage targetNickname (local_copy message timestamp);;
     let! peers := bluetooth BluetoothService.getConnectedPeers in
     let targetPeer :=
       List.find (λ p, bool_decide (BluetoothService.peer_name p = targetNickname))
         peers in
     match targetPeer with
     | Some targetPeer =>
         let messageJson := JSON.stringify message in
         let! sent :=
           bluetooth (BluetoothService.sendToPeer
                        (BluetoothService.peer_id targetPeer)
                        (Text messageJson)) in
         if sent : bool then mret true
         else throw (Error (js "Failed to send to peer"))
     | None => throw (Error (js "Peer not found"))
     end)
    (λ error,
       let! current := this currentChannel in
       addSystemMessage current
         (js "Impossible d'envoyer le message privé à " ++ targetNickname ++
          js ": " ++ Exn_message error);;
       mret false).

End ChatService.
End ChatService.

(** ** The commands of the chat: class ChatService, continued *)

Module ChatCommands.
Import Window ChatService.
Section ChatCommands.
Context `{AesGcm}.

(** The calls on the delegate that come with the nickname and the
    channels. *)
Inductive Announcement :=
| onNicknameChanged (nickname : jsstring)
| onChannelChanged (channel : jsstring)
| onPasswordRequired (channelName : jsstring).

(** The service together with the record of these calls, oldest first. *)
Record t := mk {
  service : ChatService.t;
  announced : list Announcement
}.

Abbreviation M := (Js (Window * t)).

(** A method of the service defined above. *)
Definition chat {A} (m : Js (Window * ChatService.t) A) : M A :=
  λ s, let '(r, (w, c)) := m (s.1, service s.2) in
       (r, (w, mk c (announced s.2))).

Definition field {A} (f : ChatService.t → A) : M A :=
  this (λ s, f (service s)).

Definition assign (f : ChatService.t → ChatService.t) : M unit :=
  update (λ s, mk (f (service s)) (announced s)).

(** [if (this.delegate && this.delegate.method) this.delegate.method(...)];
    the delegate that the user interface sets has the three methods. *)
Definition announce (call : Announcement) : M unit :=
  let! d := field delegate in
  if d : bool then update (λ s, mk (service s) (announced s ++ [call]))
  else mret ().

Definition set_channels v (s : ChatService.t) : ChatService.t :=
  ChatService.mk (bluetoothService s) (cryptoService s) (crossTabService s) v
    (currentChannel s) (messages s) (privateMessages s) (blockedPeers s)
    (channelPasswords s) (myNickname s) (delegate s) (delegated s).
Definition set_currentChannel v (s : ChatService.t) : ChatService.t :=
  ChatService.mk (bluetoothService s) (cryptoService s) (crossTabService s)
    (channels s) v (messages s) (privateMessages s) (blockedPeers s)
    (channelPasswords s) (myNickname s) (delegate s) (delegated s).
Definition set_blockedPeers v (s : ChatService.t) : ChatService.t :=
  ChatService.mk (bluetoothService s) (cryptoService s) (crossTabService s)
    (channels s) (currentChannel s) (messages s) (privateMessages s) v
    (channelPasswords s) (myNickname s) (delegate s) (delegated s).
Definition set_channelPasswords v (s : ChatService.t) : ChatService.t :=
  ChatService.mk (bluetoothService s) (cryptoService s) (crossTabService s)
    (channels s) (currentChannel s) (messages s) (privateMessages s)
    (blockedPeers s) v (myNickname s) (delegate s) (delegated s).
Definition set_myNickname v (s : ChatService.t) : ChatService.t :=
  ChatService.mk (bluetoothService s) (cryptoService s) (crossTabService s)
    (channels s) (currentChannel s) (messages s) (privateMessages s)
    (blockedPeers s) (channelPasswords s) v (delegate s) (delegated s).

(** [set.add(x)], [set.delete(x)] and [set.has(x)] on a [Set] of strings
    in insertion order. *)
Definition Set_add (x : jsstring) (l : list jsstring) : list jsstring :=
  if decide (x ∈ l) then l else l ++ [x].

Definition Set_delete (x : jsstring) (l : list jsstring) : list jsstring :=
  List.filter (λ y, negb (bool_decide (y = x))) l.

Definition Set_has (x : jsstring) (l : list jsstring) : bool :=
  bool_decide (x ∈ l).

Definition with_users (users : list jsstring) (c : Channel) : Channel :=
  mkChannel (channel_name c) users (ChatService.hasPassword c) (owner c)
    (channel_created c) (messageRetention c).

Definition with_hasPassword (b : bool) (c : Channel) : Channel :=
  mkChannel (channel_name c) (users c) b (owner c) (channel_created c)
    (messageRetention c).

Definition general : jsstring := js "#général".

(** [this.addSystemMessage(this.currentChannel, content)] *)
Definition addNotice (content : jsstring) : M unit :=
  let! current := field currentChannel in
  chat (addSystemMessage current content).

(** [target.startsWith(prefix) ? target.substring(1) : target] and
    [name.startsWith(prefix) ? name : prefix + name], for a prefix of one
    code unit. *)
Definition without_prefix (prefix : N) (target : jsstring) : jsstring :=
  match target with
  | c :: rest => if c =? prefix then rest else target
  | [] => target
  end.

Definition with_prefix (prefix : N) (name : jsstring) : jsstring :=
  match name with
  | c :: _ => if c =? prefix then name else prefix :: name
  | [] => [prefix]
  end.



(** [cmdBlock(args)] and [cmdUnblock(args)] *)
Definition cmdBlock (args : list jsstring) : M bool :=
  match args with
  | [] =>
      let! blocked := field blockedPeers in
      (if decide (length blocked = 0%nat) then
         addNotice (js "Aucun utilisateur bloqué")
       else
         addNotice (js "Utilisateurs bloqués: " ++ JSON.join (js ", ") blocked));;
      mret true
  | target :: _ =>
      let target := without_prefix 64 target in
      assign (λ s, set_blockedPeers (Set_add target (blockedPeers s)) s);;
      addNotice (target ++ js " a été bloqué");;
      mret true
  end.

Definition cmdUnblock (args : list jsstring) : M bool :=
  match args with
  | [] => addNotice (js "Usage: /unblock @utilisateur");; mret false
  | target :: _ =>
      let target := without_prefix 64 target in
      let! was := field (λ s, Set_has target (blockedPeers s)) in
      assign (λ s, set_blockedPeers (Set_delete target (blockedPeers s)) s);;
      (if was : bool then addNotice (target ++ js " a été débloqué")
       else addNotice (target ++ js " n'était pas bloqué"));;
      mret true
  end.

(** [joinChannel(channelName)]: an absent or empty password is falsy. *)
Definition joinChannel (channelName : jsstring) : M bool :=
  let! existingChannel := field (λ s, channels s !! channelName) in
  let! password := field (λ s, channelPasswords s !! channelName) in
  let! d := field delegate in
  let protected :=
    match existingChannel with
    | Some c => ChatService.hasPassword c
    | None => false
    end in
  let known :=
    match password with
    | Some (_ :: _) => true
    | _ => false
    end in
  if protected && negb known && d then
    announce (onPasswordRequired channelName);; mret true
  else
    let! me := field myNickname in
    match existingChannel with
    | None =>
        let! created := Date_now in
        assign (λ s, set_channels
                       (<[channelName :=
                            mkChannel channelName [me] false me created false]>
                          (channels s)) s);;
        assign (λ s, set_messages (<[channelName := []]> (messages s)) s)
    | Some c =>
        assign (λ s, set_channels
                       (<[channelName := with_users (Set_add me (users c)) c]>
                          (channels s)) s)
    end;;
    assign (set_currentChannel channelName);;
    chat (addSystemMessage channelName (js "Vous avez rejoint " ++ channelName));;
    announce (onChannelChanged channelName);;
    mret true.

(** [joinChannelWithPassword(channelName, password)] *)
Definition joinChannelWithPassword (channelName password : jsstring) : M bool :=
  let! channel := field (λ s, channels s !! channelName) in
  let! correctPassword := field (λ s, channelPasswords s !! channelName) in
  let protected :=
    match channel with
    | Some c => ChatService.hasPassword c
    | None => false
    end in
  if protected && negb (bool_decide (correctPassword = Some password)) then
    addNotice (js "Mot de passe incorrect");; mret false
  else joinChannel channelName.

(** [leaveChannel(channelName)] *)
Definition leaveChannel (channelName : jsstring) : M bool :=
  let! channel := field (λ s, channels s !! channelName) in
  match channel with
  | Some c =>
      let! me := field myNickname in
      let rest := Set_delete me (users c) in
      assign (λ s, set_channels
                     (<[channelName := with_users rest c]> (channels s)) s);;
      if decide (length rest = 0%nat ∧ channelName ≠ general) then
        assign (λ s, set_channels (delete channelName (channels s)) s);;
        assign (λ s, set_messages (delete channelName (messages s)) s)
      else mret ()
  | None => mret ()
  end;;
  assign (set_currentChannel general);;
  chat (addSystemMessage general (js "Vous avez quitté " ++ channelName));;
  announce (onChannelChanged general);;
  mret true.

(** [cmdJoin(args)] and [cmdLeave(args)] *)
Definition cmdJoin (args : list jsstring) : M bool :=
  match args with
  | [] => addNotice (js "Usage: /join #canal");; mret false
  | channelName :: _ => joinChannel (with_prefix 35 channelName)
  end.

Definition cmdLeave (args : list jsstring) : M bool :=
  let! current := field currentChannel in
  if decide (current = general) then
    addNotice (js "Impossible de quitter le canal général");; mret false
  else leaveChannel current.

(** [cmdPassword(args)] *)
Definition cmdPassword (args : list jsstring) : M bool :=
  let! current := field currentChannel in
  let! channel := field (λ s, channels s !! current) in
  let! me := field myNickname in
  match channel with
  | Some c =>
      if decide (owner c = me) then
        match args with
        | [] =>
            assign (λ s, set_channelPasswords
                           (delete current (channelPasswords s)) s);;
            assign (λ s, set_channels
                           (<[current := with_hasPassword false c]> (channels s))
                           s);;
            addNotice (js "Mot de passe du canal supprimé")
        | _ =>
            let password := JSON.join (js " ") args in
            assign (λ s, set_channelPasswords
                           (<[current := password]> (channelPasswords s)) s);;
            assign (λ s, set_channels
                           (<[current := with_hasPassword true c]> (channels s))
                           s);;
            addNotice (js "Mot de passe du canal défini")
        end;;
        mret true
      else
        addNotice (js "Seul le propriétaire du canal peut définir un mot de passe");;
        mret false
  | None =>
      addNotice (js "Seul le propriétaire du canal peut définir un mot de passe");;
      mret false
  end.

(** [cmdClear(args)] *)
Definition cmdClear (args : list jsstring) : M bool :=
  let! current := field currentChannel in
  chat (clearMessages current);;
  mret true.

End ChatCommands.
End ChatCommands.

(** * Notions used to state the properties *)


(** ** A cipher to run the examples

    A cipher with the interface of AES-GCM that meets [AesGcmCorrect]: the
    data is masked with a byte derived from key and nonce and followed by
    a tag of sixteen bytes. *)
Definition xor_mask (key : N) (iv : bytes) : N := (key + foldr N.add 0 iv) mod 256.

Definition xor_encrypt (key : N) (iv data : bytes) : bytes :=
  ((λ b, N.lxor b (xor_mask key iv)) <$> data) ++ replicate 16 (xor_mask key iv).

Definition xor_decrypt (key : N) (iv encrypted : bytes) : option bytes :=
  let n := (length encrypted - 16)%nat in
  if decide ((16 ≤ length encrypted)%nat ∧
             drop n encrypted = replicate 16 (xor_mask key iv))
  then Some ((λ b, N.lxor b (xor_mask key iv)) <$> take n encrypted)
  else None.

Definition xor_gcm : AesGcm := Build_AesGcm N xor_encrypt xor_decrypt.

(** A browser to run the examples. *)
Definition example_window : Window :=
  mkWindow 1700000000000 (js "localhost:8000") ∅ (λ i, 7 * N.of_nat i + 3) 0
    [] 0 true true [] [] [] [].

(** ** The history of a channel *)

Section HistoryNotions.
Context `{AesGcm}.

(** The history of [channel] after [addMessage]. *)
Definition history_after (channel : jsstring) (message : JSON.Object)
    (s : Window * ChatService.t) : list JSON.Object :=
  let l := default [] (ChatService.messages s.2 !! channel) ++ [message] in
  drop (length l - 1000) l.

End HistoryNotions.

(** ** Channels and what they have taken *)

Section TransportNotions.
Import Window BluetoothService.

(** The browser after [dataChannel.send(message)] went through on the
    channel [dc]. *)
Definition written (dc : nat) (message : ChannelData) (w : Window) : Window :=
  set_channelObjects
    (alter (λ c, mkDataChannel (dc_label c) (dc_connection c) (dc_readyState c)
                   (dc_sent c ++ [message]) (dc_refuses c) (dc_handlers c))
       dc (channelObjects w)) w.

(** The channel registered for a peer. *)
Definition channel_of (s : Window * t) (peerId : jsstring) : option RTCDataChannel :=
  dataChannels s.2 !! peerId ≫= λ dc, channelObjects s.1 !! dc.

(** A peer has an open channel that takes the message. *)
Definition deliverable (s : Window * t) (message : ChannelData)
    (peerId : jsstring) : bool :=
  match channel_of s peerId with
  | Some c => bool_decide (dc_readyState c = OPEN) && negb (dc_refuses c message)
  | None => false
  end.

(** [s'] differs from [s] only by data appended to the logs of channels. *)
Definition more_sent (s s' : Window * t) : Prop :=
  s'.2 = s.2 ∧
  ∀ dc, ∃ extra,
    channelObjects s'.1 !! dc =
      (λ c, mkDataChannel (dc_label c) (dc_connection c) (dc_readyState c)
              (dc_sent c ++ extra) (dc_refuses c) (dc_handlers c))
        <$> channelObjects s.1 !! dc.

(** What the channel registered for a peer has taken so far. *)
Definition sent_to (s : Window * t) (peerId : jsstring) : list ChannelData :=
  default [] (dc_sent <$> channel_of s peerId).

End TransportNotions.

(** ** A chat with one connected peer

    The peer [peer-7f3a] is connected under the name Bob, its data channel
    is open and takes every message, and a session key is stored for
    it. *)

(** A literal of JSON text, written with ['] for the quotation mark. *)
Definition json (s : string) : jsstring :=
  (λ u, if u =? 39 then 34 else u) <$> js s.

Definition bob_id : jsstring := js "peer-7f3a".

Definition bob_channel : RTCDataChannel :=
  mkDataChannel (js "bitchat") 0 OPEN [] (λ _, false) (Some bob_id).

Definition bob_connection : RTCPeerConnection :=
  mkPeerConnection cs_connected
    (Some (mkDescription sdp_offer (js "v=0")))
    (Some (mkDescription sdp_answer (js "v=0"))) [] (Some bob_id).

Definition bob_window : Window :=
  Window.set_channelObjects [bob_channel]
    (Window.set_connectionObjects [bob_connection] example_window).

Definition bob_transport : BluetoothService.t :=
  BluetoothService.mk
    [(bob_id, BluetoothService.mkPeer bob_id (js "Bob") true 1699999990000
                (-50) 1699999995000)]
    ∅ false false None {[bob_id := 0%nat]} {[bob_id := 0%nat]}
    (js "bitchat-k2j5x8q1m") None (Some (js "me-4hz8c1w0p")) [].

Definition bob_chat : @ChatService.t xor_gcm :=
  ChatService.mk bob_transport
    (@CryptoService.mk xor_gcm {[bob_id := 42]})
    (CrossTabService.mk (js "tab-x1y2z3a4b-1700000000000") true)
    ∅ (js "#général") ∅ ∅ [] ∅ (js "Alice") false [].

(** ** What the chat hands to the transport *)

Section ChatNotions.
Context `{AesGcm}.

(** The identifier that the next call of [generateMessageId] returns. *)
Definition next_message_id (w : Window) : jsstring :=
  flat_map (λ b, CryptoService.padStart 2 48 (CryptoService.toString16 b))
    ((λ i, entropy w (drawn w + i)%nat mod 256) <$> seq 0 16).

(** The envelope of the private message that [sendPrivateMessage] would
    build now. *)
Definition outgoing_private (s : Window * ChatService.t)
    (targetNickname content : jsstring) : JSON.Object :=
  ChatService.private_envelope (next_message_id s.1) (ChatService.myNickname s.2)
    targetNickname content (now s.1).

End ChatNotions.

(** ** Who sends the offer *)

Section NegotiationNotions.
Import BluetoothService.

(** The peers to which the service has sent an offer on its signaling
    socket, oldest first: the service is the initiator towards them. *)
Definition offers_sent (s : Window * t) : list jsstring :=
  match signalingWs s.2 ≫= λ ws, socketObjects s.1 !! ws with
  | Some o =>
      omap (λ m, match m with
                 | msg_offer _ _ targetPeer _ => Some targetPeer
                 | _ => None
                 end) (ws_sent o)
  | None => []
  end.

(** A client whose signaling socket is open, in the room [room] under the
    identifier [me]. *)
Definition client_in_room (me room : jsstring) : Window * t :=
  (Window.set_socketObjects
     [mkWebSocket (js "ws://localhost:8000/signaling") OPEN
        [msg_join room me] signaling]
     example_window,
   mk [] ∅ false false None ∅ ∅ room (Some 0%nat) (Some me) []).

(** The relay delivers to a client what it has sent on its connection. *)
Definition deliver (relay : Relay.t) (connection : nat) (s : Window * t) : Window * t :=
  run (λ _, false)
    (SocketMessage 0 <$> default [] (Relay.outbox <$> Relay.clients relay !! connection))
    s.

(** Two clients join the same room of a relay, first [alice], then
    [carol]; each handles what the relay sent it, and the offers it
    started are created. *)
Definition alice_id : jsstring := js "me-zk41hw9qa".
Definition carol_id : jsstring := js "me-b07xm2rt5".
Definition shared_room : jsstring := js "bitchat-5gq0c3v8d".

Definition relay_after_joins : Relay.t :=
  let r := (Relay.connection (Relay.mk [] [])).2 in
  let r := (Relay.connection r).2 in
  let r := Relay.handleSignalingMessage 0 (msg_join shared_room alice_id) r in
  Relay.handleSignalingMessage 1 (msg_join shared_room carol_id) r.

Definition alice_after_joins : Window * t :=
  step (λ _, false) (Settled 0 (Some (mkDescription sdp_offer (js "v=0 alice"))))
    (deliver relay_after_joins 0 (client_in_room alice_id shared_room)).

Definition carol_after_joins : Window * t :=
  step (λ _, false) (Settled 0 (Some (mkDescription sdp_offer (js "v=0 carol"))))
    (deliver relay_after_joins 1 (client_in_room carol_id shared_room)).

End NegotiationNotions.

(** ** Time and timers *)

Section TimerNotions.
Import BluetoothService.

(** The events that stand for the passage of time. *)
Definition time_event (ev : Event) : bool :=
  match ev with
  | Elapse _ | TimerFired _ => true
  | _ => false
  end.

(** The number of pending timers whose callback satisfies [P]. *)
Definition armed (P : Callback → bool) (s : Window * t) : nat :=
  length (List.filter (λ x, P (callback x)) (timers s.1)).










End TimerNotions.

(** ** Examples of sessions *)

Section Sessions.
Import BluetoothService.

(** The service as [new BluetoothService()] leaves it. *)
Definition new_service (w : Window) : Window * t :=
  let '(r, (w', _)) := constructor (w, ()) in
  (w', match r with
       | Normal b => b
       | Throw _ => mk [] ∅ false false None ∅ ∅ [] None None []
       end).

(** A session from its start: the service is made, the chat sets itself
    as the delegate, and [init] starts the probe. *)
Definition started : Window * t :=
  ((setDelegate (λ _, true);; init) (new_service example_window)).2.


(** A negotiation towards a peer that never answers: the offer is
    created and sent, then thirty seconds pass. *)
Definition silent_peer : jsstring := js "me-q8d1n5k2x".

Definition offer_sent : Window * t :=
  step (λ _, false) (Settled 0 (Some (mkDescription sdp_offer (js "v=0"))))
    (connectToPeer (λ _, false) silent_peer
       (client_in_room alice_id shared_room)).2.

Definition thirty_seconds_later : Window * t :=
  step (λ _, false) (Elapse 30000) offer_sent.

(** The chat with Bob again, but the buffer of Bob's channel is full: the
    channel is open and [send] throws. *)
Definition congested_window : Window :=
  Window.set_channelObjects
    [mkDataChannel (js "bitchat") 0 OPEN [] (λ _, true) (Some bob_id)]
    bob_window.

End Sessions.

(** A table of two tabs. *)
Definition two_tabs : CrossTabService.Tabs :=
  {[ js "tab-k3j9x0a1b-1700000000500" :=
       CrossTabService.mkTabInfo (js "tab-k3j9x0a1b-1700000000500")
         1700000000500 1700000000500 (js "Alice");
     js "tab-a7c2m4z8q-1700000000900" :=
       CrossTabService.mkTabInfo (js "tab-a7c2m4z8q-1700000000900")
         1700000000900 1700000000900 (js "Alice") ]}.

(** ** Base64 text *)

(** The sextets of a sequence of octets and the padding of its text. *)
Fixpoint sextets (l : bytes) : list N :=
  match l with
  | [] => []
  | [a] => [a / 4; a mod 4 * 16]
  | [a; b] => [a / 4; a mod 4 * 16 + b / 16; b mod 16 * 4]
  | a :: b :: c :: l' =>
      a / 4 :: (a mod 4 * 16 + b / 16) :: (b mod 16 * 4 + c / 64) ::
      c mod 64 :: sextets l'
  end.

Definition padding (l : bytes) : jsstring :=
  match (length l mod 3)%nat with
  | 1%nat => [61; 61]
  | 2%nat => [61]
  | _ => []
  end.

(** The digits [0]-[9] and [a]-[f]. *)
Definition is_hex_digit (c : N) : Prop := 48 <= c <= 57 ∨ 97 <= c <= 102.

(** ** The relay's clients *)

Section RelayNotions.
Import Relay.

(** The client [c] after it was sent the messages [l]. *)
Definition sent_more (l : list SignalingMessage) (c : Client) : Client :=
  mkClient (readyState c) (roomId c) (peerId c) (outbox c ++ l).

(** The members of the room [r]. *)
Definition members (s : t) (r : jsstring) : list nat :=
  default [] (JsMap.get r (rooms s)).

(** No room is empty or lists a connection twice, and the connections it
    lists are open. *)
Definition rooms_ok (s : t) : Prop :=
  Forall (λ kv, kv.2 ≠ [] ∧ NoDup kv.2 ∧ ∀ c, c ∈ kv.2 → is_open s c = true)
    (rooms s).

(** A room that exists has a member, lists no connection twice, and
    lists no connection that was closed. *)
Definition rooms_live (s : t) : Prop :=
  ∀ r room, JsMap.get r (rooms s) = Some room →
    room ≠ [] ∧ NoDup room ∧
    ∀ c, c ∈ room → ∃ o, clients s !! c = Some o ∧ readyState o ≠ CLOSED.

End RelayNotions.

(** ** What a client writes to its sockets *)

Section SocketNotions.
Import BluetoothService.

(** What was sent on the socket [ws], oldest first. *)
Definition socket_log (s : Window * t) (ws : nat) : list SignalingMessage :=
  default [] (ws_sent <$> socketObjects s.1 !! ws).

(** A request to join a room, or an envelope without [roomId]. *)
Definition join_or_roomless (m : SignalingMessage) : Prop :=
  match m with
  | msg_join _ _
  | msg_offer None _ _ _
  | msg_answer None _ _ _
  | msg_ice_candidate None _ _ _ => True
  | _ => False
  end.

(** Whatever is in the logs afterwards was there before or is a request
    to join or an envelope without [roomId]. *)
Definition sends_roomless : relation (Window * t) :=
  λ s s', ∀ ws m, m ∈ socket_log s' ws → m ∈ socket_log s ws ∨ join_or_roomless m.

End SocketNotions.

(** ** Negotiations that a handler starts *)

Section StartedNotions.
Import Window BluetoothService.

(** From [s0] to [s] the signaling socket, what was sent, the id of the
    service and the browser's WebRTC are the same; the entries of the table
    of connections are kept, and each new entry, for a peer [id], stands
    for a new connection whose handlers are set for [id] and for a new task
    that waits for the offer to [id]. *)
Definition started_since (s0 s : Window * t) : Prop :=
  signalingWs s.2 = signalingWs s0.2 ∧
  socketObjects s.1 = socketObjects s0.1 ∧
  myId s.2 = myId s0.2 ∧
  rtcAvailable s.1 = rtcAvailable s0.1 ∧
  suspended s0.1 `prefix_of` suspended s.1 ∧
  connectionObjects s0.1 `prefix_of` connectionObjects s.1 ∧
  (∀ id pc, connections s0.2 !! id = Some pc → connections s.2 !! id = Some pc) ∧
  (∀ id pc,
     connections s0.2 !! id = None → connections s.2 !! id = Some pc →
     (length (connectionObjects s0.1) ≤ pc)%nat ∧
     connectionObjects s.1 !! pc =
       Some (mkPeerConnection cs_new None None [] (Some id)) ∧
     ∃ k, (length (suspended s0.1) ≤ k)%nat ∧
          suspended s.1 !! k = Some (Some (await_offer pc id))).

End StartedNotions.

(** ** Examples for the relay and for the commands *)

(** Two connections to the relay, of which the first has joined the
    room. *)
Definition relay_after_alice : Relay.t :=
  Relay.run
    [Relay.Connected; Relay.Connected;
     Relay.Message 0 (msg_join shared_room alice_id)]
    Relay.started.

(** The second of the two tabs of [two_tabs]. *)
Definition second_tab : CrossTabService.t :=
  CrossTabService.mk (js "tab-a7c2m4z8q-1700000000900") false.

(** Alice's chat before any command, and with a channel that has a
    password. *)
Definition alice_commands : Window * @ChatCommands.t xor_gcm :=
  (bob_window, ChatCommands.mk bob_chat []).

Definition secret_channel : jsstring := js "#secret".

Definition secret_info : ChatService.Channel :=
  ChatService.mkChannel secret_channel [js "Bob"] true (js "Bob")
    1700000000000 false.

Definition protected_commands : Window * @ChatCommands.t xor_gcm :=
  (bob_window,
   ChatCommands.mk
     (ChatCommands.set_channelPasswords {[secret_channel := js "sesame"]}
        (ChatCommands.set_channels {[secret_channel := secret_info]} bob_chat))
     []).

(** ** What a method leaves alone *)

(** The state after the method [m] is related by [R] to the state
    before. *)
Definition keeps {S} (R : relation S) {A} (m : Js S A) : Prop :=
  ∀ s, R s (m s).2.

(** The observation [f] of the state stays the same. *)
Definition same {S X} (f : S → X) : relation S := λ s s', f s' = f s.

Section Observations.
Import Window BluetoothService.

(** The table of connections, and the timers. *)
Definition connections_of (s : Window * t) : gmap jsstring nat := connections s.2.

Definition timers_of (s : Window * t) : list Timer * nat :=
  (timers s.1, nextTimer s.1).

(** No more timers with a callback in [P] are pending afterwards. *)
Definition not_more (P : Callback → bool) : relation (Window * t) :=
  λ s s', (armed P s' ≤ armed P s)%nat.


End Observations.

(** * Properties *)

(** ** Running the method monad *)

Ltac run_js :=
  unfold bind, mbind, Js_bind, mret, Js_ret, Window.this, Window.update,
    Window.read, Window.write, gets, modify, try_catch, throw;
  cbn beta iota zeta delta [fst snd].

Ltac js_beta := cbn beta iota zeta delta [fst snd].

(** ** Encoding and decoding UTF-8 *)

Section EncodingFacts.
Import Encoding.



























End EncodingFacts.


(** ** Encrypting and decrypting a message *)

Section RoundTrip.
Context `{AesGcm}.
Import Window CryptoService.





End RoundTrip.


(** ** The history of a channel *)

Section History.
Context `{AesGcm}.
Import ChatService.

Lemma addMessage_messages channel message s :
  ∃ s', addMessage channel message s = (Normal (), s') ∧
        messages s'.2 = <[channel := history_after channel message s]> (messages s.2).
Proof.
  destruct s as [w s]. unfold addMessage, notify, history_after. run_js.
  destruct (messages s !! channel) as [l|] eqn:Hl; cbn [default].
  - rewrite bool_decide_eq_true_2 by done. cbn.
    rewrite lookup_alter_eq, Hl. cbn.
    destruct (decide _) as [Hlen|Hlen]; cbn;
      destruct (delegate s); cbn; eexists; (split; [done|]); cbn;
      apply map_eq; intros k; (destruct (decide (k = channel)) as [->|];
        [rewrite ?lookup_alter_eq, ?lookup_insert_eq, ?Hl
        |by rewrite ?lookup_alter_ne, ?lookup_insert_ne by done]); cbn.
    all: try done.
    all: replace (length (l ++ [message]) - 1000)%nat with 0%nat by lia; done.
  - rewrite bool_decide_eq_false_2 by (by intros [??]). cbn.
    rewrite lookup_alter_eq, lookup_insert_eq. cbn [fmap option_fmap option_map default app].
    destruct (decide _) as [Hlen|Hlen]; [cbn in Hlen; lia|].
    cbn. destruct (delegate s); cbn; eexists; (split; [done|]); cbn;
      apply map_eq; intros k; (destruct (decide (k = channel)) as [->|];
        [by rewrite ?lookup_alter_eq, ?lookup_insert_eq
        |by rewrite ?lookup_alter_ne, ?lookup_insert_ne by done]).
Qed.

Lemma last_drop {A} (l : list A) n :
  (n < length l)%nat → last (drop n l) = last l.
Proof.
  revert n. induction l as [|a l IH]; intros [|n] Hn; cbn in *; try lia;
    [done|].
  rewrite IH by lia. destruct l; cbn in *; [lia|done].
Qed.

(** C10: after [addMessage(channel, message)] the list of the channel has
    at most 1000 entries and ends with the message just added, and it is the
    old list followed by the message without its oldest entries: the most
    recent 1000 in their order. *)
Theorem addMessage_history_bounded channel message s :
  ∃ s' after,
    addMessage channel message s = (Normal (), s') ∧
    messages s'.2 !! channel = Some after ∧
    (length after ≤ 1000)%nat ∧
    last after = Some message ∧
    after = drop (length (default [] (messages s.2 !! channel) ++ [message]) - 1000)
              (default [] (messages s.2 !! channel) ++ [message]).
Proof.
  destruct (addMessage_messages channel message s) as (s' & Hrun & Hm).
  exists s', (history_after channel message s).
  split; [done|]. rewrite Hm, lookup_insert_eq. split; [done|].
  unfold history_after. cbn zeta.
  set (l := default [] (messages s.2 !! channel) ++ [message]).
  assert (length l ≠ 0)%nat as Hl by (subst l; rewrite length_app; cbn; lia).
  split; [rewrite length_drop; lia|]. split; [|done].
  rewrite last_drop by lia. subst l. apply last_snoc.
Qed.

End History.

(** ** The order of [Array.prototype.sort] *)

Section StringOrder.

Lemma str_ltb_irrefl x : str_ltb x x = false.
Proof.
  induction x as [|a x IH]; cbn; [done|]. by rewrite N.ltb_irrefl.
Qed.

Lemma str_ltb_asym x y : str_ltb x y = true → str_ltb y x = false.
Proof.
  revert y; induction x as [|a x IH]; intros [|b y]; cbn; try done.
  destruct (N.ltb_spec a b), (N.ltb_spec b a); try done; try lia.
  apply IH.
Qed.

Lemma str_ltb_connex x y :
  str_ltb x y = false → str_ltb y x = false → x = y.
Proof.
  revert y; induction x as [|a x IH]; intros [|b y]; cbn; try done.
  destruct (N.ltb_spec a b), (N.ltb_spec b a); try done.
  intros ??. assert (a = b) as -> by lia. f_equal. by apply IH.
Qed.

Lemma str_ltb_trans x y z :
  str_ltb x y = true → str_ltb y z = true → str_ltb x z = true.
Proof.
  revert y z; induction x as [|a x IH]; intros [|b y] [|c z]; cbn; try done.
  destruct (N.ltb_spec a b), (N.ltb_spec b a), (N.ltb_spec b c),
    (N.ltb_spec c b), (N.ltb_spec a c), (N.ltb_spec c a);
    try done; try lia.
  apply IH.
Qed.

Global Instance str_le_refl : Reflexive str_le.
Proof. intros x. apply str_ltb_irrefl. Qed.

Global Instance str_le_total : Total str_le.
Proof.
  intros x y. unfold str_le.
  destruct (str_ltb y x) eqn:E; [right|by left]. by apply str_ltb_asym.
Qed.

Global Instance str_le_antisym : AntiSymm (=) str_le.
Proof. intros x y ??. by apply str_ltb_connex. Qed.

Global Instance str_le_trans : Transitive str_le.
Proof.
  intros x y z Hxy Hyz. unfold str_le in *.
  destruct (str_ltb z x) eqn:Hzx; [|done].
  destruct (str_ltb y z) eqn:Hzy.
  - by rewrite (str_ltb_trans _ _ _ Hzy Hzx) in Hxy.
  - assert (y = z) as -> by by apply str_ltb_connex.
    by rewrite Hzx in Hxy.
Qed.

(** The head of a sorted array is a least element of the array. *)
Lemma Array_sort_head l :
  match Array_sort l with
  | [] => l = []
  | first :: _ => first ∈ l ∧ ∀ k, k ∈ l → str_le first k
  end.
Proof.
  unfold Array_sort.
  pose proof (merge_sort_Permutation str_le l) as Hp.
  pose proof (StronglySorted_merge_sort str_le l) as Hs.
  destruct (merge_sort str_le l) as [|first rest].
  - by apply Permutation_nil_l in Hp.
  - split; [rewrite <-Hp; left|].
    intros k Hk. rewrite <-Hp in Hk.
    apply StronglySorted_inv in Hs as [_ Hall].
    apply elem_of_cons in Hk as [->|Hk]; [done|].
    by eapply Forall_forall in Hall.
Qed.

End StringOrder.

(** ** The leader among the tabs *)

Section Leader.
Import CrossTabService.

Lemma elem_of_Object_keys (tabs : Tabs) k : k ∈ Object_keys tabs ↔ k ∈ dom tabs.
Proof.
  unfold Object_keys. rewrite elem_of_dom, list_elem_of_fmap. split.
  - intros ([k' v] & -> & Hkv%elem_of_map_to_list). by exists v.
  - intros [v Hv]. exists (k, v). by rewrite elem_of_map_to_list.
Qed.

Lemma electLeader_isLeader tabs s :
  isLeader (electLeader tabs s).1 =
    match Array_sort (Object_keys tabs) with
    | [] => false
    | first :: _ => bool_decide (first = myTabId s)
    end.
Proof. unfold electLeader. cbn zeta. by repeat case_match. Qed.

Lemma electLeader_least tabs s :
  isLeader (electLeader tabs s).1 = true ↔
  myTabId s ∈ dom tabs ∧ ∀ k, k ∈ dom tabs → str_le (myTabId s) k.
Proof.
  rewrite electLeader_isLeader.
  pose proof (Array_sort_head (Object_keys tabs)) as Hh.
  destruct (Array_sort (Object_keys tabs)) as [|first rest].
  - split; [done|]. intros [Hin _].
    apply elem_of_Object_keys in Hin. rewrite Hh in Hin. by inversion Hin.
  - destruct Hh as [Hin Hle]. rewrite bool_decide_eq_true. split.
    + intros <-. split; [by apply elem_of_Object_keys|].
      intros k Hk. by apply Hle, elem_of_Object_keys.
    + intros [Hme Hmin]. apply (anti_symm str_le).
      * by apply Hle, elem_of_Object_keys.
      * by apply Hmin, elem_of_Object_keys.
Qed.

(** C9: [electLeader] sets [isLeader] to true exactly when the tab's own
    id is a key of the table of tabs and the smallest one in the order of
    [Array.prototype.sort]; for a table that is not empty exactly one key is
    the leader for every registered tab; and the result depends on the table
    and the tab's id only. *)
Theorem electLeader_smallest_key (tabs : Tabs) :
  (∀ s, isLeader (electLeader tabs s).1 = true ↔
        myTabId s ∈ dom tabs ∧ ∀ k, k ∈ dom tabs → str_le (myTabId s) k) ∧
  (tabs ≠ ∅ →
   ∃ leader, leader ∈ dom tabs ∧
     ∀ s, myTabId s ∈ dom tabs →
          (isLeader (electLeader tabs s).1 = true ↔ myTabId s = leader)) ∧
  (∀ s s', myTabId s = myTabId s' →
           isLeader (electLeader tabs s).1 = isLeader (electLeader tabs s').1).
Proof.
  split; [apply electLeader_least|]. split.
  - intros Hne.
    pose proof (Array_sort_head (Object_keys tabs)) as Hh.
    destruct (Array_sort (Object_keys tabs)) as [|first rest] eqn:Hsort.
    + destruct Hne. apply map_empty. intros k.
      apply not_elem_of_dom. rewrite <-elem_of_Object_keys, Hh.
      apply not_elem_of_nil.
    + destruct Hh as [Hin Hle]. exists first.
      split; [by apply elem_of_Object_keys|].
      intros s _. rewrite electLeader_isLeader, Hsort, bool_decide_eq_true.
      split; congruence.
  - intros s s' Hid. by rewrite !electLeader_isLeader, Hid.
Qed.

End Leader.

(** ** Sending to peers *)

Section Transport.
Import Window BluetoothService.

Lemma initiateConnectionToPeer_existing refuses peerId s :
  is_Some (connections s.2 !! peerId) →
  initiateConnectionToPeer refuses peerId s = (Normal (), s).
Proof.
  intros [pc Hpc]. destruct s as [w b]. unfold initiateConnectionToPeer.
  run_js. cbn in Hpc. by rewrite Hpc.
Qed.

(** C6: in a state whose table of connections has an entry for [peerId],
    [initiateConnectionToPeer(peerId)] and [connectToPeer(peerId)] return
    and leave the whole state as it was: no connection object is created,
    nothing is sent and no continuation is suspended. *)
Theorem connect_existing_is_noop refuses peerId s :
  is_Some (connections s.2 !! peerId) →
  initiateConnectionToPeer refuses peerId s = (Normal (), s) ∧
  connectToPeer refuses peerId s = (Normal (), s).
Proof.
  intros Hc. unfold connectToPeer.
  by rewrite initiateConnectionToPeer_existing.
Qed.

Lemma sendToPeer_unfold peerId message s :
  sendToPeer peerId message s =
    match dataChannels s.2 !! peerId with
    | Some dc =>
        match channelObjects s.1 !! dc with
        | Some c =>
            if decide (dc_readyState c = OPEN) then
              if dc_refuses c message then (Normal false, s)
              else (Normal true, (written dc message s.1, s.2))
            else (Normal false, s)
        | None => (Normal false, s)
        end
    | None => (Normal false, s)
    end.
Proof.
  destruct s as [w b]. unfold sendToPeer, dc_send, channel, alter_channel.
  run_js. destruct (dataChannels b !! peerId) as [dc|]; [|done]. js_beta.
  destruct (channelObjects w !! dc) as [c|] eqn:Hc; [|done].
  destruct (decide _); [|done]. js_beta. rewrite Hc.
  rewrite decide_True by done. by destruct (dc_refuses c message).
Qed.

(** C7, as the code has it: when the peer has no data channel that is
    open, [sendToPeer] returns false and the state is unchanged; when it has
    an open channel, [sendToPeer] returns true and the message is written to
    that channel, unless the channel's [send] throws, in which case it
    returns false and nothing is written. *)
Theorem sendToPeer_result peerId message s :
  ((∀ dc c, dataChannels s.2 !! peerId = Some dc →
            channelObjects s.1 !! dc = Some c → dc_readyState c ≠ OPEN) →
   sendToPeer peerId message s = (Normal false, s)) ∧
  (∀ dc c, dataChannels s.2 !! peerId = Some dc →
           channelObjects s.1 !! dc = Some c → dc_readyState c = OPEN →
   sendToPeer peerId message s =
     if dc_refuses c message then (Normal false, s)
     else (Normal true, (written dc message s.1, s.2))).
Proof.
  rewrite sendToPeer_unfold. split.
  - intros Hclosed.
    destruct (dataChannels s.2 !! peerId) as [dc|] eqn:Hdc; [|done].
    destruct (channelObjects s.1 !! dc) as [c|] eqn:Hc; [|done].
    destruct (decide _) as [Ho|]; [|done]. by destruct (Hclosed dc c).
  - intros dc c -> -> Ho. by rewrite decide_True.
Qed.

Lemma more_sent_refl s : more_sent s s.
Proof.
  split; [done|]. intros dc. exists [].
  destruct (channelObjects s.1 !! dc) as [[]|]; [|done].
  cbn. by rewrite app_nil_r.
Qed.

Lemma more_sent_trans s1 s2 s3 :
  more_sent s1 s2 → more_sent s2 s3 → more_sent s1 s3.
Proof.
  intros [H12 E12] [H23 E23]. split; [congruence|]. intros dc.
  destruct (E12 dc) as [x Hx], (E23 dc) as [y Hy]. exists (x ++ y).
  rewrite Hy, Hx. destruct (channelObjects s1.1 !! dc); [|done].
  cbn. by rewrite app_assoc.
Qed.

Lemma more_sent_written dc message s :
  more_sent s (written dc message s.1, s.2).
Proof.
  split; [done|]. intros dc'. unfold written. cbn.
  destruct (decide (dc = dc')) as [->|Hne].
  - exists [message]. by rewrite list_lookup_alter_eq.
  - exists []. rewrite list_lookup_alter_ne by done.
    destruct (channelObjects s.1 !! dc') as [[]|]; [|done].
    cbn. by rewrite app_nil_r.
Qed.

Lemma more_sent_deliverable s s' message peerId :
  more_sent s s' → deliverable s' message peerId = deliverable s message peerId.
Proof.
  intros [Hb Hc]. unfold deliverable, channel_of. rewrite Hb.
  destruct (dataChannels s.2 !! peerId) as [dc|]; [|done]. cbn.
  destruct (Hc dc) as [extra ->].
  by destruct (channelObjects s.1 !! dc).
Qed.

Lemma more_sent_sent_to s s' peerId :
  more_sent s s' → sent_to s peerId `prefix_of` sent_to s' peerId.
Proof.
  intros [Hb Hc]. unfold sent_to, channel_of. rewrite Hb.
  destruct (dataChannels s.2 !! peerId) as [dc|]; [|done]. cbn.
  destruct (Hc dc) as [extra ->].
  destruct (channelObjects s.1 !! dc); [|done]. cbn. by exists extra.
Qed.

Lemma sendToPeer_deliverable peerId message s :
  ∃ s', sendToPeer peerId message s = (Normal (deliverable s message peerId), s') ∧
        more_sent s s' ∧
        (deliverable s message peerId = true → message ∈ sent_to s' peerId).
Proof.
  assert (∀ P : Window * t → Prop,
            ∃ s', (Normal false, s) = (Normal false, s') ∧
                  more_sent s s' ∧ (false = true → P s')) as Hsame.
  { intros P. exists s. split; [done|]. split; [apply more_sent_refl|done]. }
  rewrite sendToPeer_unfold. unfold deliverable, sent_to, channel_of.
  destruct (dataChannels s.2 !! peerId) as [dc|] eqn:Hdc; cbn;
    [|apply Hsame].
  destruct (channelObjects s.1 !! dc) as [c|] eqn:Hc; cbn; [|apply Hsame].
  destruct (decide _) as [Ho|Ho];
    [rewrite bool_decide_eq_true_2 by done
    |rewrite bool_decide_eq_false_2 by done; apply Hsame].
  destruct (dc_refuses c message); cbn; [apply Hsame|].
  eexists. split; [done|]. split; [apply more_sent_written|].
  intros _. cbn [fst snd]. rewrite Hdc. cbn.
  rewrite list_lookup_alter_eq, Hc. cbn.
  apply elem_of_app. right. left.
Qed.

Lemma broadcast_loop_spec message l sentCount s :
  ∃ s', broadcast_loop message l sentCount s =
          (Normal (sentCount + length (List.filter (deliverable s message) l))%nat, s') ∧
        more_sent s s' ∧
        ∀ peerId, peerId ∈ l → deliverable s message peerId = true →
                  message ∈ sent_to s' peerId.
Proof.
  revert sentCount s. induction l as [|p l IH]; intros sentCount s.
  - exists s. cbn. rewrite Nat.add_0_r.
    split; [done|]. split; [apply more_sent_refl|]. by intros ? ?%elem_of_nil.
  - cbn [broadcast_loop List.filter]. unfold bind, mbind, Js_bind.
    destruct (sendToPeer_deliverable p message s) as (s1 & -> & Hs1 & Hp).
    destruct (IH (if deliverable s message p then S sentCount else sentCount) s1)
      as (s' & -> & Hs' & Hl).
    exists s'. split; [|split].
    + f_equal. f_equal.
      assert (List.filter (deliverable s1 message) l =
              List.filter (deliverable s message) l) as ->.
      { apply List.filter_ext. intros. by apply more_sent_deliverable. }
      destruct (deliverable s message p); cbn; lia.
    + by eapply more_sent_trans.
    + intros q [->|Hq]%elem_of_cons Hd.
      * eapply elem_of_prefix; [by apply Hp|]. by apply more_sent_sent_to.
      * apply Hl; [done|]. by rewrite (more_sent_deliverable s s1).
Qed.

(** C8: [broadcastMessage] returns, without throwing, the number of
    peers of the table for which [sendToPeer] on its own succeeds; it
    changes nothing of the service; every such peer has the message written
    to its channel, whatever happened for the others; and what had been
    written to any channel before is still there. *)
Theorem broadcastMessage_counts message s :
  ∃ s', broadcastMessage message s =
          (Normal (length (List.filter (deliverable s message)
                             (JsMap.keys (peers s.2)))), s') ∧
        s'.2 = s.2 ∧
        (∀ peerId,
           (sendToPeer peerId message s).1 = Normal (deliverable s message peerId)) ∧
        (∀ peerId, peerId ∈ JsMap.keys (peers s.2) →
           deliverable s message peerId = true →
           message ∈ sent_to s' peerId) ∧
        (∀ peerId, sent_to s peerId `prefix_of` sent_to s' peerId).
Proof.
  unfold broadcastMessage. run_js.
  destruct (broadcast_loop_spec message (JsMap.keys (peers s.2)) 0 s)
    as (s' & Hrun & Hmore & Hsent).
  exists s'. rewrite Hrun. split; [done|]. split; [apply Hmore|].
  split; [|split; [done|]].
  - intros p. by destruct (sendToPeer_deliverable p message s) as (? & -> & _).
  - intros p. by apply more_sent_sent_to.
Qed.

End Transport.

(** ** What the chat writes to a channel *)

Section Clear.
Context `{AesGcm}.
Import Window ChatService.

Lemma generateMessageId_spec (s : Window * CryptoService.t) :
  CryptoService.generateMessageId s =
    (Normal (next_message_id s.1), (set_drawn (drawn s.1 + 16)%nat s.1, s.2)).
Proof.
  destruct s as [w c].
  unfold CryptoService.generateMessageId, CryptoService.generateRandomBytes,
    getRandomValues, next_message_id.
  by run_js.
Qed.

Lemma addPrivateMessage_frame peer message w s :
  ∃ s', addPrivateMessage peer message (w, s) = (Normal (), (w, s')) ∧
        bluetoothService s' = bluetoothService s ∧
        cryptoService s' = cryptoService s ∧
        myNickname s' = myNickname s.
Proof.
  unfold addPrivateMessage, notify. run_js.
  destruct (bool_decide _); js_beta;
    cbn [delegate set_privateMessages]; destruct (delegate s); js_beta;
    by eexists.
Qed.

(** C1, as the code has it: a private message to a nickname goes to the
    first peer of the table of connected peers that has this name; when
    the channel of that peer is open and accepts the text, the JSON text of
    the envelope is written to it, as it is; [sendPrivateMessage] returns
    true, no other channel is written, and the crypto service with its
    session keys is left as it was. *)
Theorem private_message_sent_as_json targetNickname content s peer dc c :
  List.find (λ p, bool_decide (BluetoothService.peer_name p = targetNickname))
    (JsMap.values (BluetoothService.peers (bluetoothService s.2))) = Some peer →
  BluetoothService.dataChannels (bluetoothService s.2)
    !! BluetoothService.peer_id peer = Some dc →
  channelObjects s.1 !! dc = Some c →
  dc_readyState c = OPEN →
  dc_refuses c (Text (JSON.stringify (outgoing_private s targetNickname content))) = false →
  ∃ s',
    sendPrivateMessage targetNickname content s = (Normal true, s') ∧
    channelObjects s'.1 !! dc =
      Some (mkDataChannel (dc_label c) (dc_connection c) (dc_readyState c)
              (dc_sent c ++
                 [Text (JSON.stringify (outgoing_private s targetNickname content))])
              (dc_refuses c) (dc_handlers c)) ∧
    (∀ dc', dc' ≠ dc → channelObjects s'.1 !! dc' = channelObjects s.1 !! dc') ∧
    cryptoService s'.2 = cryptoService s.2.
Proof.
  destruct s as [w s]. unfold outgoing_private. cbn [fst snd].
  intros Hfind Hdc Hc Hopen Htakes.
  unfold sendPrivateMessage. run_js.
  unfold crypto at 1. rewrite generateMessageId_spec. js_beta.
  unfold Date_now. run_js. cbn [now set_drawn myNickname set_cryptoService].
  match goal with
  | |- context [addPrivateMessage ?p ?m (?w', ?s0)] =>
      destruct (addPrivateMessage_frame p m w' s0) as (s1 & -> & Hb & Hk & Hn)
  end.
  cbn [bluetoothService cryptoService myNickname set_cryptoService] in Hb, Hk, Hn.
  js_beta. unfold bluetooth at 1, BluetoothService.getConnectedPeers. run_js.
  rewrite Hb, Hfind. unfold bluetooth. js_beta.
  rewrite sendToPeer_unfold.
  cbn [fst snd bluetoothService set_bluetoothService channelObjects set_drawn].
  rewrite Hdc, Hc, decide_True, Htakes by done. js_beta.
  eexists. split; [done|]. cbn [fst snd]. split; [|split].
  - unfold written. cbn. by rewrite list_lookup_alter_eq, Hc.
  - intros dc' Hne. unfold written. cbn. by rewrite list_lookup_alter_ne.
  - done.
Qed.

End Clear.

(** ** Messages to a channel of the chat *)

Section ChatPath.
Context `{AesGcm}.
Import Window ChatService.

Lemma addMessage_window channel message w s :
  ∃ s', addMessage channel message (w, s) = (Normal (), (w, s')).
Proof.
  unfold addMessage, notify. run_js.
  destruct (bool_decide _); js_beta; cbn [messages set_messages];
    destruct (decide _); js_beta; cbn [delegate set_messages];
    destruct (delegate s); js_beta; by eexists.
Qed.

(** The chat path stops before the transport: the call of the missing
    method [sendMessage] throws inside the [try], so that
    [sendChannelMessage] returns false and no channel is written. *)
Lemma sendChannelMessage_stops channel content s :
  ∃ s', sendChannelMessage channel content s = (Normal false, s') ∧
        channelObjects s'.1 = channelObjects s.1.
Proof.
  destruct s as [w s]. unfold sendChannelMessage. run_js.
  unfold crypto at 1. rewrite generateMessageId_spec. js_beta.
  unfold Date_now. run_js. cbn [now set_drawn myNickname set_cryptoService].
  match goal with
  | |- context [addMessage ?c ?m (?w', ?s0)] =>
      destruct (addMessage_window c m w' s0) as (s1 & ->)
  end.
  js_beta. unfold CrossTabService.not_a_function. run_js. by eexists.
Qed.

End ChatPath.

(** ** Who sends the offer *)

Section Negotiation.
Import Window BluetoothService.

Lemma alter_snoc {A} (f : A → A) (l : list A) (x : A) :
  alter f (length l) (l ++ [x]) = l ++ [f x].
Proof.
  rewrite <-(Nat.add_0_r (length l)) at 1. by rewrite alter_app_r.
Qed.

Ltac fields :=
  cbn [fst snd now location_host localStorage entropy drawn timers nextTimer
       webSocketAllowed rtcAvailable socketObjects connectionObjects
       channelObjects suspended set_now set_localStorage set_drawn set_timers
       set_socketObjects set_connectionObjects set_channelObjects
       set_suspended peers discoveredPeers isScanning isAdvertising delegate
       connections dataChannels roomId signalingWs myId delegated set_peers
       set_discoveredPeers set_isScanning set_isAdvertising set_delegate
       set_connections set_dataChannels set_signalingWs set_myId
       set_delegated].

Ltac unfold_methods :=
  unfold step, handle, signaling_onmessage, handleSignalingMessage,
    initiateConnectionToPeer, initiateConnectionToPeer_resume, getMyId,
    sendSignalingMessage, open_signaling, setupConnectionHandlers,
    setupDataChannel, new_RTCPeerConnection, new_DataChannel, suspend,
    alter_connection, alter_channel, socket, ws_send, alter_socket.

Lemma getMyId_known s me :
  myId s.2 = Some me → me ≠ [] → getMyId s = (Normal me, s).
Proof.
  destruct s as [w b]. cbn. intros Hid Hne. unfold getMyId. run_js.
  rewrite Hid. by destruct me.
Qed.

Lemma initiateConnectionToPeer_new refuses id w b :
  connections b !! id = None →
  rtcAvailable w = true →
  initiateConnectionToPeer refuses id (w, b) =
    (Normal (),
     (set_suspended
        (suspended w ++ [Some (await_offer (length (connectionObjects w)) id)])
        (set_channelObjects
           (channelObjects w ++
              [mkDataChannel (js "bitchat") (length (connectionObjects w))
                 CONNECTING [] refuses (Some id)])
           (set_connectionObjects
              (connectionObjects w ++
                 [mkPeerConnection cs_new None None [] (Some id)]) w)),
      set_connections (<[id := length (connectionObjects w)]> (connections b)) b)).
Proof.
  intros Hnone Hrtc. unfold_methods. run_js. rewrite Hnone. run_js.
  rewrite Hrtc. run_js.
  cbn [connectionObjects set_connectionObjects channelObjects
       set_channelObjects suspended set_suspended].
  by rewrite !alter_snoc.
Qed.

Lemma started_since_refl s : started_since s s.
Proof.
  unfold started_since. do 6 (split; [done|]). split; [done|].
  intros id pc Hnone Hsome. by rewrite Hnone in Hsome.
Qed.

Lemma started_since_trans s0 s s' :
  started_since s0 s → started_since s s' → started_since s0 s'.
Proof.
  intros (Hws & Hso & Hme & Hrtc & Hsu & Hco & Hkeep & Hnew)
         (Hws' & Hso' & Hme' & Hrtc' & Hsu' & Hco' & Hkeep' & Hnew').
  unfold started_since.
  split; [congruence|]. split; [congruence|]. split; [congruence|].
  split; [congruence|]. split; [by etrans|]. split; [by etrans|].
  split; [by auto|].
  intros id pc Hnone Hsome.
  destruct (connections s.2 !! id) as [pc0|] eqn:Hmid.
  - pose proof (Hkeep' _ _ Hmid) as Hsame. rewrite Hsome in Hsame.
    injection Hsame as ->.
    destruct (Hnew _ _ Hnone Hmid) as (Hlen & Hobj & k & Hk & Htask).
    split; [done|]. split; [by eapply prefix_lookup_Some|].
    exists k. split; [done|]. by eapply prefix_lookup_Some.
  - destruct (Hnew' _ _ Hmid Hsome) as (Hlen & Hobj & k & Hk & Htask).
    apply prefix_length in Hsu, Hco.
    split; [lia|]. split; [done|]. exists k. split; [lia|done].
Qed.

Lemma initiateConnectionToPeer_started refuses id s :
  rtcAvailable s.1 = true →
  ∃ s', initiateConnectionToPeer refuses id s = (Normal (), s') ∧
        started_since s s' ∧ is_Some (connections s'.2 !! id).
Proof.
  intros Hrtc. destruct (connections s.2 !! id) as [pc|] eqn:Hid.
  - exists s. rewrite initiateConnectionToPeer_existing by eauto.
    split; [done|]. split; [apply started_since_refl|by eauto].
  - destruct s as [w b]. cbn [fst snd] in *.
    rewrite initiateConnectionToPeer_new by done.
    eexists. split; [done|]. split; [|fields; by rewrite lookup_insert_eq].
    unfold started_since. fields.
    split; [done|]. split; [done|]. split; [done|]. split; [done|].
    split; [by apply prefix_app_r|]. split; [by apply prefix_app_r|].
    split.
    + intros id0 pc0 Hsome. rewrite lookup_insert_ne; [done|].
      intros <-. by rewrite Hid in Hsome.
    + intros id0 pc0 Hnone Hsome.
      destruct (decide (id = id0)) as [<-|Hne];
        [|by rewrite lookup_insert_ne, Hnone in Hsome].
      rewrite lookup_insert_eq in Hsome. injection Hsome as <-.
      split; [done|]. split; [by rewrite list_lookup_middle|].
      exists (length (suspended w)). split; [done|].
      by rewrite list_lookup_middle.
Qed.

Lemma room_joined_started refuses me ids s :
  myId s.2 = Some me → me ≠ [] →
  rtcAvailable s.1 = true →
  ∃ s',
    forEach ids (λ id,
      let! me := getMyId in
      if decide (id ≠ me) then initiateConnectionToPeer refuses id
      else mret ()) s = (Normal (), s') ∧
    started_since s s' ∧
    ∀ id, id ∈ ids → id ≠ me → is_Some (connections s'.2 !! id).
Proof.
  intros Hme Hne. revert s Hme.
  induction ids as [|id ids IH]; intros s Hme Hrtc.
  - exists s. split; [done|]. split; [apply started_since_refl|].
    intros id Hin. by apply elem_of_nil in Hin.
  - cbn [forEach]. unfold bind, mbind, Js_bind.
    rewrite getMyId_known with (me := me) by done. js_beta.
    assert (∃ s1,
              (if decide (id ≠ me) then initiateConnectionToPeer refuses id
               else mret ()) s = (Normal (), s1) ∧
              started_since s s1 ∧
              (id ≠ me → is_Some (connections s1.2 !! id)))
      as (s1 & -> & Hs1 & Hid).
    { destruct (decide (id ≠ me)) as [Hid|Hid].
      - destruct (initiateConnectionToPeer_started refuses id s Hrtc)
          as (s1 & Hrun & Hs1 & Hin). by exists s1.
      - exists s. split; [done|]. split; [apply started_since_refl|done]. }
    js_beta.
    pose proof Hs1 as (_ & _ & Hme1 & Hrtc1 & _).
    destruct (IH s1) as (s' & Hrun & Hs' & Hall); [congruence..|].
    exists s'. split; [done|]. split; [by eapply started_since_trans|].
    intros id0 [->|Hin]%elem_of_cons Hid0; [|by apply Hall].
    destruct (Hid Hid0) as [pc Hpc].
    destruct Hs' as (_ & _ & _ & _ & _ & _ & Hkeep & _). by eauto.
Qed.

(** The offer of a suspended negotiation is sent once it is created. *)
Lemma settled_offer_sent refuses s ws o me k pc id offer :
  signalingWs s.2 = Some ws →
  socketObjects s.1 !! ws = Some o →
  ws_readyState o = OPEN →
  myId s.2 = Some me → me ≠ [] →
  suspended s.1 !! k = Some (Some (await_offer pc id)) →
  offers_sent (step refuses (Settled k (Some offer)) s) = offers_sent s ++ [id].
Proof.
  destruct s as [w b]. cbn [fst snd]. intros Hws Ho Hopen Hme Hne Htask.
  unfold step, handle. run_js. rewrite Htask. js_beta.
  unfold initiateConnectionToPeer_resume, alter_connection. run_js.
  rewrite getMyId_known with (me := me) by done. js_beta.
  unfold sendSignalingMessage, open_signaling, socket, ws_send, alter_socket.
  run_js. fields. rewrite Hws. run_js. fields.
  rewrite Ho, decide_True by done. run_js.
  unfold offers_sent. fields.
  rewrite Hws. cbn [mbind option_bind]. rewrite list_lookup_alter_eq, Ho.
  cbn [fmap option_fmap option_map ws_sent]. by rewrite omap_app.
Qed.

(** C3, as the code has it: a client that is told of a peer other than
    itself, by a peer-joined event or anywhere in the member list of
    room-joined, however long the list, and has no connection entry for
    that peer, becomes the initiator: it creates a connection for the peer,
    waits for the offer and, once the offer is created, sends it to the
    peer.  The two ids are not compared. *)
Theorem discovery_makes_initiator refuses s ws o me id ids room offer message :
  signalingWs s.2 = Some ws →
  socketObjects s.1 !! ws = Some o →
  ws_readyState o = OPEN →
  ws_use o = signaling →
  myId s.2 = Some me →
  me ≠ [] →
  id ≠ me →
  connections s.2 !! id = None →
  rtcAvailable s.1 = true →
  message = msg_peer_joined id room ∨
    (message = msg_room_joined room ids ∧ id ∈ ids) →
  let s1 := step refuses (SocketMessage ws message) s in
  ∃ pc k,
    (length (connectionObjects s.1) ≤ pc)%nat ∧
    (length (suspended s.1) ≤ k)%nat ∧
    connections s1.2 !! id = Some pc ∧
    connectionObjects s1.1 !! pc =
      Some (mkPeerConnection cs_new None None [] (Some id)) ∧
    suspended s1.1 !! k = Some (Some (await_offer pc id)) ∧
    offers_sent (step refuses (Settled k (Some offer)) s1) = offers_sent s ++ [id].
Proof.
  intros Hws Ho Hopen Huse Hme Hne Hid Hnone Hrtc Hmsg. cbv zeta.
  assert (∃ s1, step refuses (SocketMessage ws message) s = s1 ∧
                started_since s s1 ∧ is_Some (connections s1.2 !! id))
    as (s1 & -> & Hs1 & [pc Hpc]).
  { unfold step, handle, socket. run_js. rewrite Ho.
    cbn [fmap option_fmap option_map]. rewrite Huse.
    unfold signaling_onmessage, try_catch.
    destruct Hmsg as [-> | [-> Hin]]; cbn [handleSignalingMessage].
    - unfold bind, mbind, Js_bind.
      rewrite getMyId_known with (me := me) by done. js_beta.
      rewrite decide_True by done.
      destruct (initiateConnectionToPeer_started refuses id s Hrtc)
        as (s1 & -> & Hs1 & Hsome).
      by exists s1.
    - destruct (room_joined_started refuses me ids s Hme Hne Hrtc)
        as (s1 & -> & Hs1 & Hall).
      exists s1. split; [done|]. split; [done|]. by apply Hall. }
  destruct Hs1 as (Hws1 & Hso1 & Hme1 & _ & _ & _ & _ & Hnew).
  destruct (Hnew id pc Hnone Hpc) as (Hlen & Hobj & k & Hk & Htask).
  exists pc, k. do 5 (split; [done|]).
  rewrite (settled_offer_sent refuses s1 ws o me k pc id offer);
    [|congruence..|done].
  unfold offers_sent. by rewrite Hws1, Hso1.
Qed.

End Negotiation.

(** ** What a method leaves alone *)

Section Frame.
Context {S : Type} (R : relation S) `{!PreOrder R}.

Lemma keeps_ret {A} (a : A) : keeps R (mret a).
Proof. by intros s. Qed.

Lemma keeps_throw {A} e : keeps R (throw (A := A) e).
Proof. by intros s. Qed.

Lemma keeps_gets {A} (g : S → A) : keeps R (gets g).
Proof. by intros s. Qed.

Lemma keeps_modify g : (∀ s, R s (g s)) → keeps R (modify g).
Proof. intros Hg s. apply Hg. Qed.

Lemma keeps_mbind {A B} (m : Js S A) (k : A → Js S B) :
  keeps R m → (∀ a, keeps R (k a)) → keeps R (m ≫= k).
Proof.
  intros Hm Hk s. unfold mbind, Js_bind. specialize (Hm s).
  destruct (m s) as [[a|e] s1]; cbn in *; [|done].
  by etrans; [|apply Hk].
Qed.

Lemma keeps_bind {A B} (m : Js S A) (k : A → Js S B) :
  keeps R m → (∀ a, keeps R (k a)) → keeps R (bind m k).
Proof. apply keeps_mbind. Qed.

Lemma keeps_try_catch {A} (m : Js S A) (h : Exn → Js S A) :
  keeps R m → (∀ e, keeps R (h e)) → keeps R (try_catch m h).
Proof.
  intros Hm Hh s. unfold try_catch. specialize (Hm s).
  destruct (m s) as [[a|e] s1]; cbn in *; [done|].
  by etrans; [|apply Hh].
Qed.

Lemma keeps_forEach {A} (l : list A) (body : A → Js S unit) :
  (∀ x, keeps R (body x)) → keeps R (forEach l body).
Proof.
  intros Hb. induction l as [|x l IH]; [by intros s|].
  cbn [forEach]. apply keeps_mbind; [apply Hb|done].
Qed.

End Frame.

Global Instance same_preorder {S X} (f : S → X) : PreOrder (same f).
Proof. split; [done|]. intros s1 s2 s3. unfold same. congruence. Qed.

Create HintDb frame discriminated.

Ltac head_of m :=
  lazymatch m with
  | ?f _ => head_of f
  | _ => m
  end.

(** [frame leaf] proves [keeps R m] along the structure of [m]; [leaf]
    proves [R s (g s)] for the state updates. *)
Ltac frame_step leaf :=
  lazymatch goal with
  | |- keeps _ (mret _) => apply keeps_ret; tc_solve
  | |- keeps _ (throw _) => apply keeps_throw; tc_solve
  | |- keeps _ (bind _ _) => apply keeps_bind; [tc_solve| |intros ?]
  | |- keeps _ (_ ≫= _) => apply keeps_mbind; [tc_solve| |intros ?]
  | |- keeps _ (try_catch _ _) => apply keeps_try_catch; [tc_solve| |intros ?]
  | |- keeps _ (forEach _ _) => apply keeps_forEach; [tc_solve|intros ?]
  | |- keeps _ (gets _) => apply keeps_gets; tc_solve
  | |- keeps _ (modify _) => apply keeps_modify; intros [??]; leaf
  | |- keeps _ (match ?x with _ => _ end) => destruct x
  | |- keeps _ (let (_, _) := ?x in _) => destruct x
  | |- keeps _ ?m =>
      first [solve [auto with frame]
            |let h := head_of m in unfold h]
  end.

Tactic Notation "frame" "by" tactic3(leaf) := repeat frame_step leaf.

(** ** Connections and timers over time *)

Section TransportFrames.
Import Window BluetoothService.

(** *** The table of connections *)

Lemma run_callback_connections cb :
  keeps (same connections_of) (run_callback cb).
Proof. destruct cb; cbn [run_callback]; frame by reflexivity. Qed.

Lemma fire_connections id : keeps (same connections_of) (fire id).
Proof.
  pose proof run_callback_connections. frame by reflexivity.
Qed.

Lemma time_event_connections refuses ev s :
  time_event ev = true → connections (step refuses ev s).2 = connections s.2.
Proof.
  intros Hev. unfold step. destruct ev; try done; cbn [handle].
  apply fire_connections.
Qed.

Lemma time_events_connections refuses evs s :
  forallb time_event evs = true →
  connections (run refuses evs s).2 = connections s.2.
Proof.
  revert s. induction evs as [|ev evs IH]; intros s; [done|].
  cbn [forallb]. intros [Hev Hevs]%andb_true_iff.
  unfold run. cbn [foldl]. fold (run refuses evs (step refuses ev s)).
  by rewrite IH, time_event_connections.
Qed.

(** *** The timers *)

Lemma initiateConnectionToPeer_timers refuses peerId :
  keeps (same timers_of) (initiateConnectionToPeer refuses peerId).
Proof. frame by reflexivity. Qed.

Lemma initiateConnectionToPeer_resume_timers pc peerId offer :
  keeps (same timers_of) (initiateConnectionToPeer_resume pc peerId offer).
Proof. frame by reflexivity. Qed.

(** C5, as the code has it: starting a negotiation arms no timer, neither
    before nor after the offer is created; whatever time passes and whichever
    timers fire, the table of connections stays as it was, and a connection
    request for a peer that has an entry remains a no-op. *)
Theorem negotiation_has_no_timeout refuses peerId s :
  timers (initiateConnectionToPeer refuses peerId s).2.1 = timers s.1 ∧
  (∀ pc offer,
     timers (initiateConnectionToPeer_resume pc peerId offer s).2.1 = timers s.1) ∧
  ∀ evs, forallb time_event evs = true →
    connections (run refuses evs s).2 = connections s.2 ∧
    (is_Some (connections s.2 !! peerId) →
     connectToPeer refuses peerId (run refuses evs s) =
       (Normal (), run refuses evs s)).
Proof.
  split; [|split].
  - by pose proof (initiateConnectionToPeer_timers refuses peerId s) as [= ->].
  - intros pc offer.
    by pose proof (initiateConnectionToPeer_resume_timers pc peerId offer s)
      as [= ->].
  - intros evs Hevs.
    pose proof (time_events_connections refuses evs s Hevs) as Hc.
    split; [done|]. intros Hsome. unfold connectToPeer.
    apply initiateConnectionToPeer_existing. by rewrite Hc.
Qed.

End TransportFrames.

(** ** The simulated discovery *)

Section Fallback.
Import Window BluetoothService.

(** *** Timers that are armed *)

Global Instance not_more_preorder P : PreOrder (not_more P).
Proof.
  split; [intros s; unfold not_more; lia|].
  intros s1 s2 s3. unfold not_more. lia.
Qed.

Lemma length_filter_filter {A} (P Q : A → bool) (l : list A) :
  (length (List.filter P (List.filter Q l)) ≤ length (List.filter P l))%nat.
Proof.
  induction l as [|x l IH]; [done|]. cbn.
  destruct (Q x); cbn; destruct (P x); cbn; lia.
Qed.


Lemma setTimeout_not_more P cb delay :
  P cb = false → keeps (not_more P) (setTimeout (T := t) cb delay).
Proof.
  intros HP [w b]. unfold not_more, armed, setTimeout. run_js. cbn.
  rewrite List.filter_app, length_app. cbn. rewrite HP. cbn. lia.
Qed.

Lemma setInterval_not_more P cb delay :
  P cb = false → keeps (not_more P) (setInterval (T := t) cb delay).
Proof.
  intros HP [w b]. unfold not_more, armed, setInterval. run_js. cbn.
  rewrite List.filter_app, length_app. cbn. rewrite HP. cbn. lia.
Qed.

Lemma clearTimeout_not_more P id :
  keeps (not_more P) (clearTimeout (T := t) id).
Proof.
  intros [w b]. unfold not_more, armed, clearTimeout. run_js. cbn.
  apply length_filter_filter.
Qed.

End Fallback.

Global Hint Resolve setTimeout_not_more setInterval_not_more
  clearTimeout_not_more : frame.
Global Hint Extern 1 (_ = false) => reflexivity : frame.



Section FallbackCauses.
Import Window BluetoothService.










End FallbackCauses.

(** ** What arms the fallback timer *)

Section FallbackArmed.
Import Window BluetoothService.

Ltac run_js_in H :=
  unfold bind, mbind, Js_bind, mret, Js_ret, Window.this, Window.update,
    Window.read, Window.write, gets, modify, try_catch, throw in H;
  cbn beta iota zeta delta [fst snd] in H.
Tactic Notation "run_js" "in" hyp(H) := run_js_in H.

Ltac fields :=
  cbn [fst snd now location_host localStorage entropy drawn timers nextTimer
       webSocketAllowed rtcAvailable socketObjects connectionObjects
       channelObjects suspended set_now set_localStorage set_drawn set_timers
       set_socketObjects set_connectionObjects set_channelObjects
       set_suspended peers discoveredPeers isScanning isAdvertising delegate
       connections dataChannels roomId signalingWs myId delegated set_peers
       set_discoveredPeers set_isScanning set_isAdvertising set_delegate
       set_connections set_dataChannels set_signalingWs set_myId
       set_delegated ws_url ws_readyState ws_sent ws_use].



















End FallbackArmed.

(** ** The sessions of the examples *)

Section Examples.
Import Window BluetoothService.

(** C1 does not hold: Alice holds the session key 42 for Bob, whose
    channel is open; [sendPrivateMessage] returns true and writes one text
    frame to the channel, the JSON envelope with the content readable in it,
    which is no ciphertext under the key. *)
Lemma private_message_written_in_clear :
  let r := @ChatService.sendPrivateMessage xor_gcm (js "Bob") (js "hi")
             (bob_window, bob_chat) in
  let clear :=
    Text (json "{'id':'030a11181f262d343b424950575e656c','type':'private','from':'Alice','to':'Bob','content':'hi','timestamp':'2023-11-14T22:13:20.000Z'}") in
  @CryptoService.sessionKeys xor_gcm (ChatService.cryptoService (bob_window, bob_chat).2)
    !! bob_id = Some 42 ∧
  r.1 = Normal true ∧
  dc_sent <$> channelObjects r.2.1 !! 0%nat = Some [clear] ∧
  ∀ iv, clear ≠ Binary (iv ++ @subtle_encrypt xor_gcm 42 iv
                                (Encoding.TextEncoder_encode (js "hi"))).
Proof.
  cbv zeta. split; [vm_compute; reflexivity|].
  split; [vm_compute; reflexivity|]. split; [vm_compute; reflexivity|].
  intros iv. discriminate.
Qed.

(** C1, as the code has it, for Alice's message to Bob. *)
Lemma private_message_sent_as_json_witness :
  ∃ s',
    @ChatService.sendPrivateMessage xor_gcm (js "Bob") (js "hi")
      (bob_window, bob_chat) = (Normal true, s') ∧
    channelObjects s'.1 !! 0%nat =
      Some (mkDataChannel (dc_label bob_channel) (dc_connection bob_channel)
              (dc_readyState bob_channel)
              (dc_sent bob_channel ++
                 [Text (JSON.stringify
                          (@outgoing_private xor_gcm (bob_window, bob_chat)
                             (js "Bob") (js "hi")))])
              (dc_refuses bob_channel) (dc_handlers bob_channel)) ∧
    (∀ dc', dc' ≠ 0%nat →
            channelObjects s'.1 !! dc' = channelObjects bob_window !! dc') ∧
    ChatService.cryptoService s'.2 = ChatService.cryptoService bob_chat.
Proof.
  apply (@private_message_sent_as_json xor_gcm (js "Bob") (js "hi")
           (bob_window, bob_chat)
           (mkPeer bob_id (js "Bob") true 1699999990000 (-50) 1699999995000)
           0%nat bob_channel); vm_compute; reflexivity.
Defined.

(** C3 does not hold: Alice and Carol join the same room; Carol is told
    of Alice by room-joined and Alice of Carol by peer-joined, and each of
    them sends an offer to the other. *)
Lemma both_sides_initiate :
  offers_sent alice_after_joins = [carol_id] ∧
  offers_sent carol_after_joins = [alice_id].
Proof. split; vm_compute; reflexivity. Qed.

(** C3, as the code has it, for Carol who is told of the members of the
    room, of whom the second has no connection yet. *)
Lemma discovery_makes_initiator_witness :
  let s := client_in_room carol_id shared_room in
  let s1 := step (λ _, false)
              (SocketMessage 0
                 (msg_room_joined shared_room [alice_id; silent_peer])) s in
  ∃ pc k,
    (length (connectionObjects s.1) ≤ pc)%nat ∧
    (length (suspended s.1) ≤ k)%nat ∧
    connections s1.2 !! silent_peer = Some pc ∧
    connectionObjects s1.1 !! pc =
      Some (mkPeerConnection cs_new None None [] (Some silent_peer)) ∧
    suspended s1.1 !! k = Some (Some (await_offer pc silent_peer)) ∧
    offers_sent (step (λ _, false)
                   (Settled k (Some (mkDescription sdp_offer (js "v=0")))) s1) =
      offers_sent s ++ [silent_peer].
Proof.
  apply (discovery_makes_initiator (λ _, false)
           (client_in_room carol_id shared_room) 0%nat
           (mkWebSocket (js "ws://localhost:8000/signaling") OPEN
              [msg_join shared_room carol_id] signaling)
           carol_id silent_peer [alice_id; silent_peer] shared_room);
    [vm_compute; reflexivity ..| | |vm_compute; reflexivity
    |vm_compute; reflexivity|].
  - vm_compute. discriminate.
  - vm_compute. discriminate.
  - right. split; [reflexivity|].
    apply list_elem_of_further, list_elem_of_here.
Defined.



(** C5 does not hold: thirty seconds after the offer was sent to a peer
    that never answers, no timer is pending or has fired, the connection
    entry for the peer is still there, in state new and without remote
    description, and a new connection request for the peer does nothing. *)
Lemma negotiation_outlives_timeout :
  offers_sent offer_sent = [silent_peer] ∧
  now thirty_seconds_later.1 = now offer_sent.1 + 30000 ∧
  timers thirty_seconds_later.1 = [] ∧
  connections thirty_seconds_later.2 !! silent_peer = Some 0%nat ∧
  connectionObjects thirty_seconds_later.1 !! 0%nat =
    Some (mkPeerConnection cs_new (Some (mkDescription sdp_offer (js "v=0")))
            None [] (Some silent_peer)) ∧
  connectToPeer (λ _, false) silent_peer thirty_seconds_later =
    (Normal (), thirty_seconds_later).
Proof. repeat split; vm_compute; reflexivity. Qed.

(** C5, as the code has it, for that negotiation and thirty seconds. *)
Lemma negotiation_has_no_timeout_witness :
  connections (run (λ _, false) [Elapse 30000] offer_sent).2 =
    connections offer_sent.2 ∧
  connectToPeer (λ _, false) silent_peer
    (run (λ _, false) [Elapse 30000] offer_sent) =
    (Normal (), run (λ _, false) [Elapse 30000] offer_sent).
Proof.
  destruct (negotiation_has_no_timeout (λ _, false) silent_peer offer_sent)
    as (_ & _ & Hevs).
  destruct (Hevs [Elapse 30000] eq_refl) as [Hc Hn].
  split; [exact Hc|]. apply Hn. vm_compute. by eexists.
Defined.

(** C6 for the peer to which an offer has been sent. *)
Lemma connect_existing_is_noop_witness :
  is_Some (connections offer_sent.2 !! silent_peer) ∧
  initiateConnectionToPeer (λ _, false) silent_peer offer_sent =
    (Normal (), offer_sent) ∧
  connectToPeer (λ _, false) silent_peer offer_sent = (Normal (), offer_sent).
Proof.
  assert (is_Some (connections offer_sent.2 !! silent_peer)) as Hc.
  { vm_compute. by eexists. }
  split; [exact Hc|].
  exact (connect_existing_is_noop (λ _, false) silent_peer offer_sent Hc).
Defined.

(** C7 does not hold: Bob is in the table of peers and his channel is
    open, but its buffer is full and [send] throws; [sendToPeer] returns
    false. *)
Lemma sendToPeer_open_channel_fails :
  let s := (congested_window, bob_transport) in
  JsMap.has bob_id (peers s.2) = true ∧
  dc_readyState <$> channel_of s bob_id = Some OPEN ∧
  sendToPeer bob_id (Text (js "hi")) s = (Normal false, s).
Proof. cbv zeta. repeat split; vm_compute; reflexivity. Qed.

(** C7, as the code has it: a send to an unknown peer, and one to Bob. *)
Lemma sendToPeer_result_witness :
  sendToPeer (js "peer-0000") (Text (js "hi")) (bob_window, bob_transport) =
    (Normal false, (bob_window, bob_transport)) ∧
  sendToPeer bob_id (Text (js "hi")) (bob_window, bob_transport) =
    (Normal true, (written 0 (Text (js "hi")) bob_window, bob_transport)).
Proof.
  split.
  - apply (sendToPeer_result (js "peer-0000") (Text (js "hi"))
             (bob_window, bob_transport)).
    intros dc c Hdc. vm_compute in Hdc. discriminate Hdc.
  - apply (proj2 (sendToPeer_result bob_id (Text (js "hi"))
                    (bob_window, bob_transport)) 0%nat bob_channel);
      vm_compute; reflexivity.
Defined.

(** C8 for a broadcast with Bob as the only peer. *)
Lemma broadcastMessage_counts_witness :
  ∃ s', broadcastMessage (Text (js "hi")) (bob_window, bob_transport) =
          (Normal 1%nat, s') ∧
        Text (js "hi") ∈ sent_to s' bob_id.
Proof.
  destruct (broadcastMessage_counts (Text (js "hi")) (bob_window, bob_transport))
    as (s' & Hrun & _ & _ & Hsent & _).
  exists s'. split; [exact Hrun|].
  apply Hsent; [vm_compute; left|vm_compute; reflexivity].
Defined.

End Examples.


(** C9 for a table of two tabs. *)
Lemma electLeader_smallest_key_witness :
  two_tabs ≠ ∅ ∧
  ∃ leader, leader ∈ dom two_tabs ∧
    ∀ s, CrossTabService.myTabId s ∈ dom two_tabs →
         (CrossTabService.isLeader (CrossTabService.electLeader two_tabs s).1 = true ↔
          CrossTabService.myTabId s = leader).
Proof.
  assert (two_tabs ≠ ∅) as Hne.
  { intros Heq. apply (f_equal (λ m, m !! js "tab-a7c2m4z8q-1700000000900")) in Heq.
    vm_compute in Heq. discriminate Heq. }
  split; [exact Hne|].
  exact (proj1 (proj2 (electLeader_smallest_key two_tabs)) Hne).
Defined.

(** * Properties of the rest of the services *)

(** ** Base64 *)

Lemma forallb_Forall {A} (f : A → bool) l :
  Forall (λ x, f x = true) l → forallb f l = true.
Proof. induction 1 as [|x l Hx _ IH]; [done|]. cbn. by rewrite Hx, IH. Qed.

Section Base64Facts.
Import Base64.

Lemma sextet_cases (P : N → Prop) :
  Forall P (N.of_nat <$> seq 0 64) → ∀ i, i < 64 → P i.
Proof.
  intros HF i Hi. rewrite Forall_forall in HF. apply HF.
  apply list_elem_of_fmap. exists (N.to_nat i). split; [lia|].
  apply elem_of_seq. lia.
Qed.

Lemma base64_index_char i : i < 64 → base64_index (base64_char i) = Some i.
Proof.
  revert i. apply sextet_cases. cbn [seq fmap list_fmap].
  repeat (constructor; [reflexivity|]). constructor.
Qed.

Lemma base64_char_alphabet i : i < 64 →
  base64_char i ≠ 61 ∧ is_ascii_whitespace (base64_char i) = false.
Proof.
  revert i. apply sextet_cases. cbn [seq fmap list_fmap].
  repeat (constructor; [split; [discriminate|reflexivity]|]). constructor.
Qed.

Lemma triple_ind {A} (P : list A → Prop) :
  P [] → (∀ a, P [a]) → (∀ a b, P [a; b]) →
  (∀ a b c l, P l → P (a :: b :: c :: l)) → ∀ l, P l.
Proof.
  intros H0 H1 H2 H3 l.
  assert (P l ∧ (∀ a, P (a :: l)) ∧ ∀ a b, P (a :: b :: l)) as [? _]; [|done].
  induction l as [|x l (IH0 & IH1 & IH2)]; [by auto|].
  split; [apply IH1|]. split; [intros a; apply IH2|]. intros a b. by apply H3.
Qed.

Lemma mod3_SSS n : (S (S (S n)) mod 3 = n mod 3)%nat.
Proof. rewrite <-(Nat.Div0.mod_add n 1 3). f_equal. lia. Qed.

Lemma mod4_SSSS n : (S (S (S (S n))) mod 4 = n mod 4)%nat.
Proof. rewrite <-(Nat.Div0.mod_add n 1 4). f_equal. lia. Qed.

Lemma encode_sextets l :
  encode l = (base64_char <$> sextets l) ++ padding l.
Proof.
  induction l as [|a|a b|a b c l IH] using triple_ind; try reflexivity.
  cbn [encode sextets fmap list_fmap app]. rewrite IH. do 4 f_equal.
  unfold padding. cbn [length]. by rewrite mod3_SSS.
Qed.

Lemma sextets_bound l :
  Forall (λ b, b < 256) l → Forall (λ i, i < 64) (sextets l).
Proof.
  induction l as [|a|a b|a b c l IH] using triple_ind; intros Hl;
    cbn [sextets]; repeat apply Forall_cons in Hl as [? Hl];
    repeat (apply Forall_cons; split; [lia|]); auto.
Qed.

Lemma length_sextets l :
  (length (sextets l) mod 4)%nat ≠ 1%nat ∧
  ((length (sextets l) + length (padding l)) mod 4)%nat = 0%nat.
Proof.
  induction l as [|a|a b|a b c l IH] using triple_ind;
    try (split; [discriminate|reflexivity]).
  unfold padding in *. cbn [sextets length plus].
  by rewrite mod3_SSS, !mod4_SSSS.
Qed.

Lemma decode_sextets l : Forall (λ b, b < 256) l → decode (sextets l) = l.
Proof.
  induction l as [|a|a b|a b c l IH] using triple_ind; intros Hl;
    repeat apply Forall_cons in Hl as [? Hl]; cbn [sextets decode].
  - done.
  - f_equal. lia.
  - f_equal; [lia|]. f_equal. lia.
  - rewrite IH by done. f_equal; [lia|]. f_equal; [lia|]. f_equal. lia.
Qed.

Lemma strip_padding_app body pad :
  Forall (λ c, c ≠ 61) body →
  pad = [] ∨ pad = [61] ∨ pad = [61; 61] →
  (length (body ++ pad) mod 4)%nat = 0%nat →
  strip_padding (body ++ pad) = body.
Proof.
  intros Hbody Hpad Hlen. unfold strip_padding.
  rewrite decide_True by done. rewrite reverse_app.
  assert (∀ x r, reverse body = x :: r → (x =? 61) = false) as Hlast.
  { intros x r Hr. apply N.eqb_neq. rewrite Forall_forall in Hbody.
    apply Hbody. rewrite <-elem_of_reverse, Hr. left. }
  destruct Hpad as [->|[->| ->]];
    [change (reverse []) with (@nil N)|change (reverse [61]) with [61]
    |change (reverse [61; 61]) with [61; 61]]; cbn [app].
  - rewrite app_nil_r.
    destruct (reverse body) as [|x [|y r]] eqn:Hr; [done|..];
      rewrite (Hlast _ _ eq_refl); done.
  - destruct (reverse body) as [|y r] eqn:Hr.
    + cbn. apply (f_equal reverse) in Hr. by rewrite reverse_involutive in Hr.
    + rewrite N.eqb_refl, (Hlast _ _ eq_refl).
      by rewrite <-Hr, reverse_involutive.
  - rewrite !N.eqb_refl. apply reverse_involutive.
Qed.

Lemma elem_of_strip_padding c data :
  c ∈ data → c ≠ 61 → c ∈ strip_padding data.
Proof.
  intros Hc Hne. unfold strip_padding. destruct (decide _); [|done].
  pose proof (proj2 (elem_of_reverse c data) Hc) as Hc'.
  destruct (reverse data) as [|x [|y r]] eqn:Hr; [done|..].
  - destruct (N.eqb_spec x 61) as [->|]; [|done].
    by apply list_elem_of_singleton in Hc'.
  - destruct (N.eqb_spec x 61) as [->|]; [|done].
    apply elem_of_cons in Hc' as [?|Hc']; [done|].
    destruct (N.eqb_spec y 61) as [->|]; rewrite elem_of_reverse; [|done].
    by apply elem_of_cons in Hc' as [?|Hc'].
Qed.

Lemma padding_cases l :
  padding l = [] ∨ padding l = [61] ∨ padding l = [61; 61].
Proof.
  unfold padding. destruct (length l mod 3)%nat as [|[|[|?]]]; auto.
Qed.

Lemma atob_encode data :
  Forall (λ b, b < 256) data → atob (encode data) = Normal data.
Proof.
  intros Hdata. unfold atob. cbv zeta.
  pose proof (sextets_bound data Hdata) as Hsx.
  pose proof (length_sextets data) as [Hlen1 Hlen0].
  assert (Forall (λ c, c ≠ 61 ∧ is_ascii_whitespace c = false)
            (base64_char <$> sextets data)) as Hbody.
  { apply Forall_fmap. eapply Forall_impl; [exact Hsx|].
    intros i Hi. by apply base64_char_alphabet. }
  rewrite forallb_filter_id.
  2:{ rewrite encode_sextets. apply forallb_Forall.
      apply Forall_app. split.
      - eapply Forall_impl; [exact Hbody|]. by intros c [_ ->].
      - destruct (padding_cases data) as [->|[->| ->]];
          repeat constructor. }
  rewrite encode_sextets, strip_padding_app.
  - rewrite decide_False by (by rewrite length_fmap).
    rewrite mapM_fmap_Forall_Some.
    + by rewrite decode_sextets.
    + eapply Forall_impl; [exact Hsx|]. apply base64_index_char.
  - eapply Forall_impl; [exact Hbody|]. by intros c [? _].
  - apply padding_cases.
  - by rewrite length_app, length_fmap.
Qed.

Lemma length_encode data :
  length (encode data) = (4 * ((length data + 2) / 3))%nat.
Proof.
  induction data as [|a|a b|a b c l IH] using triple_ind; try reflexivity.
  cbn [encode length]. rewrite IH.
  replace (S (S (S (length l))) + 2)%nat with (length l + 2 + 1 * 3)%nat by lia.
  rewrite Nat.div_add by done. lia.
Qed.

End Base64Facts.

(** ** The service's helpers *)

Section CryptoHelpers.
Context `{AesGcm}.
Import Window CryptoService.

(** X1: for an array of bytes, every element below 256, that has no more
    elements than the engine accepts as arguments of one call, [toBase64]
    returns a text of four characters for every three bytes or part of
    three, and [fromBase64] of that text returns the same bytes; for a
    longer array [toBase64] throws the [RangeError] of
    [String.fromCharCode(...data)]. *)
Theorem fromBase64_toBase64 (max_arguments : nat) (data : bytes) :
  Forall (λ b, b < 256) data →
  if decide (length data ≤ max_arguments)%nat
  then ∃ text,
         toBase64 max_arguments data = Normal text ∧
         length text = (4 * ((length data + 2) / 3))%nat ∧
         fromBase64 text = Normal data
  else toBase64 max_arguments data = Throw RangeError.
Proof.
  intros Hdata. unfold toBase64.
  destruct (decide (length data ≤ max_arguments)%nat) as [Hfits|Hlong]; [|done].
  exists (Base64.encode data).
  assert ((λ b, b mod 65536) <$> data = data) as Hunits.
  { rewrite <-(list_fmap_id data) at 2. apply Forall_fmap_ext.
    eapply Forall_impl; [exact Hdata|]. intros b Hb.
    cbn beta in *. unfold id. apply N.mod_small. lia. }
  assert ((λ c, c mod 256) <$> data = data) as Hoctets.
  { rewrite <-(list_fmap_id data) at 2. apply Forall_fmap_ext.
    eapply Forall_impl; [exact Hdata|]. intros b Hb.
    cbn beta in *. unfold id. apply N.mod_small. lia. }
  split; [|split].
  - unfold Base64.btoa. rewrite Hunits.
    replace (forallb _ data) with true; [done|]. symmetry.
    apply forallb_Forall.
    eapply Forall_impl; [exact Hdata|]. intros b Hb. cbn beta in *. apply N.leb_le. lia.
  - apply length_encode.
  - unfold fromBase64. by rewrite atob_encode, Hoctets.
Qed.

(** X2: [fromBase64] throws the [InvalidCharacterError] of [atob], which it
    does not catch, when the text without its ASCII whitespace has a length
    of 1 modulo 4, and when the text has a character that is neither ASCII
    whitespace, nor [=], nor one of the 64 characters of the alphabet. *)
Theorem fromBase64_rejects (base64 : jsstring) :
  ((length (List.filter (λ c, negb (Base64.is_ascii_whitespace c)) base64)
      mod 4)%nat = 1%nat ∨
   ∃ c, c ∈ base64 ∧ Base64.is_ascii_whitespace c = false ∧ c ≠ 61 ∧
        Base64.base64_index c = None) →
  fromBase64 base64 = Throw Base64.InvalidCharacterError.
Proof.
  unfold fromBase64, Base64.atob. cbv zeta.
  set (data := List.filter _ base64). intros [Hlen|(c & Hc & Hws & Hne & Hidx)].
  - unfold Base64.strip_padding.
    destruct (decide (length data mod 4 = 0)%nat) as [H0|_].
    + rewrite Hlen in H0. discriminate H0.
    + by rewrite decide_True.
  - destruct (decide _); [done|].
    rewrite mapM_None_2; [done|]. apply Exists_exists. exists c. split; [|done].
    apply elem_of_strip_padding; [|done].
    apply list_elem_of_In, filter_In. split; [by apply list_elem_of_In|].
    by rewrite Hws.
Qed.

Lemma octet_cases (P : N → Prop) :
  Forall P (N.of_nat <$> seq 0 256) → ∀ i, i < 256 → P i.
Proof.
  intros HF i Hi. rewrite Forall_forall in HF. apply HF.
  apply list_elem_of_fmap. exists (N.to_nat i). split; [lia|].
  apply elem_of_seq. lia.
Qed.

Lemma hex_digit_is_hex d : d < 16 → is_hex_digit (JSON.hex_digit d).
Proof.
  intros Hd. unfold JSON.hex_digit, is_hex_digit.
  destruct (N.ltb_spec d 10); lia.
Qed.

Lemma octet_two_digits b :
  b < 256 →
  padStart 2 48 (toString16 b) =
    [JSON.hex_digit (b / 16); JSON.hex_digit (b mod 16)].
Proof.
  intros Hb. unfold padStart, toString16.
  destruct (N.ltb_spec b 16) as [Hlt|Hge]; cbn; [|done].
  by replace (b / 16) with 0 by lia.
Qed.

Lemma message_id_digits (l : bytes) :
  Forall (λ b, b < 256) l →
  length (flat_map (λ b, padStart 2 48 (toString16 b)) l) = (2 * length l)%nat ∧
  Forall is_hex_digit (flat_map (λ b, padStart 2 48 (toString16 b)) l).
Proof.
  induction 1 as [|b l Hb _ [IHlen IHhex]]; [done|].
  cbn [flat_map]. rewrite octet_two_digits by done. cbn [app length]. split.
  - rewrite IHlen. lia.
  - repeat (apply Forall_cons; split); [apply hex_digit_is_hex; lia..|done].
Qed.

(** X3: [generateMessageId] returns 32 characters, each a digit or a letter
    from [a] to [f]; it draws sixteen random bytes and leaves the service as
    it was. *)
Theorem generateMessageId_hex (s : Window * CryptoService.t) :
  ∃ id s',
    generateMessageId s = (Normal id, s') ∧
    length id = 32%nat ∧
    Forall is_hex_digit id ∧
    drawn s'.1 = (drawn s.1 + 16)%nat ∧
    s'.2 = s.2.
Proof.
  rewrite generateMessageId_spec. do 2 eexists. split; [done|].
  unfold next_message_id.
  destruct (message_id_digits
              ((λ i, entropy s.1 (drawn s.1 + i)%nat mod 256) <$> seq 0 16))
    as [Hlen Hhex].
  { apply Forall_fmap, Forall_forall. intros i _. cbn. lia. }
  rewrite length_fmap, length_seq in Hlen. done.
Qed.

(** X4: after [storeSessionKey(peerId, key)], [getSessionKey(peerId)]
    returns [key], and [getSessionKey] of another peer returns what it
    returned before, nothing when no key was stored; the browser is left as
    it was. *)
Theorem getSessionKey_storeSessionKey peerId key other s :
  ∃ s',
    storeSessionKey peerId key s = (Normal (), s') ∧
    s'.1 = s.1 ∧
    getSessionKey other s' =
      (Normal (if decide (other = peerId) then Some key
               else sessionKeys s.2 !! other), s').
Proof.
  destruct s as [w c]. unfold storeSessionKey, getSessionKey. run_js.
  eexists. split; [done|]. split; [done|]. cbn.
  destruct (decide (other = peerId)) as [->|Hne].
  - by rewrite lookup_insert_eq.
  - by rewrite lookup_insert_ne.
Qed.

End CryptoHelpers.

(** The two bytes of [hi] in an engine that takes a hundred arguments,
    and a text of one character. *)
Lemma fromBase64_toBase64_witness :
  ∃ text,
    CryptoService.toBase64 100 [104; 105] = Normal text ∧
    length text = 4%nat ∧
    CryptoService.fromBase64 text = Normal [104; 105].
Proof.
  refine (fromBase64_toBase64 100 [104; 105] _).
  repeat (constructor; [reflexivity|]). constructor.
Defined.

Lemma fromBase64_rejects_witness :
  CryptoService.fromBase64 (js "a") = Throw Base64.InvalidCharacterError.
Proof.
  apply fromBase64_rejects. left. vm_compute. reflexivity.
Defined.

(** ** Insertion-ordered maps *)

Lemma omap_ext_elem {A B} (f g : A → option B) (l : list A) :
  (∀ x, x ∈ l → f x = g x) → omap f l = omap g l.
Proof.
  induction l as [|x l IH]; intros Hfg; [done|]. cbn.
  rewrite Hfg by left. rewrite IH; [done|]. intros y Hy. apply Hfg. by right.
Qed.

Lemma elem_of_List_filter {A} (f : A → bool) l x :
  x ∈ List.filter f l ↔ x ∈ l ∧ f x = true.
Proof. rewrite !list_elem_of_In. apply filter_In. Qed.

Lemma NoDup_List_filter {A} (f : A → bool) l :
  NoDup l → NoDup (List.filter f l).
Proof.
  induction 1 as [|x l Hx _ IH]; cbn; [constructor|].
  destruct (f x); [|done]. constructor; [|done].
  rewrite elem_of_List_filter. by intros [? _].
Qed.

Section JsMapFacts.
Context {V : Type}.
Implicit Types (m : JsMap.t V) (k : jsstring) (v : V).

Lemma JsMap_get_set_eq k v m : JsMap.get k (JsMap.set k v m) = Some v.
Proof.
  unfold JsMap.get. induction m as [|[k' v'] m IH]; cbn.
  - by rewrite bool_decide_eq_true_2.
  - destruct (decide (k' = k)) as [->|Hne]; cbn.
    + by rewrite bool_decide_eq_true_2.
    + by rewrite bool_decide_eq_false_2.
Qed.

Lemma JsMap_get_set_ne k k' v m :
  k ≠ k' → JsMap.get k' (JsMap.set k v m) = JsMap.get k' m.
Proof.
  intros Hne. unfold JsMap.get. induction m as [|[k1 v1] m IH]; cbn.
  - by rewrite bool_decide_eq_false_2.
  - destruct (decide (k1 = k)) as [->|Hne1]; cbn.
    + by rewrite !bool_decide_eq_false_2.
    + destruct (bool_decide (k1 = k')); [done|apply IH].
Qed.

Lemma JsMap_set_set k v v' m :
  JsMap.set k v (JsMap.set k v' m) = JsMap.set k v m.
Proof.
  induction m as [|[k1 v1] m IH]; cbn.
  - by rewrite decide_True.
  - destruct (decide (k1 = k)) as [->|Hne]; cbn.
    + by rewrite decide_True.
    + by rewrite decide_False, IH.
Qed.

Lemma JsMap_Forall_set (P : jsstring * V → Prop) k v m :
  P (k, v) → Forall P m → Forall P (JsMap.set k v m).
Proof.
  intros Hv. induction 1 as [|[k1 v1] m H1 Hm IH]; cbn.
  - by constructor.
  - destruct (decide (k1 = k)); constructor; done.
Qed.

Lemma JsMap_Forall_delete (P : jsstring * V → Prop) k m :
  Forall P m → Forall P (JsMap.delete k m).
Proof.
  intros Hm. unfold JsMap.delete. rewrite Forall_forall in *.
  intros x Hx. apply Hm. apply list_elem_of_In. apply list_elem_of_In in Hx.
  by apply filter_In in Hx as [? _].
Qed.

Lemma JsMap_get_elem_of k v m : JsMap.get k m = Some v → (k, v) ∈ m.
Proof.
  unfold JsMap.get. induction m as [|[k1 v1] m IH]; cbn; [done|].
  destruct (bool_decide_reflect (k1 = k)) as [->|Hne]; cbn.
  - intros [= ->]. left.
  - intros Hg. right. by apply IH.
Qed.

Lemma JsMap_get_delete_eq k m : JsMap.get k (JsMap.delete k m) = None.
Proof.
  unfold JsMap.get, JsMap.delete. induction m as [|[k1 v1] m IH]; cbn; [done|].
  destruct (bool_decide_reflect (k1 = k)) as [->|Hne]; cbn; [done|].
  by rewrite bool_decide_eq_false_2.
Qed.

Lemma JsMap_get_delete_ne k k' m :
  k ≠ k' → JsMap.get k' (JsMap.delete k m) = JsMap.get k' m.
Proof.
  intros Hne. unfold JsMap.get, JsMap.delete.
  induction m as [|[k1 v1] m IH]; cbn; [done|].
  destruct (bool_decide_reflect (k1 = k)) as [->|Hne1]; cbn.
  - by rewrite bool_decide_eq_false_2.
  - destruct (bool_decide (k1 = k')); [done|apply IH].
Qed.

Lemma JsMap_delete_set k v m :
  JsMap.delete k (JsMap.set k v m) = JsMap.delete k m.
Proof.
  unfold JsMap.delete. induction m as [|[k1 v1] m IH]; cbn.
  - by rewrite bool_decide_eq_true_2.
  - destruct (decide (k1 = k)) as [->|Hne]; cbn.
    + by rewrite bool_decide_eq_true_2.
    + rewrite bool_decide_eq_false_2 by done. cbn. by rewrite IH.
Qed.

End JsMapFacts.

(** ** The signaling relay *)

Section RelayFacts.
Import Relay.

Lemma is_open_ready s s' c :
  readyState <$> clients s' !! c = readyState <$> clients s !! c →
  is_open s' c = is_open s c.
Proof.
  unfold is_open. destruct (clients s' !! c), (clients s !! c); cbn;
    intros Heq; try done. injection Heq as ->. done.
Qed.

Lemma clients_send ws m s c :
  clients (send ws m s) !! c =
    (if decide (c = ws) then sent_more [m] else id) <$> clients s !! c.
Proof.
  unfold send. cbn. destruct (decide (c = ws)) as [->|Hne].
  - by rewrite list_lookup_alter_eq.
  - rewrite list_lookup_alter_ne by done. by destruct (clients s !! c).
Qed.

Lemma is_open_send ws m s c : is_open (send ws m s) c = is_open s c.
Proof.
  apply is_open_ready. rewrite clients_send.
  destruct (decide _), (clients s !! c); done.
Qed.

Lemma foldl_send (P : nat → bool) m room s :
  NoDup room →
  let s' := foldl (λ s c, if P c && is_open s c then send c m s else s) s room in
  rooms s' = rooms s ∧
  ∀ c, clients s' !! c =
       (if bool_decide (c ∈ room) && P c && is_open s c
        then sent_more [m] else id) <$> clients s !! c.
Proof.
  intros Hnd. cbv zeta. revert s.
  induction Hnd as [|x l Hx Hl IH]; intros s.
  - split; [done|]. intros c. cbn. by destruct (clients s !! c).
  - cbn [foldl].
    set (s1 := if P x && is_open s x then send x m s else s).
    destruct (IH s1) as [Hrooms Hclients]. split.
    { rewrite Hrooms. subst s1. by destruct (_ && _). }
    intros c. rewrite Hclients.
    assert (is_open s1 c = is_open s c) as ->.
    { subst s1. destruct (_ && _); [apply is_open_send|done]. }
    assert (clients s1 !! c =
            (if bool_decide (c = x) && P x && is_open s x
             then sent_more [m] else id) <$> clients s !! c) as ->.
    { subst s1. destruct (bool_decide_reflect (c = x)) as [->|Hne]; cbn.
      - destruct (_ && _); [|by destruct (clients s !! x)].
        by rewrite clients_send, decide_True.
      - destruct (_ && _); [|by destruct (clients s !! c)].
        by rewrite clients_send, decide_False. }
    destruct (bool_decide_reflect (c = x)) as [->|Hne].
    + rewrite bool_decide_eq_false_2 by done.
      rewrite bool_decide_eq_true_2 by left. cbn.
      by destruct (_ && _), (clients s !! x).
    + rewrite (bool_decide_ext (c ∈ x :: l) (c ∈ l)).
      2:{ rewrite elem_of_cons. split; [by intros [?|?]|by right]. }
      cbn. by destruct (_ && _), (clients s !! c).
Qed.

Lemma relayMessage_spec ws r message s :
  NoDup (members s r) →
  rooms (relayMessage ws (Some r) message s) = rooms s ∧
  ∀ c, clients (relayMessage ws (Some r) message s) !! c =
       (if bool_decide (c ∈ members s r) && negb (bool_decide (c = ws)) &&
           is_open s c
        then sent_more [message] else id) <$> clients s !! c.
Proof.
  unfold members, relayMessage. cbn [mbind option_bind].
  destruct (JsMap.get r (rooms s)) as [room|]; cbn [default].
  - apply foldl_send.
  - intros _. split; [done|]. intros c. cbn. by destruct (clients s !! c).
Qed.

Lemma members_join_start r s :
  default [] (JsMap.get r
    (rooms (if JsMap.has r (rooms s) then s
            else mk (clients s) (JsMap.set r [] (rooms s))))) = members s r.
Proof.
  unfold members, JsMap.has.
  destruct (JsMap.get r (rooms s)) as [room|] eqn:Hr.
  - rewrite bool_decide_eq_true_2 by eauto. by rewrite Hr.
  - rewrite bool_decide_eq_false_2 by (by intros [? ?]).
    cbn [rooms]. by rewrite JsMap_get_set_eq.
Qed.

Lemma NoDup_Set_add ws room : NoDup room → NoDup (Set_add ws room).
Proof.
  intros Hnd. unfold Set_add. destruct (decide _); [done|].
  apply NoDup_app. split; [done|]. split; [|apply NoDup_singleton].
  intros x Hx ->%list_elem_of_singleton. done.
Qed.

Lemma filter_Set_add ws room :
  List.filter (λ client, negb (bool_decide (client = ws))) (Set_add ws room) =
  List.filter (λ client, negb (bool_decide (client = ws))) room.
Proof.
  unfold Set_add. destruct (decide _); [done|].
  rewrite List.filter_app. cbn. rewrite bool_decide_eq_true_2 by done. cbn.
  apply app_nil_r.
Qed.

Lemma joinRoom_spec ws r p s o :
  NoDup (members s r) →
  clients s !! ws = Some o →
  let s' := joinRoom ws r p s in
  members s' r = Set_add ws (members s r) ∧
  (∀ r', r' ≠ r → JsMap.get r' (rooms s') = JsMap.get r' (rooms s)) ∧
  (∀ c, c ≠ ws →
     clients s' !! c =
       (if bool_decide (c ∈ members s r) && is_open s c
        then sent_more [msg_peer_joined p r] else id) <$> clients s !! c) ∧
  clients s' !! ws =
    Some (mkClient (readyState o) (Some r) (Some p)
            (outbox o ++
               [msg_room_joined r
                  (omap (truthy_peerId s)
                     (List.filter (λ c, negb (bool_decide (c = ws)))
                        (members s r)))])).
Proof.
  intros Hnd Hws. cbv zeta. unfold joinRoom. cbv zeta.
  rewrite members_join_start.
  set (s0 := if JsMap.has r (rooms s) then s else _).
  assert (clients s0 = clients s) as Hc0 by (subst s0; by destruct (JsMap.has _ _)).
  assert (∀ c, is_open s0 c = is_open s c) as Ho0.
  { intros c. unfold is_open. by rewrite Hc0. }
  destruct (foldl_send (λ c, negb (bool_decide (c = ws)))
              (msg_peer_joined p r) (members s r) s0 Hnd) as [Hrooms Hclients].
  cbv zeta in Hrooms, Hclients.
  set (s1 := foldl _ s0 (members s r)) in *.
  assert (JsMap.set r (Set_add ws (members s r)) (rooms s1) =
          JsMap.set r (Set_add ws (members s r)) (rooms s)) as Hset.
  { rewrite Hrooms. subst s0. destruct (JsMap.has _ _); [done|].
    apply JsMap_set_set. }
  rewrite Hset.
  assert (∀ c, c ≠ ws →
            truthy_peerId
              (mk (alter (λ c, mkClient (readyState c) (Some r) (Some p) (outbox c))
                     ws (clients s1))
                  (JsMap.set r (Set_add ws (members s r)) (rooms s))) c =
            truthy_peerId s c) as Hpeer.
  { intros c Hne. unfold truthy_peerId. cbn [clients].
    rewrite list_lookup_alter_ne by done. rewrite Hclients, Hc0.
    by destruct (_ && _), (clients s !! c). }
  split; [|split; [|split]].
  - unfold members, send. cbn [rooms]. by rewrite JsMap_get_set_eq.
  - intros r' Hne. unfold send. cbn [rooms]. by apply JsMap_get_set_ne.
  - intros c Hne. rewrite clients_send, decide_False by done. cbn [clients].
    rewrite list_lookup_alter_ne by done. rewrite Hclients, Hc0, Ho0.
    rewrite (bool_decide_eq_false_2 (c = ws)) by done. cbn [negb].
    rewrite andb_true_r. by destruct (_ && _), (clients s !! c).
  - rewrite clients_send, decide_True by done. cbn [clients].
    rewrite list_lookup_alter_eq, Hclients, Hc0, Hws.
    rewrite (bool_decide_eq_true_2 (ws = ws)) by done. cbn [negb].
    rewrite andb_false_r. unfold sent_more.
    cbn [fmap option_fmap option_map id readyState roomId peerId outbox].
    rewrite filter_Set_add. erewrite omap_ext_elem; [reflexivity|].
    intros c Hc. apply Hpeer.
    apply list_elem_of_In, filter_In in Hc as [_ Hc].
    by apply negb_true_iff, bool_decide_eq_false in Hc.
Qed.

Lemma elem_of_Set_add c ws room : c ∈ Set_add ws room ↔ c ∈ room ∨ c = ws.
Proof.
  unfold Set_add. destruct (decide (ws ∈ room)).
  - split; [by left|]. by intros [?| ->].
  - rewrite elem_of_app, list_elem_of_singleton. done.
Qed.

Lemma rooms_ok_members s r :
  rooms_ok s →
  NoDup (members s r) ∧ ∀ c, c ∈ members s r → is_open s c = true.
Proof.
  intros Hok. unfold members.
  destruct (JsMap.get r (rooms s)) as [room|] eqn:Hr; cbn.
  - apply JsMap_get_elem_of in Hr. unfold rooms_ok in Hok.
    rewrite Forall_forall in Hok. by destruct (Hok _ Hr) as (_ & ? & ?).
  - split; [constructor|]. by intros c ?%elem_of_nil.
Qed.

Lemma rooms_ok_mono (rs : JsMap.t (list nat)) s s' :
  (∀ c, is_open s c = true → is_open s' c = true) →
  Forall (λ kv, kv.2 ≠ [] ∧ NoDup kv.2 ∧ ∀ c, c ∈ kv.2 → is_open s c = true) rs →
  Forall (λ kv, kv.2 ≠ [] ∧ NoDup kv.2 ∧ ∀ c, c ∈ kv.2 → is_open s' c = true) rs.
Proof.
  intros Hmono HF. eapply Forall_impl; [exact HF|].
  intros kv (? & ? & Hopen). auto.
Qed.

Lemma joinRoom_rooms ws r p s :
  NoDup (members s r) →
  rooms (joinRoom ws r p s) =
    JsMap.set r (Set_add ws (members s r)) (rooms s) ∧
  ∀ c, is_open (joinRoom ws r p s) c = is_open s c.
Proof.
  intros Hnd. unfold joinRoom. cbv zeta. rewrite members_join_start.
  set (s0 := if JsMap.has r (rooms s) then s else _).
  assert (clients s0 = clients s) as Hc0 by (subst s0; by destruct (JsMap.has _ _)).
  destruct (foldl_send (λ c, negb (bool_decide (c = ws)))
              (msg_peer_joined p r) (members s r) s0 Hnd) as [Hrooms Hclients].
  cbv zeta in Hrooms, Hclients.
  set (s1 := foldl _ s0 (members s r)) in *. split.
  - unfold send. cbn [rooms]. rewrite Hrooms. subst s0.
    destruct (JsMap.has _ _); [done|]. apply JsMap_set_set.
  - intros c. rewrite is_open_send. apply is_open_ready. cbn [clients].
    destruct (decide (c = ws)) as [->|Hne].
    + rewrite list_lookup_alter_eq, Hclients, Hc0.
      by destruct (_ && _), (clients s !! ws).
    + rewrite list_lookup_alter_ne by done. rewrite Hclients, Hc0.
      by destruct (_ && _), (clients s !! c).
Qed.

Lemma joinRoom_ok ws r p s :
  is_open s ws = true → rooms_ok s → rooms_ok (joinRoom ws r p s).
Proof.
  intros Hws Hok. destruct (rooms_ok_members s r Hok) as [Hnd Hopen].
  destruct (joinRoom_rooms ws r p s Hnd) as [Hrooms Hready].
  unfold rooms_ok. rewrite Hrooms. apply JsMap_Forall_set; cbn [snd].
  - split; [|split].
    + intros Hnil. assert (ws ∈ Set_add ws (members s r)) as Hin
        by (apply elem_of_Set_add; by right).
      rewrite Hnil in Hin. by apply elem_of_nil in Hin.
    + by apply NoDup_Set_add.
    + intros c [Hc| ->]%elem_of_Set_add; rewrite Hready; auto.
  - eapply rooms_ok_mono; [|exact Hok]. intros c. by rewrite Hready.
Qed.

Lemma leaveRoom_rooms ws r s room :
  JsMap.get r (rooms s) = Some room → NoDup room →
  let rest := List.filter (λ client, negb (bool_decide (client = ws))) room in
  rooms (leaveRoom ws r s) =
    (if decide (rest = []) then JsMap.delete r (JsMap.set r rest (rooms s))
     else JsMap.set r rest (rooms s)) ∧
  ∀ c, clients (leaveRoom ws r s) !! c =
       (if bool_decide (c ∈ rest) && is_open s c
        then sent_more [msg_peer_left (default [] (clients s !! ws ≫= peerId)) r]
        else id) <$> clients s !! c.
Proof.
  intros Hr Hnd. cbv zeta. unfold leaveRoom. rewrite Hr.
  set (rest := List.filter _ room).
  assert (NoDup rest) as Hrest by (by apply NoDup_List_filter).
  set (s0 := mk (clients s) (JsMap.set r rest (rooms s))).
  destruct (foldl_send (λ _, true)
              (msg_peer_left (default [] (clients s !! ws ≫= peerId)) r)
              rest s0 Hrest) as [Hrooms Hclients].
  cbv zeta in Hrooms, Hclients. cbn [andb] in Hrooms, Hclients.
  set (s1 := foldl _ s0 rest) in *.
  assert (∀ c, clients s1 !! c =
            (if bool_decide (c ∈ rest) && is_open s c
             then sent_more
                    [msg_peer_left (default [] (clients s !! ws ≫= peerId)) r]
             else id) <$> clients s !! c) as Hclients'.
  { intros c. rewrite Hclients. rewrite andb_true_r. done. }
  destruct (decide (rest = [])); cbn [rooms clients]; by rewrite ?Hrooms.
Qed.

Lemma is_open_sent_more (f : Client → Client) s s' c :
  clients s' !! c = f <$> clients s !! c →
  (∀ o, readyState (f o) = readyState o) →
  is_open s' c = is_open s c.
Proof.
  intros Hc Hf. apply is_open_ready. rewrite Hc.
  destruct (clients s !! c); cbn; [|done]. by rewrite Hf.
Qed.

Lemma leaveRoom_ok ws r s : rooms_ok s → rooms_ok (leaveRoom ws r s).
Proof.
  intros Hok. destruct (JsMap.get r (rooms s)) as [room|] eqn:Hr.
  2:{ unfold leaveRoom. by rewrite Hr. }
  pose proof (rooms_ok_members s r Hok) as [Hnd Hopen].
  unfold members in Hnd, Hopen. rewrite Hr in Hnd, Hopen. cbn in Hnd, Hopen.
  destruct (leaveRoom_rooms ws r s room Hr Hnd) as [Hrooms Hclients].
  cbv zeta in Hrooms, Hclients.
  set (rest := List.filter _ room) in *.
  assert (∀ c, is_open (leaveRoom ws r s) c = is_open s c) as Hready.
  { intros c. eapply is_open_sent_more; [apply Hclients|].
    intros o. by destruct (_ && _). }
  unfold rooms_ok. rewrite Hrooms.
  assert (Forall (λ kv, kv.2 ≠ [] ∧ NoDup kv.2 ∧
                        ∀ c, c ∈ kv.2 → is_open (leaveRoom ws r s) c = true)
            (rooms s)) as Hold.
  { eapply rooms_ok_mono; [|exact Hok]. intros c. by rewrite Hready. }
  destruct (decide (rest = [])) as [Hnil|Hne].
  - rewrite JsMap_delete_set. by apply JsMap_Forall_delete.
  - apply JsMap_Forall_set; [|done]. cbn [snd].
    split; [done|]. split; [by apply NoDup_List_filter|].
    intros c [Hc _]%elem_of_List_filter. rewrite Hready. auto.
Qed.

Lemma relayMessage_ok ws room_id message s :
  rooms_ok s → rooms_ok (relayMessage ws room_id message s).
Proof.
  intros Hok. destruct room_id as [r|]; [|done].
  destruct (rooms_ok_members s r Hok) as [Hnd _].
  destruct (relayMessage_spec ws r message s Hnd) as [Hrooms Hclients].
  unfold rooms_ok. rewrite Hrooms. eapply rooms_ok_mono; [|exact Hok].
  intros c Hc. rewrite <-Hc. eapply is_open_sent_more; [apply Hclients|].
  intros o. by destruct (_ && _).
Qed.

Lemma connection_ok s : rooms_ok s → rooms_ok (connection s).2.
Proof.
  intros Hok. unfold rooms_ok. cbn [connection snd rooms].
  eapply rooms_ok_mono; [|exact Hok]. intros c. unfold is_open. cbn [clients].
  destruct (clients s !! c) as [o|] eqn:Hc; [|done].
  by rewrite (lookup_app_l_Some _ _ _ _ Hc).
Qed.

Lemma on_close_ok ws s : rooms_ok s → rooms_ok (on_close ws s).
Proof.
  intros Hok. unfold rooms_ok, on_close. cbn [rooms].
  apply Forall_forall. intros [k v] [Hin Hne]%elem_of_List_filter.
  apply negb_true_iff, bool_decide_eq_false in Hne. cbn [snd] in *.
  apply list_elem_of_fmap in Hin as ([k0 v0] & [= -> ->] & Hin).
  unfold rooms_ok in Hok. rewrite Forall_forall in Hok.
  destruct (Hok _ Hin) as (_ & Hnd & Hopen). cbn [snd fst] in *.
  split; [done|]. split; [by apply NoDup_List_filter|].
  intros c [Hc Hcws]%elem_of_List_filter.
  apply negb_true_iff, bool_decide_eq_false in Hcws.
  rewrite <-(Hopen c Hc). apply is_open_ready. cbn [clients].
  by rewrite list_lookup_alter_ne.
Qed.

Lemma handle_ok ev s : rooms_ok s → rooms_ok (handle ev s).
Proof.
  intros Hok. destruct ev as [|ws message|ws]; cbn [handle].
  - by apply connection_ok.
  - destruct (is_open s ws) eqn:Hws; [|done].
    destruct message; cbn [handleSignalingMessage]; try done.
    + by apply joinRoom_ok.
    + by apply leaveRoom_ok.
    + by apply relayMessage_ok.
    + by apply relayMessage_ok.
    + by apply relayMessage_ok.
  - by apply on_close_ok.
Qed.

Lemma run_ok (evs : list Event) : rooms_ok (run evs started).
Proof.
  assert (∀ s, rooms_ok s → rooms_ok (run evs s)) as Hrun.
  { unfold run. induction evs as [|ev evs IH]; intros s Hs; [done|].
    cbn [foldl]. by apply IH, handle_ok. }
  apply Hrun. constructor.
Qed.

(** X5: whatever connections, messages and closes the relay has handled
    since it started, every room of its table has at least one member, lists
    no socket twice and lists no socket that has closed. *)
Theorem relay_rooms_live (evs : list Event) : rooms_live (run evs started).
Proof.
  intros r room Hr. pose proof (run_ok evs) as Hok.
  apply JsMap_get_elem_of in Hr.
  unfold rooms_ok in Hok. rewrite Forall_forall in Hok.
  destruct (Hok _ Hr) as (Hne & Hnd & Hopen). cbn [snd] in *.
  split; [done|]. split; [done|]. intros c Hc. specialize (Hopen c Hc).
  unfold is_open in Hopen. destruct (clients (run evs started) !! c) as [o|];
    [|done].
  exists o. split; [done|]. apply bool_decide_eq_true in Hopen.
  rewrite Hopen. discriminate.
Qed.

(** X6: [relayMessage(ws, roomId, message)] leaves the table of rooms and
    the sender's own socket as they were, sends the message once to every
    other member of the room that is open, and nothing to any other socket. *)
Theorem relayMessage_delivers ws r message s o :
  NoDup (members s r) →
  clients s !! ws = Some o →
  let s' := relayMessage ws (Some r) message s in
  rooms s' = rooms s ∧
  clients s' !! ws = Some o ∧
  ∀ c, c ≠ ws →
       clients s' !! c =
         (if bool_decide (c ∈ members s r) && is_open s c
          then sent_more [message] else id) <$> clients s !! c.
Proof.
  intros Hnd Hws. destruct (relayMessage_spec ws r message s Hnd) as [Hr Hc].
  cbv zeta. split; [done|]. split.
  - rewrite Hc, (bool_decide_eq_true_2 (ws = ws)) by done.
    rewrite andb_false_r. cbn. by rewrite Hws.
  - intros c Hne. rewrite Hc, (bool_decide_eq_false_2 (c = ws)) by done.
    cbn. by rewrite andb_true_r.
Qed.

(** X7: when an open socket joins a room, it becomes the last member of the
    room unless it was one already, and the other rooms are untouched; every
    other member that is open is sent one [peer-joined] with the new peer
    id, no other socket is sent anything; the socket gets [roomId] and
    [peerId] set and is sent one [room-joined] that lists, in order, the
    non-empty peer ids of the other members. *)
Theorem joinRoom_notifies ws r p s o :
  NoDup (members s r) →
  clients s !! ws = Some o →
  readyState o = OPEN →
  let s' := joinRoom ws r p s in
  members s' r = Set_add ws (members s r) ∧
  (∀ r', r' ≠ r → JsMap.get r' (rooms s') = JsMap.get r' (rooms s)) ∧
  (∀ c, c ≠ ws →
     clients s' !! c =
       (if bool_decide (c ∈ members s r) && is_open s c
        then sent_more [msg_peer_joined p r] else id) <$> clients s !! c) ∧
  clients s' !! ws =
    Some (mkClient OPEN (Some r) (Some p)
            (outbox o ++
               [msg_room_joined r
                  (omap (truthy_peerId s)
                     (List.filter (λ c, negb (bool_decide (c = ws)))
                        (members s r)))])).
Proof.
  intros Hnd Hws Hopen. pose proof (joinRoom_spec ws r p s o Hnd Hws) as Hj.
  cbv zeta in Hj |- *. by rewrite Hopen in Hj.
Qed.

Lemma leaveRoom_spec ws r s :
  NoDup (members s r) →
  let rest := List.filter (λ c, negb (bool_decide (c = ws))) (members s r) in
  let s' := leaveRoom ws r s in
  members s' r = rest ∧
  (rest = [] → JsMap.get r (rooms s') = None) ∧
  (∀ r', r' ≠ r → JsMap.get r' (rooms s') = JsMap.get r' (rooms s)) ∧
  ∀ c, clients s' !! c =
       (if bool_decide (c ∈ rest) && is_open s c
        then sent_more [msg_peer_left (default [] (clients s !! ws ≫= peerId)) r]
        else id) <$> clients s !! c.
Proof.
  unfold members. destruct (JsMap.get r (rooms s)) as [room|] eqn:Hr.
  2:{ intros _. cbv zeta. unfold leaveRoom. rewrite !Hr. cbn [default].
      split; [done|]. split; [done|]. split; [done|]. intros c.
      rewrite bool_decide_eq_false_2 by apply not_elem_of_nil.
      by destruct (clients s !! c). }
  cbn [default]. intros Hnd. cbv zeta.
  destruct (leaveRoom_rooms ws r s room Hr Hnd) as [Hrooms Hclients].
  cbv zeta in Hrooms, Hclients. set (rest := List.filter _ room) in *.
  rewrite Hrooms. split; [|split; [|split]]; [..|done].
  - destruct (decide (rest = [])) as [Hnil|Hne].
    + by rewrite JsMap_get_delete_eq.
    + by rewrite JsMap_get_set_eq.
  - intros Hnil. rewrite decide_True by done. apply JsMap_get_delete_eq.
  - intros r' Hne. destruct (decide (rest = [])).
    + rewrite JsMap_get_delete_ne by done. by apply JsMap_get_set_ne.
    + by apply JsMap_get_set_ne.
Qed.

(** X8: when a socket whose [peerId] is [p] leaves a room, the room loses it
    and is removed from the table when nobody is left, the other rooms are
    untouched, and every remaining member that is open is sent one [peer-
    left] with [p], no other socket anything. The socket need not have been
    a member of the room. *)
Theorem leaveRoom_notifies ws r p s :
  NoDup (members s r) →
  clients s !! ws ≫= peerId = Some p →
  let rest := List.filter (λ c, negb (bool_decide (c = ws))) (members s r) in
  let s' := leaveRoom ws r s in
  members s' r = rest ∧
  (rest = [] → JsMap.get r (rooms s') = None) ∧
  (∀ r', r' ≠ r → JsMap.get r' (rooms s') = JsMap.get r' (rooms s)) ∧
  ∀ c, clients s' !! c =
       (if bool_decide (c ∈ rest) && is_open s c
        then sent_more [msg_peer_left p r] else id) <$> clients s !! c.
Proof.
  intros Hnd Hp. pose proof (leaveRoom_spec ws r s Hnd) as Hl.
  cbv zeta in Hl |- *. by rewrite Hp in Hl.
Qed.

(** X9: the handler of [close] removes the socket from every room and sends
    nothing: what was sent on every socket is as before, so that the members
    that remain get no [peer-left]. *)
Theorem on_close_silent ws s :
  (∀ c, outbox <$> clients (on_close ws s) !! c = outbox <$> clients s !! c) ∧
  (∀ r, ws ∉ members (on_close ws s) r) ∧
  is_open (on_close ws s) ws = false.
Proof.
  split; [|split].
  - intros c. unfold on_close. cbn [clients].
    destruct (decide (c = ws)) as [->|Hne].
    + rewrite list_lookup_alter_eq. by destruct (clients s !! ws).
    + by rewrite list_lookup_alter_ne.
  - intros r. unfold members.
    destruct (JsMap.get r (rooms (on_close ws s))) as [room|] eqn:Hr; cbn;
      [|apply not_elem_of_nil].
    apply JsMap_get_elem_of in Hr. unfold on_close in Hr. cbn [rooms] in Hr.
    apply elem_of_List_filter in Hr as [Hr _].
    apply list_elem_of_fmap in Hr as ([k v] & [= -> ->] & _). cbn.
    rewrite elem_of_List_filter. intros [_ Hne].
    by apply negb_true_iff, bool_decide_eq_false in Hne.
  - unfold is_open, on_close. cbn [clients]. rewrite list_lookup_alter_eq.
    by destruct (clients s !! ws).
Qed.

End RelayFacts.

(** The room of the example, after the first client joined it and after
    both did. *)
Lemma relay_rooms_live_witness :
  [0%nat] ≠ [] ∧ NoDup [0%nat] ∧
  ∀ c, c ∈ [0%nat] →
       ∃ o, Relay.clients relay_after_alice !! c = Some o ∧
            Relay.readyState o ≠ CLOSED.
Proof.
  apply (relay_rooms_live
           [Relay.Connected; Relay.Connected;
            Relay.Message 0 (msg_join shared_room alice_id)]
           shared_room [0%nat]).
  vm_compute. reflexivity.
Defined.

Lemma relayMessage_delivers_witness :
  Relay.rooms
    (Relay.relayMessage 0 (Some shared_room)
       (msg_ice_candidate (Some shared_room) alice_id carol_id (js "candidate:1"))
       relay_after_joins) =
  Relay.rooms relay_after_joins.
Proof.
  unshelve eapply (proj1 (relayMessage_delivers 0 shared_room _
                            relay_after_joins _ _ _)).
  - exact (Relay.mkClient OPEN (Some shared_room) (Some alice_id)
             [msg_room_joined shared_room [];
              msg_peer_joined carol_id shared_room]).
  - apply (bool_decide_unpack _). vm_compute. exact I.
  - vm_compute. reflexivity.
Defined.

Lemma joinRoom_notifies_witness :
  members (Relay.joinRoom 1 shared_room carol_id relay_after_alice) shared_room =
  Relay.Set_add 1 (members relay_after_alice shared_room).
Proof.
  unshelve eapply (proj1 (joinRoom_notifies 1 shared_room carol_id
                            relay_after_alice _ _ _ _)).
  - exact (Relay.mkClient OPEN None None []).
  - apply (bool_decide_unpack _). vm_compute. exact I.
  - vm_compute. reflexivity.
  - reflexivity.
Defined.

Lemma leaveRoom_notifies_witness :
  members (Relay.leaveRoom 0 shared_room relay_after_joins) shared_room =
  List.filter (λ c, negb (bool_decide (c = 0%nat)))
    (members relay_after_joins shared_room).
Proof.
  unshelve eapply (proj1 (leaveRoom_notifies 0 shared_room alice_id
                            relay_after_joins _ _)).
  - apply (bool_decide_unpack _). vm_compute. exact I.
  - vm_compute. reflexivity.
Defined.

(** ** What a client sends to the relay *)

Section Roomless.
Import Window BluetoothService.

Global Instance sends_roomless_preorder : PreOrder sends_roomless.
Proof.
  split.
  - intros s ws m Hm. by left.
  - intros s1 s2 s3 H12 H23 ws m Hm.
    destruct (H23 ws m Hm) as [Hm2|?]; [|by right]. by apply H12.
Qed.

Lemma sends_roomless_same_sockets (w w' : Window) (b b' : t) :
  socketObjects w' = socketObjects w → sends_roomless (w, b) (w', b').
Proof. intros Heq ws m. unfold socket_log. cbn. rewrite Heq. by left. Qed.

Lemma alter_socket_roomless (f : WebSocket → WebSocket) ws :
  (∀ o, ws_sent (f o) = ws_sent o) →
  keeps sends_roomless (alter_socket (T := t) f ws).
Proof.
  intros Hf [w b] ws' m. unfold socket_log. cbn.
  destruct (decide (ws' = ws)) as [->|Hne].
  - rewrite list_lookup_alter_eq. destruct (socketObjects w !! ws); cbn; [|by left].
    rewrite Hf. by left.
  - rewrite list_lookup_alter_ne by done. by left.
Qed.

Lemma ws_send_roomless ws m :
  join_or_roomless m → keeps sends_roomless (ws_send (T := t) ws m).
Proof.
  intros Hm [w b] ws' m'. unfold socket_log. cbn.
  destruct (decide (ws' = ws)) as [->|Hne].
  - rewrite list_lookup_alter_eq. destruct (socketObjects w !! ws); cbn; [|by left].
    intros [?| ->%list_elem_of_singleton]%elem_of_app; [by left|by right].
  - rewrite list_lookup_alter_ne by done. by left.
Qed.

Lemma new_WebSocket_roomless url use :
  keeps sends_roomless (new_WebSocket (T := t) url use).
Proof.
  intros [w b] ws m. unfold new_WebSocket. run_js.
  destruct (webSocketAllowed w); cbn; [|by left].
  unfold socket_log. cbn.
  destruct (decide (ws < length (socketObjects w))%nat).
  - rewrite lookup_app_l by done. by left.
  - rewrite lookup_app_r by lia.
    destruct (ws - length (socketObjects w))%nat as [|[|?]]; cbn;
      by intros ?%elem_of_nil.
Qed.

#[local] Hint Resolve alter_socket_roomless ws_send_roomless
  new_WebSocket_roomless : frame.
#[local] Hint Extern 1 (join_or_roomless _) => exact I : frame.
#[local] Hint Extern 1 (∀ o, ws_sent _ = ws_sent o) =>
  intros; reflexivity : frame.

Ltac same_sockets := apply sends_roomless_same_sockets; reflexivity.

Lemma sendSignalingMessage_roomless m :
  join_or_roomless m → keeps sends_roomless (sendSignalingMessage m).
Proof. intros Hm. frame by same_sockets. Qed.

#[local] Hint Resolve sendSignalingMessage_roomless : frame.

Lemma handle_roomless refuses ev :
  keeps sends_roomless (handle refuses ev).
Proof. destruct ev; cbn [handle]; frame by same_sockets. Qed.

Lemma run_roomless refuses evs s : sends_roomless s (run refuses evs s).
Proof.
  revert s. induction evs as [|ev evs IH]; intros s; [reflexivity|].
  cbn [run foldl]. etrans; [apply (handle_roomless refuses ev s)|apply IH].
Qed.

(** X10: whatever events a client handles, every message that they add to
    what it has sent on a socket is a request to join, or an offer, an
    answer or a candidate whose envelope has no [roomId]. *)
Theorem client_messages_carry_no_roomId refuses evs s ws m :
  m ∈ socket_log (run refuses evs s) ws →
  m ∈ socket_log s ws ∨
  (∃ room me, m = msg_join room me) ∨
  (∃ me peer data,
     m = msg_offer None me peer data ∨ m = msg_answer None me peer data) ∨
  (∃ me peer candidate, m = msg_ice_candidate None me peer candidate).
Proof.
  intros Hm. destruct (run_roomless refuses evs s ws m Hm) as [?|Hj];
    [by left|right].
  destruct m as [| | | | |[?|]|[?|]|[?|]]; try done; eauto 10.
Qed.

End Roomless.

(** The offer that the first client of the example sends. *)
Lemma client_messages_carry_no_roomId_witness :
  msg_offer None alice_id carol_id (mkDescription sdp_offer (js "v=0 alice")) ∈
    socket_log (deliver relay_after_joins 0 (client_in_room alice_id shared_room)) 0 ∨
  (∃ room me,
     msg_offer None alice_id carol_id (mkDescription sdp_offer (js "v=0 alice")) =
       msg_join room me) ∨
  (∃ me peer data,
     msg_offer None alice_id carol_id (mkDescription sdp_offer (js "v=0 alice")) =
       msg_offer None me peer data ∨
     msg_offer None alice_id carol_id (mkDescription sdp_offer (js "v=0 alice")) =
       msg_answer None me peer data) ∨
  (∃ me peer candidate,
     msg_offer None alice_id carol_id (mkDescription sdp_offer (js "v=0 alice")) =
       msg_ice_candidate None me peer candidate).
Proof.
  apply (client_messages_carry_no_roomId (λ _, false)
           [BluetoothService.Settled 0
              (Some (mkDescription sdp_offer (js "v=0 alice")))]
           (deliver relay_after_joins 0 (client_in_room alice_id shared_room))
           0%nat).
  vm_compute. apply list_elem_of_further, list_elem_of_here.
Defined.

(** ** The peers of the transport *)

Section Peers.
Import Window BluetoothService.

Ltac fields :=
  cbn [fst snd now location_host localStorage entropy drawn timers nextTimer
       webSocketAllowed rtcAvailable socketObjects connectionObjects
       channelObjects suspended set_now set_localStorage set_drawn set_timers
       set_socketObjects set_connectionObjects set_channelObjects
       set_suspended peers discoveredPeers isScanning isAdvertising delegate
       connections dataChannels roomId signalingWs myId delegated set_peers
       set_discoveredPeers set_isScanning set_isAdvertising set_delegate
       set_connections set_dataChannels set_signalingWs set_myId
       set_delegated].


(** X12: after [setMyNickname(nickname)], [getMyNickname] returns that
    nickname, except after the empty string, when it returns [Anonyme];
    [setMyNickname] changes nothing of the service itself. *)
Theorem getMyNickname_setMyNickname nickname s :
  ∃ s1,
    setMyNickname nickname s = (Normal (), s1) ∧
    s1.2 = s.2 ∧
    getMyNickname s1 =
      (Normal (if decide (nickname = []) then js "Anonyme" else nickname), s1).
Proof.
  destruct s as [w b]. unfold setMyNickname, getMyNickname. run_js.
  eexists. split; [done|]. split; [done|]. fields.
  rewrite lookup_insert_eq. by destruct nickname.
Qed.

Lemma notify_state m call (s : Window * t) :
  ∃ log, notify m call s = (Normal (), (s.1, set_delegated log s.2)).
Proof.
  destruct s as [w b]. unfold notify. run_js.
  destruct (delegate b) as [responds|]; js_beta.
  - destruct (responds m); js_beta; [by eexists|].
    exists (delegated b). by destruct b.
  - exists (delegated b). by destruct b.
Qed.

(** X13: [disconnectFromPeer(peerId)] returns with the peer removed from the
    tables of peers, of connections and of data channels, and with its
    connection, if it had one, closed; the entries of the other peers are
    untouched, and [sendToPeer] to the peer then returns false and changes
    nothing. *)
Theorem disconnectFromPeer_forgets peerId s :
  ∃ s1,
    disconnectFromPeer peerId s = (Normal (), s1) ∧
    JsMap.has peerId (peers s1.2) = false ∧
    connections s1.2 !! peerId = None ∧
    dataChannels s1.2 !! peerId = None ∧
    (∀ message, sendToPeer peerId message s1 = (Normal false, s1)) ∧
    (∀ pc, connections s.2 !! peerId = Some pc →
           pc_connectionState <$> connectionObjects s1.1 !! pc =
             (λ _, cs_closed) <$> connectionObjects s.1 !! pc) ∧
    ∀ other, other ≠ peerId →
      JsMap.get other (peers s1.2) = JsMap.get other (peers s.2) ∧
      connections s1.2 !! other = connections s.2 !! other ∧
      dataChannels s1.2 !! other = dataChannels s.2 !! other.
Proof.
  destruct s as [w b].
  unfold disconnectFromPeer, onPeerDisconnected, pc_close, alter_connection.
  run_js.
  destruct (connections b !! peerId) as [pc|] eqn:Hpc; js_beta;
    (match goal with
     | |- context [notify ?m ?c ?st] =>
         destruct (notify_state m c st) as [log ->]
     end);
    eexists; (split; [done|]); fields;
    (split; [unfold JsMap.has;
             by rewrite JsMap_get_delete_eq, bool_decide_eq_false_2
               by (by intros [? ?])|]);
    (split; [apply lookup_delete_eq|]);
    (split; [apply lookup_delete_eq|]);
    (split; [intros message; rewrite sendToPeer_unfold; fields;
             by rewrite lookup_delete_eq|]);
    (split; [|intros other Hne;
              rewrite JsMap_get_delete_ne by done;
              by rewrite !lookup_delete_ne]).
  - intros ? [= <-]. rewrite list_lookup_alter_eq.
    by destruct (connectionObjects w !! pc).
  - by intros ? [=].
Qed.

Lemma pc_close_run pc (s : Window * t) :
  pc_close pc s =
    (Normal (),
     (set_connectionObjects
        (alter (λ o, mkPeerConnection cs_closed (pc_localDescription o)
                       (pc_remoteDescription o) (pc_candidates o)
                       (pc_handlers o)) pc (connectionObjects s.1)) s.1,
      s.2)).
Proof. by destruct s. Qed.

Lemma forEach_pc_close (l : list (jsstring * nat)) (s : Window * t) :
  ∃ w1,
    forEach l (λ kv, pc_close kv.2) s = (Normal (), (w1, s.2)) ∧
    channelObjects w1 = channelObjects s.1 ∧
    ∀ pc, pc_connectionState <$> connectionObjects w1 !! pc =
          (if bool_decide (pc ∈ l.*2) then λ _, cs_closed
           else pc_connectionState) <$> connectionObjects s.1 !! pc.
Proof.
  revert s. induction l as [|[k pc0] l IH]; intros [w b].
  - exists w. split; [done|]. split; [done|]. intros pc. cbn.
    by rewrite bool_decide_eq_false_2 by apply not_elem_of_nil.
  - cbn [forEach]. unfold mbind, Js_bind. rewrite pc_close_run. js_beta.
    match goal with
    | |- context [forEach l _ ?st] => destruct (IH st) as (w1 & -> & Hch & Hpc)
    end.
    exists w1. split; [done|]. split; [done|]. intros pc. rewrite Hpc. fields.
    cbn [fmap list_fmap]. destruct (decide (pc = pc0)) as [->|Hne].
    + rewrite list_lookup_alter_eq.
      rewrite (bool_decide_eq_true_2 (pc0 ∈ pc0 :: l.*2)) by left.
      destruct (connectionObjects w !! pc0); cbn; [|done].
      by destruct (bool_decide _).
    + rewrite list_lookup_alter_ne by done.
      by rewrite (bool_decide_ext (pc ∈ pc0 :: l.*2) (pc ∈ l.*2))
        by (rewrite elem_of_cons; split; [by intros [?|?]|by right]).
Qed.

(** X14: [disconnectAll] closes every connection of the table and empties
    the tables of peers, of connections and of data channels, without any
    call on the delegate; afterwards [getConnectionStatus] returns
    [disconnected] and [sendToPeer] returns false for every peer. *)
Theorem disconnectAll_clears s :
  ∃ s1,
    disconnectAll s = (Normal (), s1) ∧
    peers s1.2 = [] ∧ connections s1.2 = ∅ ∧ dataChannels s1.2 = ∅ ∧
    delegated s1.2 = delegated s.2 ∧
    (∀ peerId pc, connections s.2 !! peerId = Some pc →
       pc_connectionState <$> connectionObjects s1.1 !! pc =
         (λ _, cs_closed) <$> connectionObjects s.1 !! pc) ∧
    getConnectionStatus s1 = (Normal (js "disconnected"), s1) ∧
    ∀ peerId message, sendToPeer peerId message s1 = (Normal false, s1).
Proof.
  destruct s as [w b]. unfold disconnectAll. run_js.
  destruct (forEach_pc_close (map_to_list (connections b)) (w, b))
    as (w1 & -> & Hch & Hpc).
  js_beta. eexists. split; [done|]. fields.
  do 4 (split; [done|]). split; [|split].
  - intros peerId pc Hc. rewrite Hpc. fields.
    rewrite bool_decide_eq_true_2; [done|].
    apply list_elem_of_fmap. exists (peerId, pc). split; [done|].
    by apply elem_of_map_to_list.
  - unfold getConnectionStatus. by run_js.
  - intros peerId message. rewrite sendToPeer_unfold. fields.
    by rewrite lookup_empty.
Qed.

Lemma JsMap_get_cons {V} k k1 (v1 : V) m :
  JsMap.get k ((k1, v1) :: m) =
    if decide (k1 = k) then Some v1 else JsMap.get k m.
Proof.
  unfold JsMap.get. cbn. destruct (decide (k1 = k)).
  - by rewrite bool_decide_eq_true_2.
  - by rewrite bool_decide_eq_false_2.
Qed.

Lemma JsMap_size_set {V} k (v : V) m :
  JsMap.size (JsMap.set k v m) =
    if JsMap.has k m then JsMap.size m else S (JsMap.size m).
Proof.
  unfold JsMap.size, JsMap.has.
  induction m as [|[k1 v1] m IH]; [done|].
  rewrite JsMap_get_cons. cbn [JsMap.set].
  destruct (decide (k1 = k)) as [->|Hne]; cbn [length].
  - by rewrite bool_decide_eq_true_2 by eauto.
  - rewrite IH. by destruct (bool_decide (is_Some _)).
Qed.

Lemma getMyId_frame s :
  ∃ id w1 b1,
    getMyId s = (Normal id, (w1, b1)) ∧
    peers b1 = peers s.2 ∧ dataChannels b1 = dataChannels s.2 ∧
    delegated b1 = delegated s.2 ∧
    channelObjects w1 = channelObjects s.1 ∧ now w1 = now s.1 ∧
    localStorage w1 = localStorage s.1.
Proof.
  destruct s as [w b]. unfold getMyId, random_base36. run_js.
  destruct (myId b) as [[|? ?]|]; js_beta; do 3 eexists; (split; [done|]);
    done.
Qed.

Lemma sendHandshake_frame peerId s :
  ∃ s1,
    sendHandshake peerId s = (Normal (), s1) ∧
    peers s1.2 = peers s.2 ∧ dataChannels s1.2 = dataChannels s.2 ∧
    delegated s1.2 = delegated s.2 ∧
    (dataChannels s.2 !! peerId = None →
     channelObjects s1.1 = channelObjects s.1).
Proof.
  unfold sendHandshake. unfold bind at 1, mbind, Js_bind.
  destruct (getMyId_frame s) as (id & w1 & b1 & -> & Hp & Hd & Hl & Hc & _).
  unfold getMyNickname, Date_now. run_js.
  destruct (localStorage w1 !! js "bitchat-nickname") as [[|? ?]|]; js_beta;
    rewrite sendToPeer_unfold; cbn [fst snd]; rewrite Hd;
    (destruct (dataChannels s.2 !! peerId) as [dc|]; [|by eexists]);
    (destruct (channelObjects w1 !! dc) as [c|]; [|by eexists]);
    (destruct (decide _); [|by eexists]);
    (destruct (dc_refuses c _); by eexists).
Qed.

(** X15: [onPeerConnected(peerId)] puts the peer in the table of peers under
    its id, named after the discovered peer or, when that has no name or an
    empty one, [Peer-] followed by the last four characters of the id, with
    the discovered rssi or -50 when that is missing or 0. The table grows by
    one exactly when the id was new, and the other peers are untouched.
    Without a data channel for the peer the handshake is written to no
    channel. *)
Theorem onPeerConnected_lists peerId s :
  ∃ s1 peer,
    onPeerConnected peerId s = (Normal (), s1) ∧
    JsMap.get peerId (peers s1.2) = Some peer ∧
    peer_id peer = peerId ∧
    peer_name peer =
      match disc_name <$> discoveredPeers s.2 !! peerId with
      | Some (c :: n) => c :: n
      | _ => js "Peer-" ++ slice_last4 peerId
      end ∧
    peer_connected peer = true ∧
    peer_rssi peer =
      match disc_rssi <$> discoveredPeers s.2 !! peerId with
      | Some r => if decide (r = 0%Z) then (-50)%Z else r
      | None => (-50)%Z
      end ∧
    JsMap.size (peers s1.2) =
      (if JsMap.has peerId (peers s.2) then JsMap.size (peers s.2)
       else S (JsMap.size (peers s.2))) ∧
    (∀ other, other ≠ peerId →
       JsMap.get other (peers s1.2) = JsMap.get other (peers s.2)) ∧
    (dataChannels s.2 !! peerId = None →
     channelObjects s1.1 = channelObjects s.1 ∧
     ∀ message, sendToPeer peerId message s1 = (Normal false, s1)).
Proof.
  destruct s as [w b]. unfold onPeerConnected, Date_now. run_js.
  match goal with
  | |- context [notify ?m ?c ?st] =>
      destruct (notify_state m c st) as [log ->]
  end.
  js_beta.
  match goal with
  | |- context [sendHandshake peerId ?st] =>
      destruct (sendHandshake_frame peerId st) as (s1 & -> & Hp & Hd & _ & Hc)
  end.
  revert Hp Hd Hc. fields. intros Hp Hd Hc.
  eexists s1, _. split; [done|]. rewrite Hp.
  split; [apply JsMap_get_set_eq|]. do 4 (split; [reflexivity|]).
  split; [|split].
  - apply JsMap_size_set.
  - intros other Hne. by apply JsMap_get_set_ne.
  - intros Hnone. split; [by apply Hc|]. intros message.
    rewrite sendToPeer_unfold. by rewrite Hd, Hnone.
Qed.

(** X16: [startScanning] while scanning returns [undefined] and changes
    nothing; otherwise it returns true, sets [isScanning] and arms one more
    interval of ten seconds. [stopScanning] clears [isScanning] and leaves
    the browser, so every interval armed before, as it was. *)
Theorem scanning_intervals s :
  (isScanning s.2 = true → startScanning s = (Normal None, s)) ∧
  (isScanning s.2 = false →
   ∃ s1, startScanning s = (Normal (Some true), s1) ∧
         isScanning s1.2 = true ∧
         timers s1.1 =
           timers s.1 ++
           [mkTimer (nextTimer s.1) (now s.1 + 10000) cb_scan (Some 10000)]) ∧
  ∃ s2, stopScanning s = (Normal (), s2) ∧
        isScanning s2.2 = false ∧ s2.1 = s.1.
Proof.
  destruct s as [w b]. cbn [fst snd]. split; [|split].
  - intros Hs. unfold startScanning. run_js. by rewrite Hs.
  - intros Hs. unfold startScanning. run_js. rewrite Hs. js_beta.
    match goal with
    | |- context [notify ?m ?c ?st] =>
        destruct (notify_state m c st) as [log ->]
    end.
    unfold startPeerDiscovery, setInterval. run_js. fields.
    eexists. split; [done|]. by fields.
  - unfold stopScanning. run_js.
    match goal with
    | |- context [notify ?m ?c ?st] =>
        destruct (notify_state m c st) as [log ->]
    end.
    eexists. split; [done|]. by fields.
Qed.

Lemma step_ChannelOpened refuses dc c peerId s :
  channelObjects s.1 !! dc = Some c →
  dc_handlers c = Some peerId →
  step refuses (ChannelOpened dc) s =
    (set_channelObjects
       (<[dc := mkDataChannel (dc_label c) (dc_connection c) OPEN (dc_sent c)
                  (dc_refuses c) (dc_handlers c)]> (channelObjects s.1)) s.1,
     set_dataChannels (<[peerId := dc]> (dataChannels s.2)) s.2).
Proof.
  destruct s as [w b]. cbn [fst snd]. intros Hc Hh.
  unfold step, handle, channel, alter_channel, channel_onopen.
  run_js. rewrite Hc. js_beta. rewrite Hh. js_beta. f_equal. f_equal.
  apply list_eq. intros i. destruct (decide (i = dc)) as [->|Hne].
  - rewrite list_lookup_alter_eq, Hc. cbn. rewrite Hh. symmetry.
    apply list_lookup_insert_eq. by eapply lookup_lt_Some.
  - by rewrite list_lookup_alter_ne, list_lookup_insert_ne.
Qed.

Lemma step_ChannelClosed refuses dc c peerId s :
  channelObjects s.1 !! dc = Some c →
  dc_handlers c = Some peerId →
  dataChannels (step refuses (ChannelClosed dc) s).2 !! peerId = None.
Proof.
  destruct s as [w b]. cbn [fst snd]. intros Hc Hh.
  unfold step, handle, channel, alter_channel, channel_onclose.
  run_js. rewrite Hc. js_beta. rewrite Hh. js_beta. fields.
  apply lookup_delete_eq.
Qed.

(** X17: for a data channel set up for a peer: once its [open] event is
    handled, [sendToPeer] to the peer writes the message to that channel and
    returns true, or returns false and writes nothing when [send] throws;
    once its [close] event is handled after that, [sendToPeer] returns false
    and changes nothing. *)
Theorem channel_opened_then_closed refuses dc c peerId message s :
  channelObjects s.1 !! dc = Some c →
  dc_handlers c = Some peerId →
  let s1 := step refuses (ChannelOpened dc) s in
  let s2 := step refuses (ChannelClosed dc) s1 in
  sendToPeer peerId message s1 =
    (if dc_refuses c message then (Normal false, s1)
     else (Normal true, (written dc message s1.1, s1.2))) ∧
  sendToPeer peerId message s2 = (Normal false, s2).
Proof.
  intros Hc Hh. cbv zeta. split.
  - rewrite (step_ChannelOpened refuses dc c peerId s Hc Hh).
    rewrite sendToPeer_unfold. fields.
    rewrite lookup_insert_eq.
    rewrite list_lookup_insert_eq by (by eapply lookup_lt_Some). cbn.
    by rewrite decide_True.
  - rewrite sendToPeer_unfold.
    rewrite (step_ChannelClosed refuses dc
               (mkDataChannel (dc_label c) (dc_connection c) OPEN (dc_sent c)
                  (dc_refuses c) (dc_handlers c)) peerId); [done| |done].
    rewrite (step_ChannelOpened refuses dc c peerId s Hc Hh). fields.
    apply list_lookup_insert_eq. by eapply lookup_lt_Some.
Qed.

(** X18: when there is no signaling socket, or it is not open,
    [initiateConnectionToPeer], once its offer is created, returns without
    sending it, without arming a timer and without waiting for anything
    more; the table of connections is left as it is, with the entry made for
    the peer. *)
Theorem offer_lost_without_signaling pc peerId offer s :
  (∀ ws o, signalingWs s.2 = Some ws → socketObjects s.1 !! ws = Some o →
           ws_readyState o ≠ OPEN) →
  ∃ s1,
    initiateConnectionToPeer_resume pc peerId (Some offer) s = (Normal (), s1) ∧
    socketObjects s1.1 = socketObjects s.1 ∧
    connections s1.2 = connections s.2 ∧
    timers s1.1 = timers s.1 ∧
    suspended s1.1 = suspended s.1.
Proof.
  destruct s as [w b]. cbn [fst snd]. intros Hclosed.
  unfold initiateConnectionToPeer_resume, alter_connection, getMyId,
    random_base36, sendSignalingMessage, open_signaling, socket, ws_send,
    alter_socket.
  run_js.
  assert (∀ s1 : Window * t,
            socketObjects s1.1 = socketObjects w →
            connections s1.2 = connections b →
            timers s1.1 = timers w → suspended s1.1 = suspended w →
            ∃ s2, (Normal (), s1) = (Normal (), s2) ∧
                  socketObjects s2.1 = socketObjects w ∧
                  connections s2.2 = connections b ∧
                  timers s2.1 = timers w ∧
                  suspended s2.1 = suspended w) as Hfin by eauto 10.
  destruct (myId b) as [[|? me]|]; js_beta; fields;
    (destruct (signalingWs b) as [ws|] eqn:Hws; js_beta; fields;
       [|by apply Hfin]);
    (destruct (socketObjects w !! ws) as [o|] eqn:Ho; js_beta; fields;
       [|by apply Hfin]);
    (destruct (decide (ws_readyState o = OPEN)) as [Hopen|]; js_beta; fields;
       [by destruct (Hclosed ws o)|by apply Hfin]).
Qed.

(** X19: when the timer of a simulated peer fires, the peer is recorded as
    discovered, not connected, with its name, its rssi and the current time;
    the table of peers is unchanged, and one timer is armed that calls
    [onPeerConnected] for it after at least 500 and less than 1500
    milliseconds. *)
Theorem simulated_peer_discovered index id name rssi s :
  simulatedPeers !! index = Some (id, name, rssi) →
  ∃ s1 delay,
    simulated_discovered index s = (Normal (), s1) ∧
    discoveredPeers s1.2 !! id =
      Some (mkDiscoveredPeer id name rssi (now s.1) false) ∧
    peers s1.2 = peers s.2 ∧
    500 <= delay < 1500 ∧
    timers s1.1 =
      timers s.1 ++
      [mkTimer (nextTimer s.1) (now s.1 + delay) (cb_autoConnect id) None].
Proof.
  destruct s as [w b]. cbn [fst snd]. intros Hi.
  unfold simulated_discovered. rewrite Hi. unfold Date_now. run_js.
  match goal with
  | |- context [notify ?m ?c ?st] =>
      destruct (notify_state m c st) as [log ->]
  end.
  unfold random_below, setTimeout. run_js. fields.
  eexists. exists (500 + entropy w (drawn w) mod 1000).
  split; [done|]. fields. rewrite lookup_insert_eq.
  split; [done|]. split; [done|]. split; [lia|]. by rewrite N.add_assoc.
Qed.

End Peers.

(** The channel to Bob, the connection to him, and the first simulated
    peer. *)
Lemma channel_opened_then_closed_witness :
  BluetoothService.sendToPeer bob_id (Text (js "salut"))
    (BluetoothService.step (λ _, false) (BluetoothService.ChannelClosed 0)
       (BluetoothService.step (λ _, false) (BluetoothService.ChannelOpened 0)
          (bob_window, bob_transport))) =
  (Normal false,
   BluetoothService.step (λ _, false) (BluetoothService.ChannelClosed 0)
     (BluetoothService.step (λ _, false) (BluetoothService.ChannelOpened 0)
        (bob_window, bob_transport))).
Proof.
  refine (proj2 (channel_opened_then_closed (λ _, false) 0 bob_channel bob_id
                   (Text (js "salut")) (bob_window, bob_transport) _ _)).
  - reflexivity.
  - reflexivity.
Defined.

Lemma offer_lost_without_signaling_witness :
  ∃ s1,
    BluetoothService.initiateConnectionToPeer_resume 0 bob_id
      (Some (mkDescription sdp_offer (js "v=0")))
      (bob_window, bob_transport) = (Normal (), s1) ∧
    socketObjects s1.1 = socketObjects bob_window ∧
    BluetoothService.connections s1.2 = BluetoothService.connections bob_transport ∧
    timers s1.1 = timers bob_window ∧
    suspended s1.1 = suspended bob_window.
Proof.
  apply (offer_lost_without_signaling 0 bob_id
           (mkDescription sdp_offer (js "v=0")) (bob_window, bob_transport)).
  intros ws o Hws. vm_compute in Hws. discriminate.
Defined.

Lemma simulated_peer_discovered_witness :
  ∃ s1 delay,
    BluetoothService.simulated_discovered 0 (bob_window, bob_transport) =
      (Normal (), s1) ∧
    BluetoothService.discoveredPeers s1.2 !! js "peer-001" =
      Some (BluetoothService.mkDiscoveredPeer (js "peer-001") (js "Alice")
              (-45)%Z (now bob_window) false) ∧
    BluetoothService.peers s1.2 = BluetoothService.peers bob_transport ∧
    500 <= delay < 1500 ∧
    timers s1.1 =
      timers bob_window ++
      [mkTimer (nextTimer bob_window) (now bob_window + delay)
         (cb_autoConnect (js "peer-001")) None].
Proof.
  apply (simulated_peer_discovered 0 (js "peer-001") (js "Alice") (-45)%Z
           (bob_window, bob_transport)).
  vm_compute. reflexivity.
Defined.

(** ** The table of tabs *)

Section Tabs.
Import CrossTabService.

Lemma cleanupDeadTabs_lookup (time : N) (tabs : Tabs) s k info :
  (cleanupDeadTabs time tabs s).1 !! k = Some info ↔
  tabs !! k = Some info ∧ time - lastSeen info <= 30000.
Proof.
  unfold cleanupDeadTabs. cbv zeta.
  set (dead := filter (λ kv, 30000 < time - lastSeen kv.2) tabs).
  destruct (decide (size dead = 0%nat)) as [Hnone|Hsome]; cbn [fst snd].
  - apply map_size_empty_iff in Hnone.
    split; [|by intros [? _]]. intros Hk. split; [done|].
    destruct (decide (30000 < time - lastSeen info)); [|lia].
    assert (dead !! k = Some info) as Hd
      by (subst dead; by apply map_lookup_filter_Some).
    by rewrite Hnone in Hd.
  - rewrite map_lookup_filter_Some. cbn.
    split; intros [? ?]; split; try done; lia.
Qed.

(** X20: [cleanupDeadTabs] keeps exactly the tabs last seen at most thirty
    seconds ago, as they were. When every tab is that recent it changes
    nothing and elects nobody; when a tab was removed it elects the leader
    among the tabs kept, and this tab can then be leader only if its own
    entry was kept. *)
Theorem cleanupDeadTabs_keeps_recent (time : N) (tabs : Tabs) s :
  let r := cleanupDeadTabs time tabs s in
  (∀ k info, r.1 !! k = Some info ↔
             tabs !! k = Some info ∧ time - lastSeen info <= 30000) ∧
  ((∀ k info, tabs !! k = Some info → time - lastSeen info <= 30000) →
   r = (tabs, (s, []))) ∧
  (r.1 ≠ tabs → r.2 = electLeader r.1 s) ∧
  (r.1 ≠ tabs → isLeader r.2.1 = true →
   ∃ info, tabs !! myTabId s = Some info ∧ time - lastSeen info <= 30000).
Proof.
  cbv zeta. unfold cleanupDeadTabs. cbv zeta.
  set (dead := filter (λ kv, 30000 < time - lastSeen kv.2) tabs).
  set (alive := filter (λ kv, ¬ 30000 < time - lastSeen kv.2) tabs).
  assert (∀ k info, alive !! k = Some info ↔
                    tabs !! k = Some info ∧ time - lastSeen info <= 30000)
    as Halive.
  { intros k info. subst alive. rewrite map_lookup_filter_Some. cbn.
    split; intros [? ?]; split; try done; lia. }
  destruct (decide (size dead = 0%nat)) as [Hnone|Hsome]; cbn [fst snd].
  - apply map_size_empty_iff in Hnone.
    assert (∀ k info, tabs !! k = Some info → time - lastSeen info <= 30000)
      as Hall.
    { intros k info Hk. destruct (decide (30000 < time - lastSeen info)); [|lia].
      assert (dead !! k = Some info) as Hd
        by (subst dead; by apply map_lookup_filter_Some).
      by rewrite Hnone in Hd. }
    split; [|split; [|split]]; try done.
    intros k info. split; [|by intros [? _]]. intros Hk. split; [done|eauto].
  - split; [done|]. split; [|split; [done|]].
    + intros Hall. destruct Hsome. apply map_size_empty_iff.
      subst dead. apply map_empty_filter_2. intros k info Hk. cbn.
      specialize (Hall k info Hk). lia.
    + intros _ Hleader. apply electLeader_least in Hleader as [Hin _].
      apply elem_of_dom in Hin as [info Hinfo]. exists info.
      by apply Halive.
Qed.

(** X21: [electLeader] a second time on the same table changes nothing and
    notifies nobody; an election notifies the delegates exactly when it
    changes [isLeader]; it never changes the id of the tab. *)
Theorem electLeader_settles (tabs : Tabs) s :
  electLeader tabs (electLeader tabs s).1 = ((electLeader tabs s).1, []) ∧
  ((electLeader tabs s).2 = [] ↔
   isLeader (electLeader tabs s).1 = isLeader s) ∧
  myTabId (electLeader tabs s).1 = myTabId s.
Proof.
  unfold electLeader. cbv zeta.
  destruct (Array_sort (Object_keys tabs)) as [|first rest]; cbn [andb negb].
  - destruct (isLeader s) eqn:Hl; cbn; repeat split; try done; by intros [=].
  - destruct (bool_decide (first = myTabId s)) eqn:Hf, (isLeader s) eqn:Hl;
      cbn; rewrite ?Hf; cbn; repeat split; try done; by intros [=].
Qed.

(** X22: one run of the interval of [init], [updateHeartbeat] and then
    [cleanupDeadTabs] at most thirty seconds later, never removes the entry
    of the tab itself and never adds a tab: the own entry is in the table
    afterwards exactly when it was there before, and its [lastSeen] is then
    the time of the update. *)
Theorem heartbeat_keeps_own_tab (time time' : N) (tabs : Tabs) s :
  time' - time <= 30000 →
  let r := heartbeat time time' tabs s in
  (myTabId s ∈ dom r.1 ↔ myTabId s ∈ dom tabs) ∧
  (∀ k, k ∈ dom r.1 → k ∈ dom tabs) ∧
  (∀ info, r.1 !! myTabId s = Some info → lastSeen info = time).
Proof.
  intros Htime. cbv zeta. unfold heartbeat.
  pose proof (cleanupDeadTabs_lookup time' (updateHeartbeat time s tabs) s)
    as Hkeep.
  set (r := cleanupDeadTabs time' (updateHeartbeat time s tabs) s) in *.
  assert (∀ k, k ∈ dom (updateHeartbeat time s tabs) ↔ k ∈ dom tabs) as Hdom.
  { intros k. unfold updateHeartbeat.
    destruct (tabs !! myTabId s) as [info|] eqn:Hme; [|done].
    rewrite dom_insert_L. split; [|by intros ?; apply elem_of_union; right].
    intros [->%elem_of_singleton|?]%elem_of_union; [|done].
    by apply elem_of_dom. }
  split; [|split].
  - split.
    + intros [info Hinfo]%elem_of_dom. apply Hkeep in Hinfo as [Hinfo _].
      apply Hdom. by apply elem_of_dom.
    + intros [info Hinfo]%elem_of_dom. apply elem_of_dom.
      eexists. apply Hkeep. unfold updateHeartbeat. rewrite Hinfo.
      rewrite lookup_insert_eq. split; [done|]. cbn. lia.
  - intros k [info Hinfo]%elem_of_dom. apply Hkeep in Hinfo as [Hinfo _].
    apply Hdom. by apply elem_of_dom.
  - intros info [Hinfo _]%Hkeep. unfold updateHeartbeat in Hinfo.
    destruct (tabs !! myTabId s) as [info0|] eqn:Hme.
    + rewrite lookup_insert_eq in Hinfo. by injection Hinfo as <-.
    + by rewrite Hme in Hinfo.
Qed.

(** X23: [registerTab] records the tab under its own id with the nickname
    and leaves the entries of the other tabs alone; the election after it
    makes the tab leader exactly when no id of the table before sorts below
    its own, so always in an empty table. [unregisterTab] after
    [registerTab] gives the table that [unregisterTab] alone gives, and on
    that table [electLeader] never makes the tab leader. *)
Theorem registerTab_then_electLeader (time : N) (nick : jsstring) (tabs : Tabs) s :
  (∀ k, k ≠ myTabId s → registerTab time nick s tabs !! k = tabs !! k) ∧
  nickname <$> registerTab time nick s tabs !! myTabId s = Some nick ∧
  (isLeader (electLeader (registerTab time nick s tabs) s).1 = true ↔
   ∀ k, k ∈ dom tabs → str_le (myTabId s) k) ∧
  unregisterTab s (registerTab time nick s tabs) = unregisterTab s tabs ∧
  isLeader (electLeader (unregisterTab s tabs) s).1 = false.
Proof.
  split; [by intros k Hk; apply lookup_insert_ne|].
  split; [unfold registerTab; by rewrite lookup_insert_eq|].
  split; [|split].
  - rewrite electLeader_least. unfold registerTab. rewrite dom_insert_L.
    split.
    + intros [_ Hle] k Hk. apply Hle, elem_of_union. by right.
    + intros Hle. split; [apply elem_of_union; left; by apply elem_of_singleton|].
      intros k [->%elem_of_singleton|Hk]%elem_of_union; [done|by apply Hle].
  - apply delete_insert_eq.
  - destruct (isLeader (electLeader _ s).1) eqn:Hl; [|done].
    apply electLeader_least in Hl as [Hin _]. unfold unregisterTab in Hin.
    apply elem_of_dom in Hin as [? Hin]. by rewrite lookup_delete_eq in Hin.
Qed.

End Tabs.

(** The second of two tabs, two milliseconds between the update and the
    cleanup. *)
Lemma heartbeat_keeps_own_tab_witness :
  CrossTabService.myTabId second_tab ∈
    dom (CrossTabService.heartbeat 1700000005000 1700000005002 two_tabs
           second_tab).1 ↔
  CrossTabService.myTabId second_tab ∈ dom two_tabs.
Proof.
  refine (proj1 (heartbeat_keeps_own_tab 1700000005000 1700000005002 two_tabs
                   second_tab _)).
  lia.
Defined.

(** ** What stays in the history *)

Section Local.
Context `{AesGcm}.
Import Window ChatService.

Lemma addMessage_run channel message w s :
  ∃ d, addMessage channel message (w, s) =
         (Normal (),
          (w, set_delegated d
                (set_messages
                   (<[channel := history_after channel message (w, s)]>
                      (messages s)) s))).
Proof.
  destruct (addMessage_messages channel message (w, s)) as (s' & Hrun & Hm).
  assert (∃ m d, addMessage channel message (w, s) =
                   (Normal (), (w, set_delegated d (set_messages m s))))
    as (m & d & Hshape).
  { clear. destruct s as [bs cs xs ch cur ms pm bl cp nick del dl].
    unfold addMessage, notify. run_js.
    destruct (bool_decide _); js_beta; cbn [messages set_messages];
      destruct (decide _); js_beta; cbn [delegate set_messages];
      destruct del; js_beta; do 2 eexists;
      unfold set_delegated, set_messages; cbn; reflexivity. }
  rewrite Hshape in Hrun. injection Hrun as <-. cbn in Hm. subst m.
  by exists d.
Qed.

Lemma last_history_after channel message (s : Window * ChatService.t) :
  last (history_after channel message s) = Some message.
Proof.
  unfold history_after. cbv zeta.
  set (l := default [] (messages s.2 !! channel) ++ [message]).
  assert (length l ≠ 0)%nat as Hl by (subst l; rewrite length_app; cbn; lia).
  rewrite last_drop by lia. subst l. apply last_snoc.
Qed.

(** X24: [sendChannelMessage] always returns false: it appends the message,
    marked as its own, to the local history of the channel, and stops at the
    call of [crossTabService.sendMessage], which is no method; nothing is
    written to a data channel or to a socket, and the transport is as it
    was. *)
Theorem sendChannelMessage_only_local channel content s :
  ∃ s',
    sendChannelMessage channel content s = (Normal false, s') ∧
    channelObjects s'.1 = channelObjects s.1 ∧
    socketObjects s'.1 = socketObjects s.1 ∧
    bluetoothService s'.2 = bluetoothService s.2 ∧
    last (default [] (messages s'.2 !! channel)) =
      Some (local_copy
              (chat_envelope (next_message_id s.1) channel (myNickname s.2)
                 content (now s.1))
              (now s.1)).
Proof.
  destruct s as [w s]. unfold sendChannelMessage. run_js.
  unfold crypto at 1. rewrite generateMessageId_spec. js_beta.
  unfold Date_now. run_js. cbn [now set_drawn myNickname set_cryptoService].
  match goal with
  | |- context [addMessage ?c ?m (?w', ?s0)] =>
      destruct (addMessage_run c m w' s0) as (d & ->)
  end.
  js_beta. unfold CrossTabService.not_a_function. run_js.
  eexists. split; [done|]. cbn [fst snd]. split; [done|]. split; [done|].
  split; [done|]. cbn [messages set_delegated set_messages].
  rewrite lookup_insert_eq. cbn [default]. apply last_history_after.
Qed.

Lemma addPrivateMessage_run peer message w s :
  ∃ d, addPrivateMessage peer message (w, s) =
         (Normal (),
          (w, set_delegated d
                (set_privateMessages
                   (<[peer := default [] (privateMessages s !! peer) ++ [message]]>
                      (privateMessages s)) s))).
Proof.
  destruct s as [bs cs xs ch cur ms pm bl cp nick del dl].
  unfold addPrivateMessage, notify. run_js. cbn [privateMessages].
  assert (∀ pm0 : gmap jsstring (list JSON.Object),
            pm0 !! peer = Some [] →
            alter (λ l, l ++ [message]) peer pm0 = <[peer := [message]]> pm0)
    as Hnew.
  { intros pm0 H0. apply map_eq. intros k.
    destruct (decide (k = peer)) as [->|Hne].
    - by rewrite lookup_alter_eq, lookup_insert_eq, H0.
    - by rewrite lookup_alter_ne, lookup_insert_ne. }
  destruct (pm !! peer) as [l|] eqn:Hl.
  - rewrite bool_decide_eq_true_2 by done. js_beta.
    cbn [set_privateMessages privateMessages delegate].
    assert (alter (λ l, l ++ [message]) peer pm = <[peer := l ++ [message]]> pm)
      as ->.
    { apply map_eq. intros k. destruct (decide (k = peer)) as [->|Hne].
      - by rewrite lookup_alter_eq, lookup_insert_eq, Hl.
      - by rewrite lookup_alter_ne, lookup_insert_ne. }
    destruct del; js_beta; eexists;
      unfold set_delegated, set_privateMessages; cbn; reflexivity.
  - rewrite bool_decide_eq_false_2 by (by intros [? ?]). js_beta.
    cbn [set_privateMessages privateMessages delegate].
    rewrite Hnew by apply lookup_insert_eq. rewrite insert_insert_eq.
    destruct del; js_beta; eexists;
      unfold set_delegated, set_privateMessages; cbn; reflexivity.
Qed.

Lemma addSystemMessage_run channel content w s :
  ∃ d,
    addSystemMessage channel content (w, s) =
      (Normal (),
       (set_drawn (drawn w + 16)%nat w,
        set_delegated d
          (set_messages
             (<[channel :=
                  history_after channel
                    [("id", JSON.VString (next_message_id w));
                     ("type", JSON.VString (js "system"));
                     ("content", JSON.VString content);
                     ("timestamp", JSON.VDate (now w));
                     ("channel", JSON.VString channel)]%string
                    (w, s)]> (messages s))
             s))).
Proof.
  unfold addSystemMessage. run_js.
  unfold crypto at 1. rewrite generateMessageId_spec. js_beta.
  unfold Date_now. run_js. cbn [now set_drawn].
  match goal with
  | |- context [addMessage ?c ?m (?w', ?s0)] =>
      destruct (addMessage_run c m w' s0) as (d & ->)
  end.
  exists d. destruct s. unfold history_after. reflexivity.
Qed.

(** X25: when no connected peer has the nickname, [sendPrivateMessage]
    returns false and writes to no data channel; yet the message stays as
    the last entry of the private history with that nickname, and the last
    entry of the current channel is a system message that says that the peer
    was not found. *)
Theorem sendPrivateMessage_unknown_peer targetNickname content s :
  List.find (λ p, bool_decide (BluetoothService.peer_name p = targetNickname))
    (JsMap.values (BluetoothService.peers (bluetoothService s.2))) = None →
  ∃ s' notice,
    sendPrivateMessage targetNickname content s = (Normal false, s') ∧
    channelObjects s'.1 = channelObjects s.1 ∧
    last (default [] (privateMessages s'.2 !! targetNickname)) =
      Some (local_copy (outgoing_private s targetNickname content) (now s.1)) ∧
    last (default [] (messages s'.2 !! currentChannel s.2)) = Some notice ∧
    JSON.get_property "type" notice = Some (JSON.VString (js "system")) ∧
    JSON.get_property "content" notice =
      Some (JSON.VString
              (js "Impossible d'envoyer le message privé à " ++
               targetNickname ++ js ": Peer not found")).
Proof.
  destruct s as [w s]. unfold outgoing_private. cbn [fst snd]. intros Hfind.
  unfold sendPrivateMessage. run_js.
  unfold crypto at 1. rewrite generateMessageId_spec. js_beta.
  unfold Date_now. run_js. cbn [now set_drawn myNickname set_cryptoService].
  match goal with
  | |- context [addPrivateMessage ?p ?m (?w', ?s0)] =>
      destruct (addPrivateMessage_run p m w' s0) as (d & ->)
  end.
  js_beta. unfold bluetooth at 1, BluetoothService.getConnectedPeers. run_js.
  cbn [bluetoothService set_delegated set_privateMessages set_cryptoService
       set_bluetoothService].
  rewrite Hfind. js_beta.
  cbn [currentChannel set_delegated set_privateMessages set_cryptoService
       set_bluetoothService].
  match goal with
  | |- context [addSystemMessage ?c ?m (?w', ?s0)] =>
      destruct (addSystemMessage_run c m w' s0) as (d' & ->)
  end.
  js_beta. do 2 eexists. split; [done|]. cbn [fst snd].
  split; [done|].
  cbn [privateMessages messages set_delegated set_messages set_privateMessages
       set_cryptoService set_bluetoothService].
  rewrite !lookup_insert_eq. cbn [default].
  split; [apply last_snoc|]. split; [apply last_history_after|]. done.
Qed.

End Local.

(** Alice writes to somebody who is not connected. *)
Lemma sendPrivateMessage_unknown_peer_witness :
  ∃ s',
    ChatService.sendPrivateMessage (js "Zed") (js "salut")
      (bob_window, bob_chat) = (Normal false, s') ∧
    channelObjects s'.1 = channelObjects bob_window.
Proof.
  destruct (sendPrivateMessage_unknown_peer (js "Zed") (js "salut")
              (bob_window, bob_chat)) as (s' & notice & Hrun & Hch & _).
  - vm_compute. reflexivity.
  - exists s'. split; [exact Hrun|exact Hch].
Defined.

(** ** The commands of the chat *)

Section Commands.
Context `{AesGcm}.
Import Window ChatService ChatCommands.

Ltac chat_fields :=
  cbn [fst snd service announced bluetoothService cryptoService
       crossTabService channels currentChannel messages privateMessages
       blockedPeers channelPasswords myNickname delegate delegated
       set_bluetoothService set_cryptoService set_messages
       set_privateMessages set_delegated set_channels set_currentChannel
       set_blockedPeers set_channelPasswords set_myNickname
       now localStorage drawn set_drawn set_localStorage].

Lemma announce_run call w c a :
  announce call (w, ChatCommands.mk c a) =
    (Normal (),
     (w, ChatCommands.mk c (a ++ if delegate c then [call] else []))).
Proof.
  unfold announce, field. run_js. chat_fields.
  destruct (delegate c); js_beta; [done|]. by rewrite app_nil_r.
Qed.

Lemma chat_addSystemMessage_run channel content w c a :
  ∃ d,
    chat (addSystemMessage channel content) (w, ChatCommands.mk c a) =
      (Normal (),
       (set_drawn (drawn w + 16)%nat w,
        ChatCommands.mk
          (set_delegated d
             (set_messages
                (<[channel :=
                     history_after channel
                       [("id", JSON.VString (next_message_id w));
                        ("type", JSON.VString (js "system"));
                        ("content", JSON.VString content);
                        ("timestamp", JSON.VDate (now w));
                        ("channel", JSON.VString channel)]%string
                       (w, c)]> (messages c))
                c))
          a)).
Proof.
  unfold chat. chat_fields.
  destruct (addSystemMessage_run channel content w c) as (d & ->). by exists d.
Qed.

Lemma addNotice_run content w c a :
  ∃ d m,
    addNotice content (w, ChatCommands.mk c a) =
      (Normal (),
       (set_drawn (drawn w + 16)%nat w,
        ChatCommands.mk (set_delegated d (set_messages m c)) a)).
Proof.
  unfold addNotice, field. run_js. chat_fields.
  destruct (chat_addSystemMessage_run (currentChannel c) content w c a)
    as (d & ->).
  by do 2 eexists.
Qed.



Lemma elem_of_names_Set_add x y l :
  x ∈ ChatCommands.Set_add y l ↔ x ∈ l ∨ x = y.
Proof.
  unfold ChatCommands.Set_add. destruct (decide (y ∈ l)).
  - split; [by left|]. by intros [?| ->].
  - by rewrite elem_of_app, list_elem_of_singleton.
Qed.

Lemma elem_of_Set_delete x y l : x ∈ Set_delete y l ↔ x ∈ l ∧ x ≠ y.
Proof.
  unfold Set_delete. rewrite elem_of_List_filter.
  by rewrite negb_true_iff, bool_decide_eq_false.
Qed.

Lemma cmdBlock_run target rest w c a :
  ∃ d m,
    cmdBlock (target :: rest) (w, ChatCommands.mk c a) =
      (Normal true,
       (set_drawn (drawn w + 16)%nat w,
        ChatCommands.mk
          (set_delegated d
             (set_messages m
                (set_blockedPeers
                   (ChatCommands.Set_add (without_prefix 64 target)
                      (blockedPeers c)) c)))
          a)).
Proof.
  unfold cmdBlock, assign. cbv zeta. run_js. chat_fields.
  match goal with
  | |- context [addNotice ?t (?w', ChatCommands.mk ?c' ?a')] =>
      destruct (addNotice_run t w' c' a') as (d & m & ->)
  end.
  js_beta. exists d, m. by destruct c.
Qed.

Lemma cmdUnblock_run target rest w c a :
  ∃ d m,
    cmdUnblock (target :: rest) (w, ChatCommands.mk c a) =
      (Normal true,
       (set_drawn (drawn w + 16)%nat w,
        ChatCommands.mk
          (set_delegated d
             (set_messages m
                (set_blockedPeers
                   (Set_delete (without_prefix 64 target) (blockedPeers c)) c)))
          a)).
Proof.
  unfold cmdUnblock, assign, field. cbv zeta. run_js. chat_fields.
  destruct (Set_has _ _);
    match goal with
    | |- context [addNotice ?t (?w', ChatCommands.mk ?c' ?a')] =>
        destruct (addNotice_run t w' c' a') as (d & m & ->)
    end;
    js_beta; exists d, m; by destruct c.
Qed.

(** X27: [cmdBlock] with a target, an initial [@] removed, returns true and
    puts it in the set of blocked peers; [cmdUnblock] with the same target
    afterwards returns true and removes it; neither changes whether another
    name is blocked. *)
Theorem cmdUnblock_cmdBlock target rest rest' s :
  ∃ s1 s2,
    cmdBlock (target :: rest) s = (Normal true, s1) ∧
    without_prefix 64 target ∈ blockedPeers (service s1.2) ∧
    cmdUnblock (target :: rest') s1 = (Normal true, s2) ∧
    (without_prefix 64 target ∉ blockedPeers (service s2.2)) ∧
    ∀ other, other ≠ without_prefix 64 target →
      (other ∈ blockedPeers (service s1.2) ↔ other ∈ blockedPeers (service s.2)) ∧
      (other ∈ blockedPeers (service s2.2) ↔ other ∈ blockedPeers (service s.2)).
Proof.
  destruct s as [w [c a]]. chat_fields.
  destruct (cmdBlock_run target rest w c a) as (d & m & Hb).
  destruct (cmdUnblock_run target rest' (set_drawn (drawn w + 16)%nat w)
              (set_delegated d
                 (set_messages m
                    (set_blockedPeers
                       (ChatCommands.Set_add (without_prefix 64 target)
                          (blockedPeers c)) c)))
              a) as (d' & m' & Hun).
  do 2 eexists. split; [exact Hb|]. chat_fields.
  split; [apply elem_of_names_Set_add; by right|]. split; [exact Hun|]. chat_fields.
  split; [rewrite elem_of_Set_delete; by intros [_ ?]|].
  intros other Hne.
  rewrite elem_of_Set_delete, !elem_of_names_Set_add. split; [tauto|tauto].
Qed.

Lemma leaveChannel_run channelName w c a :
  ∃ d m,
    leaveChannel channelName (w, ChatCommands.mk c a) =
      (Normal true,
       (set_drawn (drawn w + 16)%nat w,
        ChatCommands.mk
          (set_delegated d
             (set_messages m
                (set_currentChannel general
                   (set_channels
                      (match channels c !! channelName with
                       | Some ch =>
                           let rest := Set_delete (myNickname c) (users ch) in
                           if decide (length rest = 0%nat ∧ channelName ≠ general)
                           then delete channelName
                                  (<[channelName := with_users rest ch]>
                                     (channels c))
                           else <[channelName := with_users rest ch]> (channels c)
                       | None => channels c
                       end) c))))
          (a ++ if delegate c then [onChannelChanged general] else []))).
Proof.
  destruct c as [bs cs xs ch cur ms pm bl cp nick del dl].
  unfold leaveChannel, assign, field. run_js. chat_fields.
  destruct (ch !! channelName) as [c0|]; js_beta; chat_fields;
    [destruct (decide _); js_beta; chat_fields|];
    (match goal with
     | |- context [chat (addSystemMessage ?g ?t) (?w', ChatCommands.mk ?c' ?a')] =>
         destruct (chat_addSystemMessage_run g t w' c' a') as (d & ->)
     end);
    js_beta;
    (match goal with
     | |- context [announce ?call (?w', ChatCommands.mk ?c' ?a')] =>
         rewrite (announce_run call w' c' a')
     end);
    js_beta; chat_fields; do 2 eexists;
    unfold set_delegated, set_messages, set_currentChannel, set_channels;
    cbn; reflexivity.
Qed.

(** X28: [cmdLeave] in the general channel returns false, changes neither
    the channels nor the current channel and does not call
    [onChannelChanged]. [leaveChannel] of any channel returns true and makes
    the general channel the current one, keeps the general channel in the
    table if it was there and leaves the other channels alone; a channel
    other than the general one loses the user, and is deleted when no user
    is left. *)
Theorem leaving_returns_to_general channelName args s :
  (currentChannel (service s.2) = general →
   ∃ s', cmdLeave args s = (Normal false, s') ∧
         channels (service s'.2) = channels (service s.2) ∧
         currentChannel (service s'.2) = general ∧
         announced s'.2 = announced s.2) ∧
  ∃ s', leaveChannel channelName s = (Normal true, s') ∧
        currentChannel (service s'.2) = general ∧
        (is_Some (channels (service s.2) !! general) →
         is_Some (channels (service s'.2) !! general)) ∧
        (∀ k, k ≠ channelName →
           channels (service s'.2) !! k = channels (service s.2) !! k) ∧
        (∀ c, channels (service s.2) !! channelName = Some c →
           channelName ≠ general →
           channels (service s'.2) !! channelName =
             if decide (Set_delete (myNickname (service s.2)) (users c) = [])
             then None
             else Some (with_users
                          (Set_delete (myNickname (service s.2)) (users c)) c)).
Proof.
  destruct s as [w [c a]]. chat_fields. split.
  - intros Hcur. unfold cmdLeave, field. run_js. chat_fields.
    rewrite decide_True by done. js_beta.
    match goal with
    | |- context [addNotice ?t (?w', ChatCommands.mk ?c' ?a')] =>
        destruct (addNotice_run t w' c' a') as (d & m & ->)
    end.
    js_beta. eexists. split; [done|]. by chat_fields.
  - destruct (leaveChannel_run channelName w c a) as (d & m & ->).
    eexists. split; [done|]. chat_fields. split; [done|].
    split; [|split].
    + intros [g Hg]. destruct (channels c !! channelName) as [ch|] eqn:Hch;
        [|by eauto]. cbv zeta.
      destruct (decide (channelName = general)) as [->|Hne].
      * rewrite decide_False by (by intros [_ ?]).
        rewrite lookup_insert_eq. eauto.
      * destruct (decide _).
        -- rewrite lookup_delete_ne, lookup_insert_ne by done. eauto.
        -- rewrite lookup_insert_ne by done. eauto.
    + intros k Hk. destruct (channels c !! channelName) as [ch|]; [|done].
      cbv zeta. destruct (decide _).
      * by rewrite lookup_delete_ne, lookup_insert_ne.
      * by rewrite lookup_insert_ne.
    + intros ch Hch Hne. rewrite Hch. cbv zeta.
      destruct (decide (Set_delete (myNickname c) (users ch) = [])) as [Hnil|Hsome].
      * rewrite decide_True by (by rewrite Hnil). apply lookup_delete_eq.
      * rewrite decide_False.
        -- apply lookup_insert_eq.
        -- intros [Hlen _]. by apply nil_length_inv in Hlen.
Qed.

Lemma joinChannel_run channelName w c a :
  (match channels c !! channelName, channelPasswords c !! channelName with
   | Some ch, Some (_ :: _) => true
   | Some ch, _ => negb (ChatService.hasPassword ch && delegate c)
   | None, _ => true
   end) = true →
  ∃ d m,
    joinChannel channelName (w, ChatCommands.mk c a) =
      (Normal true,
       (set_drawn (drawn w + 16)%nat w,
        ChatCommands.mk
          (set_delegated d
             (set_messages m
                (set_currentChannel channelName
                   (set_channels
                      (<[channelName :=
                           match channels c !! channelName with
                           | Some ch =>
                               with_users
                                 (ChatCommands.Set_add (myNickname c) (users ch))
                                 ch
                           | None =>
                               mkChannel channelName [myNickname c] false
                                 (myNickname c) (now w) false
                           end]> (channels c)) c))))
          (a ++ if delegate c then [onChannelChanged channelName] else []))).
Proof.
  destruct c as [bs cs xs ch cur ms pm bl cp nick del dl]. chat_fields.
  intros Hjoin. unfold joinChannel, assign, field, Date_now. cbv zeta.
  run_js. chat_fields.
  assert ((match ch !! channelName with
           | Some c0 => ChatService.hasPassword c0
           | None => false
           end && negb match cp !! channelName with
                       | Some (_ :: _) => true
                       | _ => false
                       end && del) = false) as ->.
  { destruct (ch !! channelName) as [c0|]; [|done].
    destruct (cp !! channelName) as [[|? ?]|]; cbn in *;
      rewrite ?andb_false_r; try done;
      by destruct (ChatService.hasPassword c0), del. }
  js_beta.
  destruct (ch !! channelName) as [c0|]; js_beta; chat_fields;
    (match goal with
     | |- context [chat (addSystemMessage ?g ?t) (?w', ChatCommands.mk ?c' ?a')] =>
         destruct (chat_addSystemMessage_run g t w' c' a') as (d & ->)
     end);
    js_beta;
    (match goal with
     | |- context [announce ?call (?w', ChatCommands.mk ?c' ?a')] =>
         rewrite (announce_run call w' c' a')
     end);
    js_beta; chat_fields; do 2 eexists;
    unfold set_delegated, set_messages, set_currentChannel, set_channels;
    cbn; reflexivity.
Qed.

(** X29: [joinChannel] of a channel that is not in the table creates it,
    without password, with the user as its only member and its owner, and
    makes it the current channel. [leaveChannel] right after it makes the
    general channel the current one and deletes the channel again, so that
    the table of channels is as before, except when the channel is the
    general one itself, which stays in the table with no user. *)
Theorem leaveChannel_joinChannel channelName s :
  channels (service s.2) !! channelName = None →
  ∃ s1 s2,
    joinChannel channelName s = (Normal true, s1) ∧
    channels (service s1.2) !! channelName =
      Some (mkChannel channelName [myNickname (service s.2)] false
              (myNickname (service s.2)) (now s.1) false) ∧
    currentChannel (service s1.2) = channelName ∧
    leaveChannel channelName s1 = (Normal true, s2) ∧
    currentChannel (service s2.2) = general ∧
    channels (service s2.2) =
      if decide (channelName = general)
      then <[general := mkChannel general [] false (myNickname (service s.2))
                          (now s.1) false]> (channels (service s.2))
      else channels (service s.2).
Proof.
  destruct s as [w [c a]]. chat_fields. intros Hnew.
  destruct (joinChannel_run channelName w c a) as (d & m & Hjoin).
  { by rewrite Hnew. }
  rewrite Hnew in Hjoin.
  match type of Hjoin with
  | _ = (_, (?w1, ChatCommands.mk ?c1 ?a1)) =>
      destruct (leaveChannel_run channelName w1 c1 a1) as (d' & m' & Hleave)
  end.
  do 2 eexists. split; [exact Hjoin|]. chat_fields.
  split; [apply lookup_insert_eq|]. split; [done|].
  split; [exact Hleave|]. chat_fields. split; [done|].
  rewrite lookup_insert_eq. cbv zeta. cbn [users with_users].
  assert (Set_delete (myNickname c) [myNickname c] = []) as ->.
  { unfold Set_delete. cbn. by rewrite bool_decide_eq_true_2. }
  destruct (decide (channelName = general)) as [->|Hne].
  - rewrite decide_False by (by intros [_ ?]).
    rewrite insert_insert_eq. reflexivity.
  - rewrite decide_True by done.
    rewrite delete_insert_eq, delete_insert_eq. by apply delete_id.
Qed.

(** X30: for a channel of the table that has a password:
    [joinChannelWithPassword] with a password other than the one stored for
    the channel, or with none stored, returns false, changes neither the
    channels nor the current channel and does not call [onChannelChanged];
    [joinChannel], when a non-empty password is stored for the channel,
    returns true without asking for it, adds the user to the channel and
    makes it the current channel. *)
Theorem channel_password channelName password ch s :
  channels (service s.2) !! channelName = Some ch →
  ChatService.hasPassword ch = true →
  (channelPasswords (service s.2) !! channelName ≠ Some password →
   ∃ s', joinChannelWithPassword channelName password s = (Normal false, s') ∧
         channels (service s'.2) = channels (service s.2) ∧
         currentChannel (service s'.2) = currentChannel (service s.2) ∧
         announced s'.2 = announced s.2) ∧
  (∀ stored, channelPasswords (service s.2) !! channelName = Some stored →
             stored ≠ [] →
   ∃ s', joinChannel channelName s = (Normal true, s') ∧
         currentChannel (service s'.2) = channelName ∧
         channels (service s'.2) !! channelName =
           Some (with_users
                   (ChatCommands.Set_add (myNickname (service s.2)) (users ch))
                   ch) ∧
         announced s'.2 =
           announced s.2 ++
           (if delegate (service s.2) then [onChannelChanged channelName]
            else [])).
Proof.
  destruct s as [w [c a]]. chat_fields. intros Hch Hprot. split.
  - intros Hwrong. unfold joinChannelWithPassword, field. cbv zeta. run_js.
    chat_fields. rewrite Hch, Hprot. rewrite bool_decide_eq_false_2 by done.
    cbn [andb negb].
    match goal with
    | |- context [addNotice ?t (?w', ChatCommands.mk ?c' ?a')] =>
        destruct (addNotice_run t w' c' a') as (d & m & ->)
    end.
    js_beta. eexists. split; [done|]. by chat_fields.
  - intros stored Hstored Hne.
    destruct (joinChannel_run channelName w c a) as (d & m & ->).
    { rewrite Hch, Hstored. by destruct stored. }
    eexists. split; [done|]. chat_fields. split; [done|].
    rewrite Hch. split; [apply lookup_insert_eq|done].
Qed.

End Commands.

(** A channel that Alice creates, and one with a password. *)
Lemma leaveChannel_joinChannel_witness :
  ∃ s1 s2,
    ChatCommands.joinChannel (js "#rocq") alice_commands = (Normal true, s1) ∧
    ChatCommands.leaveChannel (js "#rocq") s1 = (Normal true, s2) ∧
    ChatService.channels (ChatCommands.service s2.2) =
      ChatService.channels (ChatCommands.service alice_commands.2).
Proof.
  destruct (leaveChannel_joinChannel (js "#rocq") alice_commands)
    as (s1 & s2 & Hjoin & _ & _ & Hleave & _ & Hsame).
  - vm_compute. reflexivity.
  - exists s1, s2. split; [exact Hjoin|]. split; [exact Hleave|].
    rewrite Hsame. apply decide_False. vm_compute. discriminate.
Defined.

Lemma channel_password_witness :
  ∃ s',
    ChatCommands.joinChannelWithPassword secret_channel (js "devine")
      protected_commands = (Normal false, s') ∧
    ChatService.currentChannel (ChatCommands.service s'.2) =
      ChatService.currentChannel (ChatCommands.service protected_commands.2).
Proof.
  destruct (channel_password secret_channel (js "devine") secret_info
              protected_commands) as [Hwrong _].
  - vm_compute. reflexivity.
  - reflexivity.
  - destruct Hwrong as (s' & Hrun & _ & Hcur & _).
    + vm_compute. discriminate.
    + exists s'. split; [exact Hrun|exact Hcur].
Defined.
